(** * source-faker: the record generators and the sync driver

    A shallow embedding of
    [airbyte-integrations/connectors/source-faker/source_faker/source.py]
    and the properties of its generation / checkpoint contract.

    Python dictionaries are finite maps ([gmap]); the generator returned by
    [read] is the list of messages it yields together with the way it
    ends (normal return or a raised exception); the three sources of
    non-determinism the module talks to (the Faker instance, the global
    [random] module and the wall clock) are oracles carried in a [World]
    that every effectful function threads. *)

From Stdlib Require Import ZArith Lia.
From stdpp Require Import gmap strings list fin_maps pretty.

Local Open Scope string_scope.
Local Open Scope list_scope.
Local Open Scope Z_scope.

(** ** Values *)

(** A naive [datetime.datetime]: its distance from the epoch in
    microseconds.  Comparison of datetimes is comparison of these numbers. *)
Definition datetime := Z.

Definition microseconds_per_day : Z := 86400000000.

(** [(end - start).days]: a [timedelta] is normalised so that its seconds
    and microseconds are non-negative, hence [days] is the floor. *)
Definition timedelta_days (end_date start_date : datetime) : Z :=
  (end_date - start_date) / microseconds_per_day.

(** [start + datetime.timedelta(days=n)] *)
Definition add_days (start_date : datetime) (n : Z) : datetime :=
  start_date + n * microseconds_per_day.

(** The values stored in the dictionaries that become record data. *)
Inductive value :=
  | VNone
  | VInt (n : Z)
  | VStr (s : string)
  | VDateTime (d : datetime).

Abbreviation Dict := (gmap string value).

(** The per-stream checkpoint objects written by [read]:
    [{"cursor": .., "seed": ..}], [{"purchases_count": ..}] and
    [{"product_count": ..}].  [cursor] and [seed] may hold [None]. *)
Inductive Checkpoint :=
  | CkUsers (cursor seed : option Z)
  | CkPurchases (purchases_count : Z)
  | CkProducts (product_count : Z).

(** The combined state: stream name to checkpoint. *)
Abbreviation State := (gmap string Checkpoint).

Record AirbyteStream := { name : string }.
Record ConfiguredAirbyteStream := { stream : AirbyteStream }.

Definition stream_name (s : ConfiguredAirbyteStream) : string := name (stream s).

(** [AirbyteMessage]: a record message or a state message.  A state
    message is observed when it is yielded, so it carries the contents the
    state dictionary has at that moment. *)
Inductive AirbyteMessage :=
  | RECORD (stream_ : string) (data : Dict) (emitted_at : Z)
  | STATE (data : State).

(** ** Exceptions and effects *)

Inductive Exn :=
  | KeyError (key : string)
  | ValueError (msg : string)
  | TypeError (msg : string)
  | OutOfFuel.   (* not a Python exception: the loop bound of the model ran out;
                    [generate_purchases_terminates] shows it never happens *)

Inductive Result (A : Type) :=
  | Ok (a : A)
  | Raise (e : Exn).
Arguments Ok {A} a.
Arguments Raise {A} e.

(** The outside world.  [Faker.seed(seed)] fixes what the Faker instance
    will answer; the answers are the oracle [faker_profile] /
    [faker_date_time], indexed by the number of calls made so far.  In the
    same way [random_bits] is the entropy of the global [random] module
    and [wall_clock] what successive [datetime.datetime.now()] calls
    return. *)
Record World := {
  faker_profile : nat -> Dict;
  faker_date_time : nat -> datetime;
  faker_calls : nat;
  random_bits : nat -> Z;
  random_calls : nat;
  wall_clock : nat -> datetime;
  clock_reads : nat
}.

(** Computations that may consult the world and may raise. *)
Definition Eff (A : Type) : Type := World -> Result A * World.

Definition ret {A} (a : A) : Eff A := fun w => (Ok a, w).
Definition raise {A} (e : Exn) : Eff A := fun w => (Raise e, w).
Definition of_result {A} (r : Result A) : Eff A := fun w => (r, w).
Definition bind {A B} (m : Eff A) (f : A -> Eff B) : Eff B :=
  fun w => match m w with
           | (Ok a, w') => f a w'
           | (Raise e, w') => (Raise e, w')
           end.

Notation "x <- m ; k" := (bind m (fun x => k))
  (at level 20, m at level 100, k at level 200, only parsing).

(** Generators: computations that in addition yield messages. *)
Definition Gen (A : Type) : Type := World -> list AirbyteMessage * Result A * World.

Definition gret {A} (a : A) : Gen A := fun w => ([], Ok a, w).
Definition graise {A} (e : Exn) : Gen A := fun w => ([], Raise e, w).
Definition yield (m : AirbyteMessage) : Gen unit := fun w => ([m], Ok tt, w).
Definition lift {A} (m : Eff A) : Gen A := fun w => let (r, w') := m w in ([], r, w').
Definition gbind {A B} (m : Gen A) (f : A -> Gen B) : Gen B :=
  fun w => match m w with
           | (t, Ok a, w') =>
               match f a w' with (t', r, w'') => (t ++ t', r, w'') end
           | (t, Raise e, w') => (t, Raise e, w')
           end.

Notation "x <~ m ; k" := (gbind m (fun x => k))
  (at level 20, m at level 100, k at level 200, only parsing).
Notation "' pat <~ m ; k" := (gbind m (fun x => match x with pat => k end))
  (at level 20, pat pattern, m at level 100, k at level 200, only parsing).

(** ** The library calls *)

Definition tick_faker (w : World) : World :=
  {| faker_profile := faker_profile w; faker_date_time := faker_date_time w;
     faker_calls := S (faker_calls w);
     random_bits := random_bits w; random_calls := random_calls w;
     wall_clock := wall_clock w; clock_reads := clock_reads w |}.

Definition tick_random (w : World) : World :=
  {| faker_profile := faker_profile w; faker_date_time := faker_date_time w;
     faker_calls := faker_calls w;
     random_bits := random_bits w; random_calls := S (random_calls w);
     wall_clock := wall_clock w; clock_reads := clock_reads w |}.

Definition tick_clock (w : World) : World :=
  {| faker_profile := faker_profile w; faker_date_time := faker_date_time w;
     faker_calls := faker_calls w;
     random_bits := random_bits w; random_calls := random_calls w;
     wall_clock := wall_clock w; clock_reads := S (clock_reads w) |}.

(** [fake.profile()] *)
Definition fake_profile : Eff Dict :=
  fun w => (Ok (faker_profile w (faker_calls w)), tick_faker w).

(** [fake.date_time()] *)
Definition fake_date_time : Eff datetime :=
  fun w => (Ok (faker_date_time w (faker_calls w)), tick_faker w).

(** [datetime.datetime.now()] *)
Definition now : Eff datetime :=
  fun w => (Ok (wall_clock w (clock_reads w)), tick_clock w).

(** [random._randbelow(n)] for [n > 0]: a number in [0, n). *)
Definition randbelow (n : Z) : Eff Z :=
  fun w => (Ok (random_bits w (random_calls w) `mod` n), tick_random w).

(** The text of the [ValueError] of [random.randrange(start, stop)] on an
    empty range, as CPython up to 3.11 formats it:
    ["empty range for randrange() (%d, %d, %d)" % (istart, istop, width)]. *)
Definition empty_range (start stop : Z) : string :=
  "empty range for randrange() (" +:+ pretty start +:+ ", " +:+ pretty stop
  +:+ ", " +:+ pretty (stop - start) +:+ ")".

(** [random.randrange(start, stop)]: an element of [range(start, stop)],
    [ValueError] when the range is empty. *)
Definition randrange (start stop : Z) : Eff Z :=
  let width := stop - start in
  if 0 <? width then r <- randbelow width ; ret (start + r)
  else raise (ValueError (empty_range start stop)).

(** [random.randrange(stop)]: the form with one argument has an error
    text of its own, without the numbers. *)
Definition randrange1 (stop : Z) : Eff Z :=
  if 0 <? stop then randbelow stop
  else raise (ValueError "empty range for randrange()").

(** [d[key]] *)
Definition getitem (d : Dict) (key : string) : Eff value :=
  match d !! key with
  | Some v => ret v
  | None => raise (KeyError key)
  end.

(** [del d[key]] *)
Definition delitem (d : Dict) (key : string) : Eff Dict :=
  match d !! key with
  | Some _ => ret (delete key d)
  | None => raise (KeyError key)
  end.

(** [type(v).__name__] *)
Definition type_name (v : value) : string :=
  match v with
  | VNone => "NoneType"
  | VInt _ => "int"
  | VStr _ => "str"
  | VDateTime _ => "datetime.datetime"
  end.

(** The right operand of [end_date - start_date] must be a datetime. *)
Definition as_datetime (v : value) : Eff datetime :=
  match v with
  | VDateTime d => ret d
  | _ => raise (TypeError ("unsupported operand type(s) for -: 'datetime.datetime' and '"
                           +:+ type_name v +:+ "'"))
  end.

Definition of_optional (o : option datetime) : value :=
  match o with
  | Some d => VDateTime d
  | None => VNone
  end.

(** ** Module state *)

(** What executing the module body leaves behind that the functions use:
    the default of [random_date_in_range]'s [end_date] parameter, which
    Python evaluates when the [def] statement runs. *)
Record ModuleState := { end_date_default : datetime }.

Definition import_source : Eff ModuleState :=
  t <- now ; ret {| end_date_default := t |}.

Section Source.

(** [datetime.isoformat] of the standard library. *)
Variable isoformat : datetime -> string.

(** The contents of the data file [products.json], which
    [generate_products] reads. *)
Variable products_json : list Dict.

Variable this : ModuleState.

(** ** The record generators *)

Definition generate_products : list Dict := products_json.

Definition random_date_in_range (start_date : datetime) (end_date : option datetime)
  : Eff datetime :=
  let end_date := default (end_date_default this) end_date in
  let days_between_dates := timedelta_days end_date start_date in
  random_number_of_days <- randrange1 days_between_dates ;
  ret (add_days start_date random_number_of_days).

Definition generate_user (user_id : Z) : Eff Dict :=
  profile <- fake_profile ;
  profile <- delitem profile "birthdate" ;
  time_a <- fake_date_time ;
  time_b <- fake_date_time ;
  let metadata : Dict :=
    <["id" := VInt (user_id + 1)]>
    (<["created_at" := VDateTime (if time_a <=? time_b then time_a else time_b)]>
    (<["updated_at" := VDateTime (if time_a >? time_b then time_a else time_b)]> ∅)) in
  ret (metadata ∪ profile).

(** The body of the [while] loop of [generate_purchases] up to the
    construction of the purchase; [i] is the loop counter. *)
Definition next_purchase (user : Dict) (purchases_count total_products i : Z)
  : Eff Dict :=
  let id := purchases_count + i + 1 in
  product_id <- randrange 1 total_products ;
  created_at <- getitem user "created_at" ;
  start_date <- as_datetime created_at ;
  added <- random_date_in_range start_date None ;
  let added_to_cart_at := Some added in
  purchased_at <-
    match added_to_cart_at with
    | Some a =>
        r <- randrange 1 100 ;
        if r <=? 70 then d <- random_date_in_range a None ; ret (Some d)
        else ret None
    | None => ret None
    end ;
  returned_at <-
    match purchased_at with
    | Some p =>
        r <- randrange 1 100 ;
        if r <=? 15 then d <- random_date_in_range p None ; ret (Some d)
        else ret None
    | None => ret None
    end ;
  user_id <- getitem user "id" ;
  ret (<["id" := VInt id]>
      (<["product_id" := VInt product_id]>
      (<["user_id" := user_id]>
      (<["added_to_cart_at" := of_optional added_to_cart_at]>
      (<["purchased_at" := of_optional purchased_at]>
      (<["returned_at" := of_optional returned_at]> ∅)))))).

(** The [while] loop of [generate_purchases].  [fuel] bounds the number of
    iterations; the budget loses at least one unit per iteration, so
    [Z.to_nat purchase_percent_remaining] is enough. *)
Fixpoint purchases_loop (fuel : nat) (user : Dict) (purchases_count total_products : Z)
    (purchase_percent_remaining i : Z) (purchases : list Dict) : Eff (list Dict) :=
  if purchase_percent_remaining >? 0 then
    match fuel with
    | O => raise OutOfFuel
    | S fuel' =>
        purchase <- next_purchase user purchases_count total_products i ;
        r <- randrange 1 100 ;
        purchases_loop fuel' user purchases_count total_products
          (purchase_percent_remaining - r) (i + 1) (purchases ++ [purchase])
    end
  else ret purchases.

Definition generate_purchases (user : Dict) (purchases_count : Z) : Eff (list Dict) :=
  let purchases : list Dict := [] in
  let purchase_percent_remaining := 80 in
  let total_products := Z.of_nat (length generate_products) in
  r <- randrange 1 100 ;
  let purchase_percent_remaining := purchase_percent_remaining - r in
  purchases_loop (Z.to_nat purchase_percent_remaining) user purchases_count total_products
    purchase_percent_remaining 0 purchases.

(** ** The sync driver *)

Definition iso_value (v : value) : value :=
  match v with
  | VDateTime d => VStr (isoformat d)
  | _ => v
  end.

(** [dict = data.copy()] followed by the loop that replaces the datetimes
    by their ISO form. *)
Definition iso_dict (data : Dict) : Dict := iso_value <$> data.

(** [emitted_at] is [int(datetime.datetime.now().timestamp()) * 1000]: the
    whole seconds of the clock reading, in milliseconds.  [timestamp()] is
    a float; the quotient below is its integer part as long as the float
    holds the microseconds of the reading exactly, which is so for the
    clock readings of the next centuries. *)
Definition generate_record(stream : ConfiguredAirbyteStream) (data : Dict)
  : Eff AirbyteMessage :=
  let dict := iso_dict data in
  t <- now ;
  ret (RECORD (stream_name stream) dict (Z.quot t 1000000 * 1000)).

(** [generate_state] stores [data] in the caller's dictionary and wraps
    that dictionary in a message: the updated dictionary is returned next
    to the message. *)
Definition generate_state (state : State) (stream : ConfiguredAirbyteStream)
    (data : Checkpoint) : State * AirbyteMessage :=
  let state := <[stream_name stream := data]> state in
  (state, STATE state).

Definition get_stream_cursor (state : State) (stream : string) : Result Z :=
  match state !! stream with
  | Some (CkUsers cursor _) => Ok (default 0 cursor)
  | Some _ => Raise (KeyError "cursor")
  | None => Ok 0
  end.

(** [state["Purchases"]["purchases_count"] if "Purchases" in state else 0] *)
Definition checkpointed_purchases_count (state : State) : Result Z :=
  match state !! "Purchases" with
  | Some (CkPurchases n) => Ok n
  | Some _ => Raise (KeyError "purchases_count")
  | None => Ok 0
  end.

(** The variables of [read] that the loop over the users updates. *)
Record Locals := {
  l_state : State;
  l_total_records : Z;
  l_records_in_sync : Z;
  l_records_in_page : Z;
  l_purchases_count : Z
}.

(** [for p in purchases: yield generate_record(purchases_stream, p);
    purchases_count += 1] *)
Fixpoint emit_purchases (purchases_stream : ConfiguredAirbyteStream)
    (purchases : list Dict) (purchases_count : Z) : Gen Z :=
  match purchases with
  | [] => gret purchases_count
  | p :: purchases' =>
      r <~ lift (generate_record purchases_stream p) ;
      _ <~ yield r ;
      emit_purchases purchases_stream purchases' (purchases_count + 1)
  end.

(** [for p in products: yield generate_record(stream, p)] *)
Fixpoint emit_products (stream : ConfiguredAirbyteStream) (products : list Dict)
  : Gen unit :=
  match products with
  | [] => gret tt
  | p :: products' =>
      r <~ lift (generate_record stream p) ;
      _ <~ yield r ;
      emit_products stream products'
  end.

Section Read.

Variables (count : Z) (seed : option Z) (records_per_sync records_per_slice : Z).

(** [to_generate_purchases] and [purchases_stream] are set by the same
    branch, so the flag is [True] exactly when the stream is not [None]:
    one optional value stands for the two. *)
Variable purchases_stream : option ConfiguredAirbyteStream.

(** The body of [for i in range(cursor, count)], up to the test for
    [break]. *)
Definition users_step (stream : ConfiguredAirbyteStream) (i : Z) (l : Locals)
  : Gen Locals :=
  user <~ lift (generate_user i) ;
  r <~ lift (generate_record stream user) ;
  _ <~ yield r ;
  let total_records := l_total_records l + 1 in
  let records_in_sync := l_records_in_sync l + 1 in
  let records_in_page := l_records_in_page l + 1 in
  purchases_count <~
    match purchases_stream with
    | Some ps =>
        purchases <~ lift (generate_purchases user (l_purchases_count l)) ;
        emit_purchases ps purchases (l_purchases_count l)
    | None => gret (l_purchases_count l)
    end ;
  if records_in_page =? records_per_slice then
    let (state, msg) :=
      generate_state (l_state l) stream (CkUsers (Some total_records) seed) in
    _ <~ yield msg ;
    gret {| l_state := state; l_total_records := total_records;
            l_records_in_sync := records_in_sync; l_records_in_page := 0;
            l_purchases_count := purchases_count |}
  else
    gret {| l_state := l_state l; l_total_records := total_records;
            l_records_in_sync := records_in_sync;
            l_records_in_page := records_in_page;
            l_purchases_count := purchases_count |}.

(** [for i in range(cursor, count)] with [n] indices left, the next one
    being [i]. *)
Fixpoint users_loop (stream : ConfiguredAirbyteStream) (n : nat) (i : Z) (l : Locals)
  : Gen Locals :=
  match n with
  | O => gret l
  | S n' =>
      l <~ users_step stream i l ;
      if l_records_in_sync l =? records_per_sync then gret l
      else users_loop stream n' (i + 1) l
  end.

(** One iteration of the last [for stream in catalog.streams]. *)
Definition read_stream (stream : ConfiguredAirbyteStream) (state : State)
    (purchases_count : Z) : Gen (State * Z) :=
  if decide (stream_name stream = "Users") then
    cursor <~ lift (of_result (get_stream_cursor state (stream_name stream))) ;
    l <~ users_loop stream (Z.to_nat (count - cursor)) cursor
           {| l_state := state; l_total_records := cursor;
              l_records_in_sync := 0; l_records_in_page := 0;
              l_purchases_count := purchases_count |} ;
    let (state, msg) :=
      generate_state (l_state l) stream (CkUsers (Some (l_total_records l)) seed) in
    _ <~ yield msg ;
    match purchases_stream with
    | Some ps =>
        let (state, msg) :=
          generate_state state ps (CkPurchases (l_purchases_count l)) in
        _ <~ yield msg ;
        gret (state, l_purchases_count l)
    | None => gret (state, l_purchases_count l)
    end
  else if decide (stream_name stream = "Products") then
    let products := generate_products in
    _ <~ emit_products stream products ;
    let (state, msg) :=
      generate_state state stream (CkProducts (Z.of_nat (length products))) in
    _ <~ yield msg ;
    gret (state, purchases_count)
  else if decide (stream_name stream = "Purchases") then
    gret (state, purchases_count)
  else graise (ValueError (stream_name stream)).

Fixpoint read_streams (streams : list ConfiguredAirbyteStream) (state : State)
    (purchases_count : Z) : Gen (State * Z) :=
  match streams with
  | [] => gret (state, purchases_count)
  | stream :: streams' =>
      '(state, purchases_count) <~ read_stream stream state purchases_count ;
      read_streams streams' state purchases_count
  end.

End Read.

Definition is_stream (n : string) (s : ConfiguredAirbyteStream) : bool :=
  bool_decide (stream_name s = n).

(** [read]: the messages the generator yields, how it ends, and, when it
    returns, the caller's state dictionary as the run left it. *)
Definition read (config : gmap string Z) (catalog : list ConfiguredAirbyteStream)
    (state : State) : Gen State :=
  let count := default 0 (config !! "count") in
  let seed := config !! "seed" in
  let records_per_sync := default 500 (config !! "records_per_sync") in
  let records_per_slice := default 100 (config !! "records_per_slice") in
  purchases_count <~ lift (of_result (checkpointed_purchases_count state)) ;
  let to_generate_users := existsb (is_stream "Users") catalog in
  let purchases_stream := last (filter (fun s => stream_name s = "Purchases") catalog) in
  let to_generate_purchases := bool_decide (is_Some purchases_stream) in
  if to_generate_purchases && negb to_generate_users then
    graise (ValueError "Purchases stream cannot be enabled without Users stream")
  else
    '(state, _) <~ read_streams count seed records_per_sync records_per_slice
                     purchases_stream catalog state purchases_count ;
    gret state.

End Source.

(** ** Vocabulary of the statements *)

(** The three timestamps of a purchase form a chain: one that is [None]
    leaves the later ones [None]. *)
Definition causal_chain (purchase : Dict) : Prop :=
  (purchase !! "added_to_cart_at" = Some VNone -> purchase !! "purchased_at" = Some VNone) /\
  (purchase !! "purchased_at" = Some VNone -> purchase !! "returned_at" = Some VNone).

(** [budget_run b draws]: started with the budget [b], the loop of
    [generate_purchases] runs one iteration per element of [draws], which
    are the numbers it subtracts from the budget at the end of each
    iteration, and then stops. *)
Fixpoint budget_run (budget : Z) (draws : list Z) : Prop :=
  match draws with
  | [] => budget <= 0
  | r :: draws' => 0 < budget /\ 1 <= r <= 99 /\ budget_run (budget - r) draws'
  end.

(** [purchases_run this user purchases_count total_products budget i w ps
    draws w']: entered with the budget [budget], the counter [i] and the
    world [w], the [while] loop of [generate_purchases] generates the
    purchases [ps], one per iteration; after each of them it subtracts from
    the budget the number that [random.randrange(1, 100)] returns at that
    moment, and [draws] are these numbers; it is left, in the world [w'], at
    the first budget that is not positive. *)
Inductive purchases_run (this : ModuleState) (user : Dict)
    (purchases_count total_products : Z)
  : Z -> Z -> World -> list Dict -> list Z -> World -> Prop :=
  | purchases_run_stop budget i w :
      budget <= 0 ->
      purchases_run this user purchases_count total_products budget i w [] [] w
  | purchases_run_step budget i w purchase w1 r w2 ps draws w' :
      0 < budget ->
      next_purchase this user purchases_count total_products i w = (Ok purchase, w1) ->
      randrange 1 100 w1 = (Ok r, w2) ->
      purchases_run this user purchases_count total_products (budget - r) (i + 1) w2
        ps draws w' ->
      purchases_run this user purchases_count total_products budget i w
        (purchase :: ps) (r :: draws) w'.

(** Computations that raise Python exceptions only. *)
Definition python_only {A} (m : Eff A) : Prop :=
  forall w w', m w <> (Raise OutOfFuel, w').

(** The data of the records of one stream, in the order of emission. *)
Definition records_of (stream_ : string) (trace : list AirbyteMessage) : list Dict :=
  omap (fun m => match m with
                 | RECORD s data _ => if decide (s = stream_) then Some data else None
                 | STATE _ => None
                 end) trace.

(** The state messages, in the order of emission. *)
Definition states_of (trace : list AirbyteMessage) : list State :=
  omap (fun m => match m with
                 | RECORD _ _ _ => None
                 | STATE st => Some st
                 end) trace.

(** The [id] fields are [a], [a + 1], [a + 2], ... *)
Definition ids_from (a : Z) (l : list Dict) : Prop :=
  forall (i : nat) d, l !! i = Some d -> d !! "id" = Some (VInt (a + Z.of_nat i)).

(** [m] is the record message of [stream_] for [data]. *)
Definition record_for (isoformat : datetime -> string) (stream_ : string)
    (data : Dict) (m : AirbyteMessage) : Prop :=
  exists t, m = RECORD stream_ (iso_dict isoformat data) t.

(** Every state message in the trace shows, as the [Users] cursor, [n]
    plus the number of user records that precede it, next to [seed]. *)
Fixpoint cursors_track (seed : option Z) (n : Z) (trace : list AirbyteMessage) : Prop :=
  match trace with
  | [] => True
  | RECORD s _ _ :: trace' =>
      cursors_track seed (if decide (s = "Users") then n + 1 else n) trace'
  | STATE st :: trace' =>
      st !! "Users" = Some (CkUsers (Some n) seed) /\ cursors_track seed n trace'
  end.

(** No user record is emitted once [slice] user records have gone out
    since the last state message; [page] is the number that have gone out
    before the trace starts. *)
Fixpoint paged (slice page : Z) (trace : list AirbyteMessage) : Prop :=
  match trace with
  | [] => True
  | RECORD s _ _ :: trace' =>
      if decide (s = "Users") then page < slice /\ paged slice (page + 1) trace'
      else paged slice page trace'
  | STATE _ :: trace' => paged slice 0 trace'
  end.

Fixpoint page_after (page : Z) (trace : list AirbyteMessage) : Z :=
  match trace with
  | [] => page
  | RECORD s _ _ :: trace' =>
      page_after (if decide (s = "Users") then page + 1 else page) trace'
  | STATE _ :: trace' => page_after 0 trace'
  end.

(** What a run of the loop over the users, started at index [i] with the
    variables [l] and [n] indices to go, has emitted and how it has left
    the variables. *)
Definition users_loop_post (seed : option Z) (records_per_slice : Z)
    (purchases_stream : option ConfiguredAirbyteStream)
    (n : nat) (i : Z) (l : Locals) (trace : list AirbyteMessage) (r : Result Locals) : Prop :=
  let users := records_of "Users" trace in
  let purchases := records_of "Purchases" trace in
  ids_from (i + 1) users /\
  (length users <= n)%nat /\
  ids_from (l_purchases_count l + 1) purchases /\
  (purchases_stream = None -> purchases = []) /\
  records_of "Products" trace = [] /\
  cursors_track seed (l_total_records l) trace /\
  (0 <= l_records_in_page l < records_per_slice ->
   paged records_per_slice (l_records_in_page l) trace) /\
  match r with
  | Ok l' =>
      l_total_records l' = l_total_records l + Z.of_nat (length users) /\
      l_purchases_count l' = l_purchases_count l + Z.of_nat (length purchases) /\
      (forall k, k <> "Users" -> l_state l' !! k = l_state l !! k) /\
      (0 <= l_records_in_page l < records_per_slice ->
       l_records_in_page l' = page_after (l_records_in_page l) trace /\
       0 <= l_records_in_page l' < records_per_slice)
  | Raise _ => True
  end.

(** What a stretch of [read] that starts with the state dictionary [state]
    and the counter [purchases_count] has emitted, and how it has left the
    two. *)
Definition run_post (count : Z) (purchases_stream : option ConfiguredAirbyteStream)
    (records_per_slice : Z) (state : State) (purchases_count : Z)
    (trace : list AirbyteMessage) (r : Result (State * Z)) : Prop :=
  let users := records_of "Users" trace in
  let purchases := records_of "Purchases" trace in
  ids_from (purchases_count + 1) purchases /\
  (purchases_stream = None -> purchases = []) /\
  (forall c, get_stream_cursor state "Users" = Ok c ->
             ids_from (c + 1) users /\ c + Z.of_nat (length users) <= Z.max c count) /\
  (0 < records_per_slice -> paged records_per_slice 0 trace) /\
  match r with
  | Ok (state', purchases_count') =>
      purchases_count' = purchases_count + Z.of_nat (length purchases) /\
      (forall c, get_stream_cursor state "Users" = Ok c ->
                 get_stream_cursor state' "Users" = Ok (c + Z.of_nat (length users))) /\
      (checkpointed_purchases_count state = Ok purchases_count ->
       checkpointed_purchases_count state' = Ok purchases_count') /\
      page_after 0 trace = 0
  | Raise _ => True
  end.

(** No record of [Products] comes before a record of [Users] or of
    [Purchases]. *)
Definition users_before_products (trace : list AirbyteMessage) : Prop :=
  forall (i j : nat) d t s d' t',
    trace !! i = Some (RECORD "Products" d t) ->
    trace !! j = Some (RECORD s d' t') ->
    s = "Users" \/ s = "Purchases" ->
    (j < i)%nat.

(** In the catalog every [Users] entry comes before every [Products] entry. *)
Definition users_listed_first (catalog : list ConfiguredAirbyteStream) : Prop :=
  forall (i j : nat) s s',
    catalog !! i = Some s -> catalog !! j = Some s' ->
    stream_name s = "Products" -> stream_name s' = "Users" ->
    (j < i)%nat.





(** Sample inputs, used to run the definitions. *)
Definition sample_profile : Dict :=
  <["birthdate" := VStr "1990-05-17"]> (<["name" := VStr "Ada"]> (<["id" := VInt 0]> ∅)).

Definition sample_world : World :=
  {| faker_profile := fun _ => sample_profile;
     faker_date_time := fun n => 1000000000000000 - 86400000000 * Z.of_nat n;
     faker_calls := 0;
     random_bits := fun n => 7 * Z.of_nat n + 3;
     random_calls := 0;
     wall_clock := fun n => 1700000000000000 + 1000000 * Z.of_nat n;
     clock_reads := 0 |}.

Definition sample_module : ModuleState := {| end_date_default := 1700000000000000 |}.

Definition sample_products : list Dict :=
  [ <["id" := VInt 1]> ∅; <["id" := VInt 2]> ∅; <["id" := VInt 3]> ∅ ].

Definition sample_user : Dict :=
  <["id" := VInt 1]> (<["created_at" := VDateTime 999827200000000]>
                     (<["updated_at" := VDateTime 999913600000000]> ∅)).

(** What [generate_purchases] returns in the sample world. *)
Definition sample_purchases : list Dict :=
  Eval vm_compute in
    match (generate_purchases sample_products sample_module sample_user 10 sample_world).1 with
    | Ok ps => ps
    | Raise _ => []
    end.

Definition sample_isoformat (d : datetime) : string := "T".

Definition users_stream : ConfiguredAirbyteStream := {| stream := {| name := "Users" |} |}.
Definition purchases_stream_ : ConfiguredAirbyteStream :=
  {| stream := {| name := "Purchases" |} |}.
Definition products_stream : ConfiguredAirbyteStream :=
  {| stream := {| name := "Products" |} |}.

Definition sample_config : gmap string Z :=
  <["count" := 5]> (<["records_per_sync" := 5]> (<["records_per_slice" := 2]> ∅)).

(** A state left by a run that emitted three users and seven purchases. *)
Definition resumed_state : State :=
  <["Users" := CkUsers (Some 3) None]> (<["Purchases" := CkPurchases 7]> ∅).

Definition resumed_run : list AirbyteMessage * Result State * World :=
  read sample_isoformat sample_products sample_module sample_config
    [users_stream; purchases_stream_] resumed_state sample_world.

Definition resumed_trace : list AirbyteMessage :=
  Eval vm_compute in resumed_run.1.1.

(** The catalog that lists [Products] before [Users], read from scratch. *)
Definition products_first_run : list AirbyteMessage * Result State * World :=
  read sample_isoformat sample_products sample_module sample_config
    [products_stream; users_stream] ∅ sample_world.

Definition products_first_trace : list AirbyteMessage :=
  Eval vm_compute in products_first_run.1.1.

(** The run of the end-to-end example: five users, at most five per sync,
    slices of two, [Users] and [Purchases] enabled, no prior state. *)
Definition example_run : list AirbyteMessage * Result State * World :=
  read sample_isoformat sample_products sample_module sample_config
    [users_stream; purchases_stream_] ∅ sample_world.

Definition example_trace : list AirbyteMessage :=
  Eval vm_compute in example_run.1.1.

Definition example_state : State :=
  Eval vm_compute in
    match example_run.1.2 with
    | Ok state => state
    | Raise _ => ∅
    end.


(** ** Vocabulary of the further properties *)

(** The timestamps of a purchase follow each other in time, starting from
    the creation of the user and ending before [end_]; the first one is
    always there. *)
Definition timestamps_ordered (created_at end_ : datetime) (purchase : Dict) : Prop :=
  exists a,
    purchase !! "added_to_cart_at" = Some (VDateTime a) /\ created_at <= a < end_ /\
    ((purchase !! "purchased_at" = Some VNone /\ purchase !! "returned_at" = Some VNone) \/
     exists b,
       purchase !! "purchased_at" = Some (VDateTime b) /\ a <= b < end_ /\
       (purchase !! "returned_at" = Some VNone \/
        exists c, purchase !! "returned_at" = Some (VDateTime c) /\ b <= c < end_)).

(** A user created half a day before the module was imported. *)
Definition young_user : Dict :=
  <["id" := VInt 1]> (<["created_at" := VDateTime 1699956800000000]> ∅).

Definition sample_generated_user : Dict :=
  Eval vm_compute in
    match (generate_user 4 sample_world).1 with
    | Ok user => user
    | Raise _ => ∅
    end.

(** *** The runs of [read], as relations

    The loops of [read] seen from outside: which traces and results they
    can produce, whatever the world.  The properties below are proved by
    induction over these relations. *)

Section Runs.

Variables (isoformat : datetime -> string) (products : list Dict) (this : ModuleState).
Variables (count : Z) (seed : option Z) (records_per_sync records_per_slice : Z).
Variable purchases_stream : option ConfiguredAirbyteStream.

(** The state once the slice that the next user completes is checkpointed. *)
Definition checkpointed (l : Locals) : State :=
  <["Users" := CkUsers (Some (l_total_records l + 1)) seed]> (l_state l).

(** The variables after an iteration that emitted [purchases] purchases. *)
Definition locals_after (l : Locals) (purchases : nat) : Locals :=
  let full := l_records_in_page l + 1 =? records_per_slice in
  {| l_state := if full then checkpointed l else l_state l;
     l_total_records := l_total_records l + 1;
     l_records_in_sync := l_records_in_sync l + 1;
     l_records_in_page := if full then 0 else l_records_in_page l + 1;
     l_purchases_count := l_purchases_count l + Z.of_nat purchases |}.

Definition slice_checkpoint (l : Locals) : list AirbyteMessage :=
  if l_records_in_page l + 1 =? records_per_slice then [STATE (checkpointed l)] else [].

(** The purchases generated next to [user]. *)
Definition purchases_of (user : Dict) (l : Locals) (purchases : list Dict) : Prop :=
  match purchases_stream with
  | Some _ =>
      exists w w',
        generate_purchases products this user (l_purchases_count l) w = (Ok purchases, w')
  | None => purchases = []
  end.

(** [users_run n i l trace r]: the loop over the users, with [n] indices
    left from [i] on and the variables [l], can emit [trace] and end with
    [r]. *)
Inductive users_run : nat -> Z -> Locals -> list AirbyteMessage -> Result Locals -> Prop :=
  | users_run_end i l : users_run 0 i l [] (Ok l)
  | users_run_no_user n i l w e w' :
      generate_user i w = (Raise e, w') ->
      users_run (S n) i l [] (Raise e)
  | users_run_no_purchases n i l w user w1 t w2 e w3 :
      generate_user i w = (Ok user, w1) ->
      is_Some purchases_stream ->
      generate_purchases products this user (l_purchases_count l) w2 = (Raise e, w3) ->
      users_run (S n) i l [RECORD "Users" (iso_dict isoformat user) t] (Raise e)
  | users_run_break n i l w user w1 t purchases pmsgs :
      generate_user i w = (Ok user, w1) ->
      purchases_of user l purchases ->
      Forall2 (record_for isoformat "Purchases") purchases pmsgs ->
      l_records_in_sync l + 1 = records_per_sync ->
      users_run (S n) i l
        (RECORD "Users" (iso_dict isoformat user) t :: pmsgs ++ slice_checkpoint l)
        (Ok (locals_after l (length purchases)))
  | users_run_next n i l w user w1 t purchases pmsgs trace r :
      generate_user i w = (Ok user, w1) ->
      purchases_of user l purchases ->
      Forall2 (record_for isoformat "Purchases") purchases pmsgs ->
      l_records_in_sync l + 1 <> records_per_sync ->
      users_run n (i + 1) (locals_after l (length purchases)) trace r ->
      users_run (S n) i l
        (RECORD "Users" (iso_dict isoformat user) t :: pmsgs ++ slice_checkpoint l ++ trace)
        r.

(** The state after the checkpoints that end the [Users] branch. *)
Definition final_users_state (l : Locals) : State :=
  <["Users" := CkUsers (Some (l_total_records l)) seed]> (l_state l).

Definition final_state (l : Locals) : State :=
  match purchases_stream with
  | Some _ => <["Purchases" := CkPurchases (l_purchases_count l)]> (final_users_state l)
  | None => final_users_state l
  end.

Definition final_checkpoints (l : Locals) : list AirbyteMessage :=
  STATE (final_users_state l)
  :: match purchases_stream with
     | Some _ => [STATE (final_state l)]
     | None => []
     end.

(** [stream_run s state purchases_count trace r]: what the iteration of
    [for stream in catalog.streams] for a stream called [s] can emit and
    how it can end. *)
Inductive stream_run (s : string) (state : State) (purchases_count : Z)
  : list AirbyteMessage -> Result (State * Z) -> Prop :=
  | stream_run_no_cursor e :
      s = "Users" -> get_stream_cursor state "Users" = Raise e ->
      stream_run s state purchases_count [] (Raise e)
  | stream_run_users_raise c trace e :
      s = "Users" -> get_stream_cursor state "Users" = Ok c ->
      users_run (Z.to_nat (count - c)) c
        {| l_state := state; l_total_records := c; l_records_in_sync := 0;
           l_records_in_page := 0; l_purchases_count := purchases_count |}
        trace (Raise e) ->
      stream_run s state purchases_count trace (Raise e)
  | stream_run_users c trace l :
      s = "Users" -> get_stream_cursor state "Users" = Ok c ->
      users_run (Z.to_nat (count - c)) c
        {| l_state := state; l_total_records := c; l_records_in_sync := 0;
           l_records_in_page := 0; l_purchases_count := purchases_count |}
        trace (Ok l) ->
      stream_run s state purchases_count (trace ++ final_checkpoints l)
        (Ok (final_state l, l_purchases_count l))
  | stream_run_products msgs :
      s = "Products" ->
      Forall2 (record_for isoformat "Products") products msgs ->
      stream_run s state purchases_count
        (msgs ++ [STATE (<["Products" := CkProducts (Z.of_nat (length products))]> state)])
        (Ok (<["Products" := CkProducts (Z.of_nat (length products))]> state,
             purchases_count))
  | stream_run_purchases :
      s = "Purchases" ->
      stream_run s state purchases_count [] (Ok (state, purchases_count))
  | stream_run_unknown :
      s <> "Users" -> s <> "Products" -> s <> "Purchases" ->
      stream_run s state purchases_count [] (Raise (ValueError s)).

(** [catalog_run streams state purchases_count trace r]: the same for the
    whole loop over the catalog. *)
Inductive catalog_run
  : list ConfiguredAirbyteStream -> State -> Z -> list AirbyteMessage ->
    Result (State * Z) -> Prop :=
  | catalog_run_end state purchases_count :
      catalog_run [] state purchases_count [] (Ok (state, purchases_count))
  | catalog_run_raise s streams state purchases_count trace e :
      stream_run (stream_name s) state purchases_count trace (Raise e) ->
      catalog_run (s :: streams) state purchases_count trace (Raise e)
  | catalog_run_next s streams state purchases_count t1 state1 purchases_count1 t2 r :
      stream_run (stream_name s) state purchases_count t1 (Ok (state1, purchases_count1)) ->
      catalog_run streams state1 purchases_count1 t2 r ->
      catalog_run (s :: streams) state purchases_count (t1 ++ t2) r.

End Runs.

(** The exceptions [read] can end with. *)
Definition read_exception (products : list Dict) (catalog : list ConfiguredAirbyteStream)
    (e : Exn) : Prop :=
  e = KeyError "purchases_count" \/
  e = ValueError "Purchases stream cannot be enabled without Users stream" \/
  e = KeyError "cursor" \/
  e = KeyError "birthdate" \/
  e = ValueError "empty range for randrange()" \/
  ((length products <= 1)%nat /\
   e = ValueError (empty_range 1 (Z.of_nat (length products)))) \/
  exists s, s ∈ catalog /\ e = ValueError (stream_name s) /\
            stream_name s <> "Users" /\ stream_name s <> "Products" /\
            stream_name s <> "Purchases".

(** A stream name [read] has no branch for. *)
Definition unknown_stream (s : ConfiguredAirbyteStream) : Prop :=
  stream_name s <> "Users" /\ stream_name s <> "Products" /\ stream_name s <> "Purchases".

(** Every purchase record refers to the user of the nearest user record
    before it; [owner] is the data of the last user record emitted before
    the trace starts. *)
Fixpoint owned (owner : option Dict) (trace : list AirbyteMessage) : Prop :=
  match trace with
  | [] => True
  | RECORD s data _ :: trace' =>
      if decide (s = "Users") then owned (Some data) trace'
      else (s = "Purchases" ->
            exists user, owner = Some user /\ is_Some (user !! "id") /\
                         data !! "user_id" = user !! "id") /\
           owned owner trace'
  | STATE _ :: trace' => owned owner trace'
  end.

Fixpoint owner_after (owner : option Dict) (trace : list AirbyteMessage) : option Dict :=
  match trace with
  | [] => owner
  | RECORD s data _ :: trace' =>
      owner_after (if decide (s = "Users") then Some data else owner) trace'
  | STATE _ :: trace' => owner_after owner trace'
  end.

(** [b] holds a checkpoint for every stream [a] holds one for, and the
    same one for every stream other than the three of this source. *)
Definition keeps (a b : State) : Prop :=
  forall k,
    (is_Some (a !! k) -> is_Some (b !! k)) /\
    (k <> "Users" -> k <> "Purchases" -> k <> "Products" -> b !! k = a !! k).

(** Each state of the list keeps the one before it, the first one keeps
    [prev]. *)
Fixpoint growing (prev : State) (states : list State) : Prop :=
  match states with
  | [] => True
  | st :: states' => keeps prev st /\ growing st states'
  end.

(** [st] is [prev] after [generate_state] has stored in it a checkpoint
    of one of the three streams: for [Users] a cursor and the seed, for
    [Purchases] a counter, for [Products] the number of products. *)
Definition stores (seed : option Z) (products : list Dict) (prev st : State) : Prop :=
  (exists cursor, st = <["Users" := CkUsers (Some cursor) seed]> prev) \/
  (exists purchases_count, st = <["Purchases" := CkPurchases purchases_count]> prev) \/
  st = <["Products" := CkProducts (Z.of_nat (length products))]> prev.

(** Each state of the list is the one before it with one more checkpoint
    stored, the first one is [prev] with a checkpoint stored. *)
Fixpoint storing (seed : option Z) (products : list Dict) (prev : State)
    (states : list State) : Prop :=
  match states with
  | [] => True
  | st :: states' => stores seed products prev st /\ storing seed products st states'
  end.


(** The number of users one pass over the [Users] stream emits when
    [remaining] are left to generate. *)
Definition users_per_pass (records_per_sync remaining : Z) : Z :=
  if decide (0 < records_per_sync <= remaining) then records_per_sync else remaining.

(** A [products.json] with a single product, and a run with it. *)
Definition one_product : list Dict := [ <["id" := VInt 1]> ∅ ].

Definition one_product_run : list AirbyteMessage * Result State * World :=
  read sample_isoformat one_product sample_module sample_config
    [users_stream; purchases_stream_] ∅ sample_world.

(** A stream this source does not have, listed after [Users]. *)
Definition orders_stream : ConfiguredAirbyteStream := {| stream := {| name := "Orders" |} |}.

Definition orders_run : list AirbyteMessage * Result State * World :=
  read sample_isoformat sample_products sample_module sample_config
    [users_stream; orders_stream] resumed_state sample_world.

Definition resumed_state_after : State :=
  Eval vm_compute in
    match resumed_run.1.2 with
    | Ok state => state
    | Raise _ => ∅
    end.

(** A second run, resumed from the state the example run left, with more
    users to generate. *)
Definition more_users_config : gmap string Z :=
  <["count" := 8]> (<["records_per_sync" := 2]> ∅).

Definition second_run : list AirbyteMessage * Result State * World :=
  read sample_isoformat sample_products sample_module more_users_config
    [users_stream] example_state sample_world.

(** A purchase record of the third user of the example run. *)
Definition example_purchase : Dict :=
  Eval vm_compute in
    match example_trace !! 6%nat with
    | Some (RECORD _ data _) => data
    | _ => ∅
    end.

(** The example run once more, from the state it left. *)
Definition finished_run : list AirbyteMessage * Result State * World :=
  read sample_isoformat sample_products sample_module sample_config
    [users_stream; purchases_stream_] example_state sample_world.

(** A catalog with the stream [Products] alone. *)
Definition products_run : list AirbyteMessage * Result State * World :=
  read sample_isoformat sample_products sample_module sample_config
    [products_stream] resumed_state sample_world.

Definition products_trace : list AirbyteMessage :=
  Eval vm_compute in products_run.1.1.

Definition products_state : State :=
  Eval vm_compute in
    match products_run.1.2 with
    | Ok state => state
    | Raise _ => ∅
    end.

(** ** Vocabulary of the checkpoints and of the order of the streams *)



(** The catalog in the order in which [discover] lists the streams, read
    with no prior state. *)
Definition discovered_run : list AirbyteMessage * Result State * World :=
  read sample_isoformat sample_products sample_module sample_config
    [users_stream; products_stream; purchases_stream_] ∅ sample_world.

Definition discovered_trace : list AirbyteMessage :=
  Eval vm_compute in discovered_run.1.1.

Definition discovered_state : State :=
  Eval vm_compute in
    match discovered_run.1.2 with
    | Ok state => state
    | Raise _ => ∅
    end.

(** What serving the entry [s] of the catalog emits: for [Users], user
    and purchase records with state messages, no product record; for
    [Products], the products in their order and then one state message;
    nothing for any other name. *)
Definition served (isoformat : datetime -> string) (products : list Dict)
    (s : ConfiguredAirbyteStream) (segment : list AirbyteMessage) : Prop :=
  if decide (stream_name s = "Users") then records_of "Products" segment = []
  else if decide (stream_name s = "Products") then
    exists msgs st,
      segment = msgs ++ [STATE st] /\
      Forall2 (record_for isoformat "Products") products msgs
  else segment = [].

(** A stretch of the run in which only [Products] streams write: it holds
    no user and no purchase record, and each of its state messages is
    [before], the state the stretch starts with, with the [Products]
    checkpoint: no [Users] or [Purchases] checkpoint is written in it. *)
Definition products_phase (products : list Dict) (before : State)
    (trace : list AirbyteMessage) : Prop :=
  records_of "Users" trace = [] /\
  records_of "Purchases" trace = [] /\
  Forall (fun st => st = <["Products" := CkProducts (Z.of_nat (length products))]> before)
    (states_of trace).

(** * Properties *)

(** ** Reasoning about effects *)

Lemma bind_inv {A B} (m : Eff A) (f : A -> Eff B) w r w' :
  bind m f w = (r, w') ->
  (exists e, m w = (Raise e, w') /\ r = Raise e) \/
  (exists a w1, m w = (Ok a, w1) /\ f a w1 = (r, w')).
Proof.
  unfold bind. destruct (m w) as [[a|e] w1]; intros H.
  - right. eauto.
  - left. exists e. by inversion H.
Qed.

Lemma bind_ok {A B} (m : Eff A) (f : A -> Eff B) w b w' :
  bind m f w = (Ok b, w') ->
  exists a w1, m w = (Ok a, w1) /\ f a w1 = (Ok b, w').
Proof.
  intros H. apply bind_inv in H as [(e & _ & ?) | H]; [done | exact H].
Qed.

Lemma run_eq {A} (m : Eff A) w r : (m w).1 = r -> m w = (r, (m w).2).
Proof. intros <-. apply surjective_pairing. Qed.

Lemma bind_step {A B} (m : Eff A) (f : A -> Eff B) w a w1 :
  m w = (Ok a, w1) -> bind m f w = f a w1.
Proof. unfold bind. by intros ->. Qed.

Lemma bind_raise {A B} (m : Eff A) (f : A -> Eff B) w e w1 :
  m w = (Raise e, w1) -> bind m f w = (Raise e, w1).
Proof. unfold bind. by intros ->. Qed.

(** ** [random.randrange] *)

Lemma randrange_eq start stop w :
  start < stop ->
  randrange start stop w
  = (Ok (start + random_bits w (random_calls w) `mod` (stop - start)), tick_random w).
Proof.
  intros H. unfold randrange.
  destruct (Z.ltb_spec 0 (stop - start)); [reflexivity | lia].
Qed.

Lemma randrange_empty start stop w :
  stop <= start ->
  randrange start stop w = (Raise (ValueError (empty_range start stop)), w).
Proof.
  intros H. unfold randrange.
  destruct (Z.ltb_spec 0 (stop - start)); [lia | reflexivity].
Qed.

Lemma randrange_ok start stop w r w' :
  randrange start stop w = (Ok r, w') -> start <= r < stop /\ w' = tick_random w.
Proof.
  destruct (Z_lt_le_dec start stop) as [H|H].
  - rewrite randrange_eq by done. intros [= <- <-].
    pose proof (Z.mod_pos_bound (random_bits w (random_calls w)) (stop - start)).
    split; [lia | done].
  - by rewrite randrange_empty.
Qed.

Lemma randrange1_eq stop w :
  0 < stop ->
  randrange1 stop w = (Ok (random_bits w (random_calls w) `mod` stop), tick_random w).
Proof.
  intros H. unfold randrange1. destruct (Z.ltb_spec 0 stop); [reflexivity | lia].
Qed.

Lemma randrange1_empty stop w :
  stop <= 0 ->
  randrange1 stop w = (Raise (ValueError "empty range for randrange()"), w).
Proof.
  intros H. unfold randrange1. destruct (Z.ltb_spec 0 stop); [lia | reflexivity].
Qed.

(** ** [random_date_in_range] *)

Lemma random_date_in_range_eq this start_date end_date w :
  random_date_in_range this start_date end_date w
  = let days := timedelta_days (default (end_date_default this) end_date) start_date in
    if 0 <? days
    then (Ok (add_days start_date (random_bits w (random_calls w) `mod` days)),
          tick_random w)
    else (Raise (ValueError "empty range for randrange()"), w).
Proof.
  unfold random_date_in_range, bind. cbv zeta.
  destruct (Z.ltb_spec 0 (timedelta_days (default (end_date_default this) end_date) start_date)).
  - by rewrite randrange1_eq.
  - by rewrite randrange1_empty.
Qed.



(** C10: the default of [end_date] is the clock reading taken while the
    module is imported.  A call that omits [end_date] behaves as the call
    with that reading passed explicitly, so it samples from the range that
    ends at import time, and what the clock shows when the call is made
    (the calls may be arbitrarily far apart in time) has no influence on
    its result. *)
Theorem default_end_date_fixed_at_import w0 this w1 :
  import_source w0 = (Ok this, w1) ->
  let import_time := wall_clock w0 (clock_reads w0) in
  forall start_date,
    (forall w,
       random_date_in_range this start_date None w
       = random_date_in_range this start_date (Some import_time) w) /\
    (forall w d w',
       random_date_in_range this start_date None w = (Ok d, w') ->
       exists k, 0 <= k < timedelta_days import_time start_date /\
                 d = add_days start_date k) /\
    (forall w w',
       random_bits w = random_bits w' -> random_calls w = random_calls w' ->
       (random_date_in_range this start_date None w).1
       = (random_date_in_range this start_date None w').1).
Proof.
  intros Himport import_time start_date.
  assert (end_date_default this = import_time) as Hthis.
  { unfold import_source, bind, now, ret in Himport. by inversion Himport. }
  assert (forall w, random_date_in_range this start_date None w
                    = random_date_in_range this start_date (Some import_time) w) as Heq.
  { intros w. rewrite !random_date_in_range_eq. cbn -[timedelta_days].
    by rewrite Hthis. }
  split; [exact Heq | split].
  - intros w d w'. rewrite Heq, random_date_in_range_eq. cbn -[timedelta_days].
    destruct (Z.ltb_spec 0 (timedelta_days import_time start_date)); [|done].
    intros [= <- <-]. eexists. split; [|done]. apply Z.mod_pos_bound. lia.
  - intros w w' Hbits Hcalls. rewrite !random_date_in_range_eq.
    cbn -[timedelta_days]. rewrite Hbits, Hcalls.
    by destruct (0 <? _).
Qed.

Lemma default_end_date_fixed_at_import_witness :
  (random_date_in_range sample_module 0 None (tick_clock sample_world)).1
  = (random_date_in_range sample_module 0 None
       (tick_clock (tick_clock (tick_clock sample_world)))).1.
Proof.
  apply (default_end_date_fixed_at_import sample_world sample_module
           (tick_clock sample_world) eq_refl 0); reflexivity.
Defined.

(** ** [generate_user] *)

Lemma generate_user_eq user_id w :
  generate_user user_id w
  = match faker_profile w (faker_calls w) !! "birthdate" with
    | Some _ =>
        let time_a := faker_date_time w (S (faker_calls w)) in
        let time_b := faker_date_time w (S (S (faker_calls w))) in
        (Ok ((<["id" := VInt (user_id + 1)]>
              (<["created_at" := VDateTime (if time_a <=? time_b then time_a else time_b)]>
              (<["updated_at" := VDateTime (if time_a >? time_b then time_a else time_b)]> ∅)))
             ∪ delete "birthdate" (faker_profile w (faker_calls w))),
         tick_faker (tick_faker (tick_faker w)))
    | None => (Raise (KeyError "birthdate"), tick_faker w)
    end.
Proof.
  unfold generate_user, bind, fake_profile, delitem.
  destruct (faker_profile w (faker_calls w) !! "birthdate"); reflexivity.
Qed.

(** C5: a user returned by [generate_user] carries [created_at], the
    earlier of the two timestamps drawn from Faker, and [updated_at], the
    later one, so [updated_at >= created_at]; its [id] is the generation
    index plus one. *)
Theorem generate_user_timestamps user_id w user w' :
  generate_user user_id w = (Ok user, w') ->
  let time_a := faker_date_time w (S (faker_calls w)) in
  let time_b := faker_date_time w (S (S (faker_calls w))) in
  exists created_at updated_at,
    user !! "created_at" = Some (VDateTime created_at) /\
    user !! "updated_at" = Some (VDateTime updated_at) /\
    created_at = Z.min time_a time_b /\
    updated_at = Z.max time_a time_b /\
    updated_at >= created_at /\
    user !! "id" = Some (VInt (user_id + 1)).
Proof.
  rewrite generate_user_eq.
  destruct (faker_profile w (faker_calls w) !! "birthdate"); [|done].
  intros Huser time_a time_b. cbv zeta in Huser. injection Huser as <- <-.
  exists (Z.min time_a time_b), (Z.max time_a time_b).
  repeat split; try lia.
  - apply lookup_union_Some_l. rewrite lookup_insert_ne by done.
    rewrite lookup_insert_eq. do 2 f_equal.
    fold time_a time_b. destruct (Z.leb_spec time_a time_b); lia.
  - apply lookup_union_Some_l. do 2 (rewrite lookup_insert_ne by done).
    rewrite lookup_insert_eq. do 2 f_equal.
    fold time_a time_b. destruct (Z.gtb_spec time_a time_b); lia.
  - apply lookup_union_Some_l. by rewrite lookup_insert_eq.
Qed.

Lemma generate_user_timestamps_witness :
  exists created_at updated_at,
    (generate_user 4 sample_world).1 = (generate_user 4 sample_world).1 /\
    created_at = Z.min 999913600000000 999827200000000 /\
    updated_at = Z.max 999913600000000 999827200000000 /\
    updated_at >= created_at.
Proof.
  destruct (generate_user_timestamps 4 sample_world _ _ eq_refl)
    as (c & u & _ & _ & Hc & Hu & Hle & _).
  exists c, u. repeat split; assumption.
Defined.

(** [generate_user] returns whenever the profile it gets has the
    [birthdate] entry it deletes. *)
Lemma generate_user_returns user_id w :
  is_Some (faker_profile w (faker_calls w) !! "birthdate") ->
  exists user, generate_user user_id w = (Ok user, tick_faker (tick_faker (tick_faker w))).
Proof.
  intros [v Hv]. rewrite generate_user_eq, Hv. eauto.
Qed.

(** ** [generate_purchases] *)

Lemma python_only_ret {A} (a : A) : python_only (ret a).
Proof. intros w w'. unfold ret. congruence. Qed.

Lemma python_only_raise {A} e : e <> OutOfFuel -> python_only (@raise A e).
Proof. intros He w w'. unfold raise. congruence. Qed.

Lemma python_only_bind {A B} (m : Eff A) (f : A -> Eff B) :
  python_only m -> (forall a, python_only (f a)) -> python_only (bind m f).
Proof.
  intros Hm Hf w w' H. apply bind_inv in H as [(e & H & [= <-]) | (a & w1 & _ & H)].
  - by apply Hm in H.
  - by apply Hf in H.
Qed.

Lemma python_only_randrange start stop : python_only (randrange start stop).
Proof.
  intros w w'. destruct (Z_lt_le_dec start stop).
  - by rewrite randrange_eq.
  - by rewrite randrange_empty.
Qed.

Lemma python_only_getitem d key : python_only (getitem d key).
Proof. intros w w'. unfold getitem. by destruct (d !! key). Qed.

Lemma python_only_as_datetime v : python_only (as_datetime v).
Proof. intros w w'. by destruct v. Qed.

Lemma python_only_random_date_in_range this start_date end_date :
  python_only (random_date_in_range this start_date end_date).
Proof.
  intros w w'. rewrite random_date_in_range_eq. cbv zeta. by destruct (0 <? _).
Qed.

Create HintDb python_only.
#[local] Hint Resolve python_only_ret python_only_randrange python_only_getitem
  python_only_as_datetime python_only_random_date_in_range : python_only.

Lemma python_only_next_purchase this user purchases_count total_products i :
  python_only (next_purchase this user purchases_count total_products i).
Proof.
  unfold next_purchase. cbv beta zeta iota.
  repeat first
    [ solve [auto with python_only]
    | apply python_only_bind; [|intros ?]
    | match goal with
      | |- python_only (if ?c then _ else _) => destruct c
      | |- python_only (match ?o with Some _ => _ | None => _ end) => destruct o
      end ].
Qed.

(** What an iteration that completes has built. *)
Lemma next_purchase_ok this user purchases_count total_products i w purchase w' :
  next_purchase this user purchases_count total_products i w = (Ok purchase, w') ->
  exists product_id added purchased_at returned_at user_id,
    purchase
    = <["id" := VInt (purchases_count + i + 1)]>
      (<["product_id" := VInt product_id]>
      (<["user_id" := user_id]>
      (<["added_to_cart_at" := VDateTime added]>
      (<["purchased_at" := of_optional purchased_at]>
      (<["returned_at" := of_optional returned_at]> ∅))))) /\
    1 <= product_id < total_products /\
    user !! "id" = Some user_id /\
    (purchased_at = None -> returned_at = None).
Proof.
  unfold next_purchase. intros H.
  apply bind_ok in H as (product_id & w1 & Hpid & H).
  apply randrange_ok in Hpid as [Hpid _].
  apply bind_ok in H as (created_at & w2 & _ & H).
  apply bind_ok in H as (start_date & w3 & _ & H).
  apply bind_ok in H as (added & w4 & _ & H).
  apply bind_ok in H as (purchased_at & w5 & _ & H).
  apply bind_ok in H as (returned_at & w6 & Hret & H).
  apply bind_ok in H as (user_id & w7 & Huid & H).
  injection H as <- <-.
  exists product_id, added, purchased_at, returned_at, user_id.
  repeat split; try lia; try done.
  - unfold getitem in Huid. destruct (user !! "id"); [|done].
    by injection Huid as -> _.
  - intros ->. by injection Hret as <- _.
Qed.

Lemma next_purchase_id this user purchases_count total_products i w purchase w' :
  next_purchase this user purchases_count total_products i w = (Ok purchase, w') ->
  purchase !! "id" = Some (VInt (purchases_count + i + 1)).
Proof.
  intros H. apply next_purchase_ok in H as (? & ? & ? & ? & ? & -> & _).
  by rewrite lookup_insert_eq.
Qed.

Lemma next_purchase_causal_chain this user purchases_count total_products i w purchase w' :
  next_purchase this user purchases_count total_products i w = (Ok purchase, w') ->
  causal_chain purchase.
Proof.
  intros H.
  apply next_purchase_ok in H as (? & ? & purchased_at & returned_at & ? & -> & _ & _ & Hchain).
  split.
  - by do 3 (rewrite lookup_insert_ne by done); rewrite lookup_insert_eq.
  - do 4 (rewrite lookup_insert_ne by done). rewrite lookup_insert_eq.
    do 5 (rewrite lookup_insert_ne by done). rewrite lookup_insert_eq.
    destruct purchased_at; [done|]. by rewrite Hchain.
Qed.

Lemma purchases_loop_stop this fuel user purchases_count total_products budget i acc w :
  budget <= 0 ->
  purchases_loop this fuel user purchases_count total_products budget i acc w = (Ok acc, w).
Proof.
  intros H. destruct fuel; simpl; destruct (Z.gtb_spec budget 0); try lia; reflexivity.
Qed.

Lemma purchases_loop_step this fuel user purchases_count total_products budget i acc w :
  0 < budget ->
  purchases_loop this (S fuel) user purchases_count total_products budget i acc w
  = bind (next_purchase this user purchases_count total_products i)
      (fun purchase =>
         bind (randrange 1 100)
           (fun r => purchases_loop this fuel user purchases_count total_products
                       (budget - r) (i + 1) (acc ++ [purchase]))) w.
Proof.
  intros H. simpl. destruct (Z.gtb_spec budget 0); [reflexivity | lia].
Qed.

(** A completed run of the loop, iteration by iteration. *)
Lemma purchases_loop_ok this fuel user purchases_count total_products budget i acc w ps w' :
  0 < budget ->
  purchases_loop this fuel user purchases_count total_products budget i acc w = (Ok ps, w') ->
  exists fuel' purchase w1 r,
    fuel = S fuel' /\
    next_purchase this user purchases_count total_products i w = (Ok purchase, w1) /\
    1 <= r <= 99 /\
    purchases_loop this fuel' user purchases_count total_products
      (budget - r) (i + 1) (acc ++ [purchase]) (tick_random w1) = (Ok ps, w').
Proof.
  intros Hb H. destruct fuel as [|fuel'].
  - simpl in H. by destruct (Z.gtb_spec budget 0); [|lia].
  - rewrite purchases_loop_step in H by done.
    apply bind_ok in H as (purchase & w1 & Hp & H).
    apply bind_ok in H as (r & w2 & Hr & H).
    apply randrange_ok in Hr as [Hr ->].
    exists fuel', purchase, w1, r. repeat split; try done; lia.
Qed.

(** A property of the counter and of the list built so far that every
    iteration preserves holds of the result. *)
Lemma purchases_loop_invariant this user purchases_count total_products
    (I : Z -> list Dict -> Prop) :
  (forall i acc purchase w w1,
     I i acc ->
     next_purchase this user purchases_count total_products i w = (Ok purchase, w1) ->
     I (i + 1) (acc ++ [purchase])) ->
  forall fuel budget i acc w ps w',
    I i acc ->
    purchases_loop this fuel user purchases_count total_products budget i acc w = (Ok ps, w') ->
    exists i', I i' ps.
Proof.
  intros Hstep fuel. induction fuel as [|fuel IH]; intros budget i acc w ps w' HI H.
  - destruct (Z_le_gt_dec budget 0) as [Hb|Hb].
    + rewrite purchases_loop_stop in H by done. injection H as <- _. eauto.
    + apply purchases_loop_ok in H as (? & ? & ? & ? & ? & _); [done | lia].
  - destruct (Z_le_gt_dec budget 0) as [Hb|Hb].
    + rewrite purchases_loop_stop in H by done. injection H as <- _. eauto.
    + apply purchases_loop_ok in H as (fuel' & p & w1 & r & [= <-] & Hp & _ & H); [|lia].
      eapply IH; [|exact H]. eauto.
Qed.

(** The loop runs as long as the budget is positive, and no longer. *)
Lemma purchases_loop_budget_run this fuel user purchases_count total_products :
  forall budget i acc w ps w',
    purchases_loop this fuel user purchases_count total_products budget i acc w = (Ok ps, w') ->
    exists draws, budget_run budget draws /\
                  length ps = (length acc + length draws)%nat.
Proof.
  induction fuel as [|fuel IH]; intros budget i acc w ps w' H.
  - destruct (Z_le_gt_dec budget 0) as [Hb|Hb].
    + rewrite purchases_loop_stop in H by done. injection H as <- _.
      exists []. simpl. split; [done | lia].
    + apply purchases_loop_ok in H as (? & ? & ? & ? & ? & _); [done | lia].
  - destruct (Z_le_gt_dec budget 0) as [Hb|Hb].
    + rewrite purchases_loop_stop in H by done. injection H as <- _.
      exists []. simpl. split; [done | lia].
    + apply purchases_loop_ok in H as (fuel' & p & w1 & r & [= <-] & Hp & Hr & H); [|lia].
      apply IH in H as (draws & Hrun & Hlen).
      exists (r :: draws). simpl. rewrite length_app in Hlen. simpl in Hlen.
      repeat split; try lia. done.
Qed.

(** The loop and its runs: what the loop returns is what a run generates,
    with the numbers that were drawn. *)
Lemma purchases_loop_run this fuel user purchases_count total_products :
  forall budget i acc w ps w',
    purchases_loop this fuel user purchases_count total_products budget i acc w = (Ok ps, w') ->
    exists ps' draws,
      ps = acc ++ ps' /\
      purchases_run this user purchases_count total_products budget i w ps' draws w'.
Proof.
  induction fuel as [|fuel IH]; intros budget i acc w ps w' H.
  - destruct (Z_le_gt_dec budget 0) as [Hb|Hb].
    + rewrite purchases_loop_stop in H by done. injection H as <- <-.
      exists [], []. split; [by rewrite app_nil_r | by constructor].
    + apply purchases_loop_ok in H as (? & ? & ? & ? & ? & _); [done | lia].
  - destruct (Z_le_gt_dec budget 0) as [Hb|Hb].
    + rewrite purchases_loop_stop in H by done. injection H as <- <-.
      exists [], []. split; [by rewrite app_nil_r | by constructor].
    + rewrite purchases_loop_step in H by lia.
      apply bind_ok in H as (purchase & w1 & Hp & H).
      apply bind_ok in H as (r & w2 & Hr & H).
      apply IH in H as (ps' & draws & -> & Hrun).
      exists (purchase :: ps'), (r :: draws). split; [by rewrite <- app_assoc|].
      econstructor; [lia | done..].
Qed.

Lemma purchases_run_loop this user purchases_count total_products budget i w ps draws w' :
  purchases_run this user purchases_count total_products budget i w ps draws w' ->
  forall fuel acc,
    (Z.to_nat budget <= fuel)%nat ->
    purchases_loop this fuel user purchases_count total_products budget i acc w
    = (Ok (acc ++ ps), w').
Proof.
  induction 1 as [budget i w Hb | budget i w purchase w1 r w2 ps draws w' Hb Hp Hr _ IH];
    intros fuel acc Hfuel.
  - by rewrite purchases_loop_stop, app_nil_r.
  - destruct fuel as [|fuel]; [lia|]. rewrite purchases_loop_step by done.
    rewrite (bind_step _ _ _ _ _ Hp), (bind_step _ _ _ _ _ Hr).
    pose proof (randrange_ok _ _ _ _ _ Hr) as [Hr1 _].
    rewrite IH by lia. by rewrite <- app_assoc.
Qed.

Lemma purchases_run_budget_run this user purchases_count total_products budget i w ps
    draws w' :
  purchases_run this user purchases_count total_products budget i w ps draws w' ->
  budget_run budget draws /\ length ps = length draws.
Proof.
  induction 1 as [budget i w Hb | budget i w purchase w1 r w2 ps draws w' Hb Hp Hr _ IH].
  - done.
  - apply randrange_ok in Hr as [Hr _]. destruct IH as [IH Hlen].
    cbn. rewrite Hlen. repeat split; try done; lia.
Qed.

(** The bound on the iterations is never what stops the loop. *)
Lemma purchases_loop_python_only this fuel user purchases_count total_products :
  forall budget i acc,
    (Z.to_nat budget <= fuel)%nat ->
    python_only (purchases_loop this fuel user purchases_count total_products budget i acc).
Proof.
  induction fuel as [|fuel IH]; intros budget i acc Hfuel w w'.
  - rewrite purchases_loop_stop by lia. done.
  - destruct (Z_le_gt_dec budget 0) as [Hb|Hb].
    + rewrite purchases_loop_stop by lia. done.
    + rewrite purchases_loop_step by lia. revert w w'.
      apply python_only_bind; [apply python_only_next_purchase|]. intros p w w' H.
      apply bind_inv in H as [(e & H & [= <-]) | (r & w1 & Hr & H)].
      * by apply python_only_randrange in H.
      * apply randrange_ok in Hr as [Hr _]. revert H. apply IH. lia.
Qed.

Lemma generate_purchases_eq products this user purchases_count w :
  generate_purchases products this user purchases_count w
  = let r0 := 1 + random_bits w (random_calls w) `mod` 99 in
    purchases_loop this (Z.to_nat (80 - r0)) user purchases_count
      (Z.of_nat (length products)) (80 - r0) 0 [] (tick_random w).
Proof.
  unfold generate_purchases. cbv zeta. unfold bind at 1.
  rewrite randrange_eq by lia. reflexivity.
Qed.

(** [generate_purchases] terminates: it returns or raises a Python exception. *)
Lemma generate_purchases_terminates products this user purchases_count :
  python_only (generate_purchases products this user purchases_count).
Proof.
  intros w w'. rewrite generate_purchases_eq. cbv zeta.
  apply purchases_loop_python_only. lia.
Qed.

(** C4: in every purchase that [generate_purchases] returns, [purchased_at]
    is [None] when [added_to_cart_at] is, and [returned_at] is [None] when
    [purchased_at] is. *)
Theorem generate_purchases_causal_chain products this user purchases_count w ps w' :
  generate_purchases products this user purchases_count w = (Ok ps, w') ->
  Forall causal_chain ps.
Proof.
  rewrite generate_purchases_eq. cbv zeta. intros H.
  eapply (purchases_loop_invariant _ _ _ _ (fun _ acc => Forall causal_chain acc))
    in H as [_ H]; [exact H | | constructor].
  intros i acc p w0 w1 Hacc Hp. apply Forall_app. split; [done|].
  constructor; [|constructor]. by eapply next_purchase_causal_chain.
Qed.

Lemma generate_purchases_causal_chain_witness :
  length sample_purchases = 2%nat /\ Forall causal_chain sample_purchases.
Proof.
  split; [reflexivity|].
  apply (generate_purchases_causal_chain sample_products sample_module sample_user 10
           sample_world sample_purchases
           (generate_purchases sample_products sample_module sample_user 10 sample_world).2).
  apply run_eq. vm_compute. reflexivity.
Defined.

(** C7, as the code has it: the budget starts at 80 and the number
    subtracted from it, before the first purchase and after every purchase,
    is what [random.randrange(1, 100)] returns at that moment, which lies in
    [1, 99]; one purchase is generated per iteration for as long as the
    budget that these numbers leave is positive, and no longer
    ([purchases_run], in both directions), so the list is empty exactly
    when the first subtraction leaves a budget of 0 or less; and the loop
    always ends. *)
Theorem purchase_budget products this user purchases_count w :
  let r0 := 1 + random_bits w (random_calls w) `mod` 99 in
  let total_products := Z.of_nat (length products) in
  randrange 1 100 w = (Ok r0, tick_random w) /\
  1 <= r0 <= 99 /\
  (forall ps w',
     generate_purchases products this user purchases_count w = (Ok ps, w') <->
     exists draws,
       purchases_run this user purchases_count total_products (80 - r0) 0 (tick_random w)
         ps draws w') /\
  (forall ps draws w',
     purchases_run this user purchases_count total_products (80 - r0) 0 (tick_random w)
       ps draws w' ->
     budget_run (80 - r0) draws /\ length ps = length draws) /\
  ((exists w', generate_purchases products this user purchases_count w = (Ok [], w'))
   <-> 80 - r0 <= 0) /\
  (forall w', generate_purchases products this user purchases_count w
              <> (Raise OutOfFuel, w')).
Proof.
  intros r0 total_products.
  assert (1 <= r0 <= 99) as Hr0.
  { pose proof (Z.mod_pos_bound (random_bits w (random_calls w)) 99). lia. }
  assert (forall ps w',
            generate_purchases products this user purchases_count w = (Ok ps, w') <->
            exists draws,
              purchases_run this user purchases_count total_products (80 - r0) 0
                (tick_random w) ps draws w') as Hrun.
  { intros ps w'. rewrite generate_purchases_eq. cbv zeta. fold r0 total_products. split.
    - intros H. apply purchases_loop_run in H as (ps' & draws & -> & H). by exists draws.
    - intros [draws H]. by apply (purchases_run_loop _ _ _ _ _ _ _ _ _ _ H _ []). }
  split; [by rewrite randrange_eq by lia|].
  split; [exact Hr0|]. split; [exact Hrun|].
  split; [intros ps draws w'; apply purchases_run_budget_run|]. split; [split|].
  - intros [w' H]. apply Hrun in H as (draws & H). by inversion H.
  - intros Hb. exists (tick_random w). apply Hrun. exists []. by constructor.
  - intros w'. apply generate_purchases_terminates.
Qed.

Lemma purchase_budget_witness :
  exists draws,
    purchases_run sample_module sample_user 10 3 (80 - 4) 0 (tick_random sample_world)
      sample_purchases draws
      (generate_purchases sample_products sample_module sample_user 10 sample_world).2 /\
    budget_run (80 - 4) draws /\ length sample_purchases = length draws.
Proof.
  pose proof (purchase_budget sample_products sample_module sample_user 10 sample_world)
    as (_ & _ & Hrun & Hbudget & _).
  destruct (proj1 (Hrun sample_purchases
                     (generate_purchases sample_products sample_module sample_user 10
                        sample_world).2)) as [draws Hdraws].
  { apply run_eq. vm_compute. reflexivity. }
  exists draws. split; [exact Hdraws|]. exact (Hbudget _ _ _ Hdraws).
Defined.

(** C7 as stated has the subtracted number range over [1, 100]: 100 is
    never drawn. *)
Lemma budget_draw_never_100 :
  ~ (forall v, 1 <= v <= 100 -> exists w w', randrange 1 100 w = (Ok v, w')).
Proof.
  intros H. destruct (H 100) as (w & w' & Hr); [lia|].
  apply randrange_ok in Hr. lia.
Qed.

(** ** Generators *)

Lemma gbind_inv {A B} (m : Gen A) (f : A -> Gen B) w t r w' :
  gbind m f w = (t, r, w') ->
  (exists e, m w = (t, Raise e, w') /\ r = Raise e) \/
  (exists t1 a w1 t2, m w = (t1, Ok a, w1) /\ f a w1 = (t2, r, w') /\ t = t1 ++ t2).
Proof.
  unfold gbind. destruct (m w) as [[t1 [a|e]] w1].
  - destruct (f a w1) as [[t2 r2] w2] eqn:Hf. intros [= <- <- <-]. right.
    exists t1, a, w1, t2. repeat split. exact Hf.
  - intros [= <- <- <-]. left. eauto.
Qed.

Lemma lift_inv {A} (m : Eff A) w t r w' :
  lift m w = (t, r, w') -> t = [] /\ m w = (r, w').
Proof. unfold lift. destruct (m w). by intros [= <- <- <-]. Qed.

Lemma gbind_lift_inv {A B} (m : Eff A) (f : A -> Gen B) w t r w' :
  gbind (lift m) f w = (t, r, w') ->
  (exists e, m w = (Raise e, w') /\ r = Raise e /\ t = []) \/
  (exists a w1, m w = (Ok a, w1) /\ f a w1 = (t, r, w')).
Proof.
  intros H. apply gbind_inv in H as [(e & H & ->) | (t1 & a & w1 & t2 & H & Hf & ->)];
    apply lift_inv in H as [-> H]; eauto 10.
Qed.

Lemma gbind_yield_inv {B} msg (f : unit -> Gen B) w t r w' :
  gbind (yield msg) f w = (t, r, w') ->
  exists t', f tt w = (t', r, w') /\ t = msg :: t'.
Proof.
  intros H. apply gbind_inv in H as [(e & H & _) | (t1 & [] & w1 & t2 & H & Hf & ->)];
    unfold yield in H; [done|]. injection H as <- <-. eauto.
Qed.

Lemma gret_inv {A} (a : A) w t r w' :
  gret a w = (t, r, w') -> t = [] /\ r = Ok a /\ w' = w.
Proof. unfold gret. by intros [= <- <- <-]. Qed.

Lemma generate_record_eq isoformat stream data w :
  generate_record isoformat stream data w
  = (Ok (RECORD (stream_name stream) (iso_dict isoformat data)
           (Z.quot (wall_clock w (clock_reads w)) 1000000 * 1000)), tick_clock w).
Proof. reflexivity. Qed.

(** ** Observing a trace *)

Lemma records_of_app s t1 t2 : records_of s (t1 ++ t2) = records_of s t1 ++ records_of s t2.
Proof. apply omap_app. Qed.

Lemma states_of_app t1 t2 : states_of (t1 ++ t2) = states_of t1 ++ states_of t2.
Proof. apply omap_app. Qed.

Lemma records_of_record_for isoformat s s' ds msgs :
  Forall2 (record_for isoformat s) ds msgs ->
  records_of s' msgs = if decide (s = s') then map (iso_dict isoformat) ds else [].
Proof.
  induction 1 as [|d m ds msgs [t ->] _ IH]; [by destruct (decide _)|].
  unfold records_of in *. cbn. rewrite IH. by destruct (decide (s = s')).
Qed.

Lemma states_of_record_for isoformat s ds msgs :
  Forall2 (record_for isoformat s) ds msgs -> states_of msgs = [].
Proof. induction 1 as [|d m ds msgs [t ->] _ IH]; [done | exact IH]. Qed.

Lemma ids_from_nil a : ids_from a [].
Proof. intros i d. by rewrite lookup_nil. Qed.

Lemma ids_from_app a l1 l2 :
  ids_from a (l1 ++ l2) <-> ids_from a l1 /\ ids_from (a + Z.of_nat (length l1)) l2.
Proof.
  split.
  - intros H. split.
    + intros i d Hi. apply H. by apply lookup_app_l_Some.
    + intros i d Hi. replace (a + Z.of_nat (length l1) + Z.of_nat i)
        with (a + Z.of_nat (length l1 + i)) by lia.
      apply H. by rewrite lookup_app_r, Nat.add_comm, Nat.add_sub by lia.
  - intros [H1 H2] i d Hi. apply lookup_app_Some in Hi as [Hi | [Hlen Hi]].
    + by apply H1.
    + apply H2 in Hi. rewrite Hi. do 2 f_equal. lia.
Qed.

Lemma ids_from_singleton a d : d !! "id" = Some (VInt a) -> ids_from a [d].
Proof.
  intros Hd [|i] d'; [|by rewrite lookup_cons, lookup_nil].
  intros [= <-]. rewrite Hd. do 2 f_equal. lia.
Qed.

Lemma ids_from_cons a d l :
  ids_from a (d :: l) <-> d !! "id" = Some (VInt a) /\ ids_from (a + 1) l.
Proof.
  change (d :: l) with ([d] ++ l). rewrite ids_from_app. simpl.
  split; intros [H1 H2]; (split; [|exact H2]).
  - specialize (H1 0%nat d eq_refl). rewrite H1. do 2 f_equal. lia.
  - by apply ids_from_singleton.
Qed.

Lemma ids_from_iso isoformat a (l : list Dict) :
  ids_from a l -> ids_from a (map (iso_dict isoformat) l).
Proof.
  intros H i d. change (map (iso_dict isoformat) l) with (iso_dict isoformat <$> l).
  rewrite list_lookup_fmap.
  destruct (l !! i) as [d0|] eqn:Hi; [|done]. intros [= <-].
  unfold iso_dict. by rewrite lookup_fmap, (H i d0 Hi).
Qed.

(** ** The two inner loops *)

Lemma emit_purchases_spec isoformat ps purchases :
  forall purchases_count w,
  exists msgs w',
    emit_purchases isoformat ps purchases purchases_count w
    = (msgs, Ok (purchases_count + Z.of_nat (length purchases)), w') /\
    Forall2 (record_for isoformat (stream_name ps)) purchases msgs.
Proof.
  induction purchases as [|p purchases IH]; intros pc w.
  - exists [], w. split; [|constructor]. simpl. unfold gret. do 3 f_equal. lia.
  - destruct (IH (pc + 1) (tick_clock w)) as (msgs & w' & Heq & Hmsgs).
    eexists (_ :: msgs), w'. split.
    + simpl. unfold gbind at 1, lift. rewrite generate_record_eq.
      unfold gbind at 1, yield. rewrite Heq. simpl. do 3 f_equal. lia.
    + constructor; [|done]. eexists. reflexivity.
Qed.

Lemma emit_products_spec isoformat stream products :
  forall w,
  exists msgs w',
    emit_products isoformat stream products w = (msgs, Ok tt, w') /\
    Forall2 (record_for isoformat (stream_name stream)) products msgs.
Proof.
  induction products as [|p products IH]; intros w.
  - exists [], w. split; [done | constructor].
  - destruct (IH (tick_clock w)) as (msgs & w' & Heq & Hmsgs).
    eexists (_ :: msgs), w'. split.
    + simpl. unfold gbind at 1, lift. rewrite generate_record_eq.
      unfold gbind at 1, yield. rewrite Heq. reflexivity.
    + constructor; [|done]. eexists. reflexivity.
Qed.

Lemma generate_purchases_ids products this user purchases_count w ps w' :
  generate_purchases products this user purchases_count w = (Ok ps, w') ->
  ids_from (purchases_count + 1) ps.
Proof.
  rewrite generate_purchases_eq. cbv zeta. intros H.
  eapply (purchases_loop_invariant _ _ _ _
            (fun i acc => i = Z.of_nat (length acc) /\ ids_from (purchases_count + 1) acc))
    in H as [_ [_ H]]; [exact H | | split; [done | apply ids_from_nil]].
  intros i acc p w0 w1 [-> Hacc] Hp. split.
  - rewrite length_app. simpl. lia.
  - apply ids_from_app. split; [done|]. apply ids_from_singleton.
    apply next_purchase_id in Hp. rewrite Hp. do 2 f_equal. lia.
Qed.

Lemma generate_user_id user_id w user w' :
  generate_user user_id w = (Ok user, w') -> user !! "id" = Some (VInt (user_id + 1)).
Proof.
  rewrite generate_user_eq.
  destruct (faker_profile w (faker_calls w) !! "birthdate"); [|done].
  cbv zeta. intros [= <- _]. apply lookup_union_Some_l. by rewrite lookup_insert_eq.
Qed.

(** ** Monitors *)

Lemma records_of_cons_same s d t tr :
  records_of s (RECORD s d t :: tr) = d :: records_of s tr.
Proof. unfold records_of. cbn. by destruct (decide (s = s)). Qed.

Lemma records_of_cons_other s s' d t tr :
  s' <> s -> records_of s (RECORD s' d t :: tr) = records_of s tr.
Proof. intros H. unfold records_of. cbn. by destruct (decide (s' = s)). Qed.

Lemma cursors_track_users seed n d t tr :
  cursors_track seed n (RECORD "Users" d t :: tr) = cursors_track seed (n + 1) tr.
Proof. reflexivity. Qed.

Lemma paged_users slice page d t tr :
  paged slice page (RECORD "Users" d t :: tr)
  = (page < slice /\ paged slice (page + 1) tr).
Proof. reflexivity. Qed.

Lemma page_after_users page d t tr :
  page_after page (RECORD "Users" d t :: tr) = page_after (page + 1) tr.
Proof. reflexivity. Qed.

(** Messages that are neither user records nor state messages leave the
    monitors alone. *)
Lemma cursors_track_skip seed n msgs rest :
  records_of "Users" msgs = [] -> states_of msgs = [] ->
  cursors_track seed n (msgs ++ rest) <-> cursors_track seed n rest.
Proof.
  induction msgs as [|[s d t|st] msgs IH]; intros Hu Hs; [done | | done].
  unfold records_of in Hu. cbn in *. destruct (decide (s = "Users")); [done|].
  by apply IH.
Qed.

Lemma paged_skip slice page msgs rest :
  records_of "Users" msgs = [] -> states_of msgs = [] ->
  paged slice page (msgs ++ rest) <-> paged slice page rest.
Proof.
  induction msgs as [|[s d t|st] msgs IH]; intros Hu Hs; [done | | done].
  unfold records_of in Hu. cbn in *. destruct (decide (s = "Users")); [done|].
  by apply IH.
Qed.

Lemma page_after_skip page msgs rest :
  records_of "Users" msgs = [] -> states_of msgs = [] ->
  page_after page (msgs ++ rest) = page_after page rest.
Proof.
  induction msgs as [|[s d t|st] msgs IH]; intros Hu Hs; [done | | done].
  unfold records_of in Hu. cbn in *. destruct (decide (s = "Users")); [done|].
  by apply IH.
Qed.

Lemma cursors_track_app seed n t1 t2 :
  cursors_track seed n (t1 ++ t2)
  <-> cursors_track seed n t1 /\
      cursors_track seed (n + Z.of_nat (length (records_of "Users" t1))) t2.
Proof.
  revert n. induction t1 as [|[s d t|st] t1 IH]; intros n.
  - simpl. rewrite Z.add_0_r. tauto.
  - unfold records_of. cbn. destruct (decide (s = "Users")).
    + rewrite IH. unfold records_of. cbn.
      replace (n + 1 + Z.of_nat (length (omap _ t1)))
        with (n + Z.pos (Pos.of_succ_nat (length (omap
               (fun m => match m with
                         | RECORD s0 data _ => if decide (s0 = "Users") then Some data else None
                         | STATE _ => None
                         end) t1)))) by lia.
      tauto.
    + apply IH.
  - cbn. rewrite IH. unfold records_of. cbn. tauto.
Qed.

Lemma paged_app slice page t1 t2 :
  paged slice page (t1 ++ t2)
  <-> paged slice page t1 /\ paged slice (page_after page t1) t2.
Proof.
  revert page. induction t1 as [|[s d t|st] t1 IH]; intros page.
  - simpl. tauto.
  - cbn. destruct (decide (s = "Users")); rewrite IH; tauto.
  - cbn. apply IH.
Qed.

Lemma page_after_app page t1 t2 :
  page_after page (t1 ++ t2) = page_after (page_after page t1) t2.
Proof.
  revert page. induction t1 as [|[s d t|st] t1 IH]; intros page; cbn; [done | apply IH..].
Qed.



(** ** The loop over the users *)

Section UsersLoop.

Context (isoformat : datetime -> string) (products : list Dict) (this : ModuleState).
Context (count : Z) (seed : option Z) (records_per_sync records_per_slice : Z).
Context (purchases_stream : option ConfiguredAirbyteStream).
Context (stream : ConfiguredAirbyteStream).
Hypothesis stream_is_users : stream_name stream = "Users".
Hypothesis purchases_stream_name :
  forall ps, purchases_stream = Some ps -> stream_name ps = "Purchases".

(** What one iteration emits and how it leaves the variables. *)
Lemma users_step_inv i l w tr r w' :
  users_step isoformat products this seed records_per_slice purchases_stream stream i l w
  = (tr, r, w') ->
  (tr = [] /\ exists e, r = Raise e) \/
  exists user t,
    user !! "id" = Some (VInt (i + 1)) /\
    let record := RECORD "Users" (iso_dict isoformat user) t in
    (tr = [record] /\ exists e, r = Raise e) \/
    exists purchases pmsgs,
      Forall2 (record_for isoformat "Purchases") purchases pmsgs /\
      ids_from (l_purchases_count l + 1) purchases /\
      (purchases_stream = None -> purchases = []) /\
      let purchases_count := l_purchases_count l + Z.of_nat (length purchases) in
      if l_records_in_page l + 1 =? records_per_slice then
        let state := <["Users" := CkUsers (Some (l_total_records l + 1)) seed]> (l_state l) in
        tr = record :: pmsgs ++ [STATE state] /\
        r = Ok {| l_state := state; l_total_records := l_total_records l + 1;
                  l_records_in_sync := l_records_in_sync l + 1; l_records_in_page := 0;
                  l_purchases_count := purchases_count |}
      else
        tr = record :: pmsgs /\
        r = Ok {| l_state := l_state l; l_total_records := l_total_records l + 1;
                  l_records_in_sync := l_records_in_sync l + 1;
                  l_records_in_page := l_records_in_page l + 1;
                  l_purchases_count := purchases_count |}.
Proof.
  unfold users_step. intros H.
  apply gbind_lift_inv in H as [(e & _ & -> & ->) | (user & w1 & Huser & H)];
    [left; eauto|].
  right. apply generate_user_id in Huser.
  apply gbind_lift_inv in H as [(e & H & _) | (record & w2 & Hrecord & H)];
    [by rewrite generate_record_eq in H|].
  rewrite generate_record_eq, stream_is_users in Hrecord. injection Hrecord as <- <-.
  apply gbind_yield_inv in H as (tr' & H & ->).
  eexists user, _. split; [exact Huser|]. cbv zeta.
  apply gbind_inv in H as [(e & H & ->) | (t1 & pc & w3 & t2 & Hp & H & ->)].
  - left. destruct purchases_stream as [ps|]; [|by apply gret_inv in H as (_ & ? & _)].
    apply gbind_lift_inv in H as [(e' & _ & _ & ->) | (purchases & w3 & _ & H)];
      [eauto|].
    destruct (emit_purchases_spec isoformat ps purchases (l_purchases_count l) w3)
      as (msgs & w4 & Hemit & _). congruence.
  - right.
    assert (exists purchases,
              Forall2 (record_for isoformat "Purchases") purchases t1 /\
              ids_from (l_purchases_count l + 1) purchases /\
              (purchases_stream = None -> purchases = []) /\
              pc = l_purchases_count l + Z.of_nat (length purchases))
      as (purchases & Hmsgs & Hids & Hnone & ->).
    { destruct purchases_stream as [ps|] eqn:Hps.
      - apply gbind_lift_inv in Hp as [(e' & _ & ? & _) | (purchases & w4 & Hgen & Hp)];
          [done|].
        destruct (emit_purchases_spec isoformat ps purchases (l_purchases_count l) w4)
          as (msgs & w5 & Hemit & Hmsgs).
        rewrite Hemit in Hp. injection Hp as <- <- <-.
        rewrite (purchases_stream_name ps eq_refl) in Hmsgs.
        exists purchases. repeat split; try done.
        by eapply generate_purchases_ids.
      - apply gret_inv in Hp as (-> & [= <-] & _). exists [].
        repeat split; [constructor | apply ids_from_nil | simpl; lia]. }
    exists purchases, t1. do 3 (split; [done|]). cbv zeta.
    destruct (l_records_in_page l + 1 =? records_per_slice).
    + unfold generate_state in H. rewrite stream_is_users in H.
      apply gbind_yield_inv in H as (t3 & H & ->).
      apply gret_inv in H as (-> & -> & _). done.
    + apply gret_inv in H as (-> & -> & _). by rewrite app_nil_r.
Qed.

Lemma purchases_block purchases pmsgs :
  Forall2 (record_for isoformat "Purchases") purchases pmsgs ->
  records_of "Users" pmsgs = [] /\
  records_of "Purchases" pmsgs = map (iso_dict isoformat) purchases /\
  records_of "Products" pmsgs = [] /\
  states_of pmsgs = [].
Proof.
  intros H. rewrite !(records_of_record_for _ _ _ _ _ H).
  rewrite (states_of_record_for _ _ _ _ H).
  repeat split; by destruct (decide _).
Qed.

Abbreviation post := (users_loop_post seed records_per_slice purchases_stream).

Lemma users_loop_post_nil n i l : post n i l [] (Ok l).
Proof.
  unfold users_loop_post. cbn.
  repeat split; try apply ids_from_nil; try done; try lia.
Qed.

Lemma users_loop_post_raise n i l user t e :
  user !! "id" = Some (VInt (i + 1)) ->
  post (S n) i l [RECORD "Users" (iso_dict isoformat user) t] (Raise e).
Proof.
  intros Hid. unfold users_loop_post.
  rewrite records_of_cons_same, !records_of_cons_other by done. cbn.
  repeat split; try apply ids_from_nil; try done; try lia.
  apply ids_from_singleton. unfold iso_dict. by rewrite lookup_fmap, Hid.
Qed.

(** An iteration followed by the rest of the run. *)
Lemma users_loop_post_step n i l user t purchases pmsgs ckpt l1 tr2 r :
  user !! "id" = Some (VInt (i + 1)) ->
  Forall2 (record_for isoformat "Purchases") purchases pmsgs ->
  ids_from (l_purchases_count l + 1) purchases ->
  (purchases_stream = None -> purchases = []) ->
  l_total_records l1 = l_total_records l + 1 ->
  l_purchases_count l1 = l_purchases_count l + Z.of_nat (length purchases) ->
  (if l_records_in_page l + 1 =? records_per_slice
   then ckpt = [STATE (<["Users" := CkUsers (Some (l_total_records l + 1)) seed]> (l_state l))]
        /\ l_state l1 = <["Users" := CkUsers (Some (l_total_records l + 1)) seed]> (l_state l)
        /\ l_records_in_page l1 = 0
   else ckpt = [] /\ l_state l1 = l_state l
        /\ l_records_in_page l1 = l_records_in_page l + 1) ->
  post n (i + 1) l1 tr2 r ->
  post (S n) i l ((RECORD "Users" (iso_dict isoformat user) t :: pmsgs ++ ckpt) ++ tr2) r.
Proof.
  intros Hid Hmsgs Hids Hnone Htotal Hpc Hckpt
    (Husers & Hlen & Hpurchases & Hnone2 & Hproducts & Hcursors & Hpaged & Hr).
  destruct (purchases_block _ _ Hmsgs) as (Hpu & Hpp & Hpr & Hps).
  assert (records_of "Users" ckpt = [] /\ records_of "Purchases" ckpt = [] /\
          records_of "Products" ckpt = []) as (Hcu & Hcp & Hcr).
  { destruct (_ =? _); destruct Hckpt as (-> & _); done. }
  assert (records_of "Users" ((RECORD "Users" (iso_dict isoformat user) t :: pmsgs ++ ckpt) ++ tr2)
          = iso_dict isoformat user :: records_of "Users" tr2) as Eu.
  { cbn [app]. by rewrite records_of_cons_same, !records_of_app, Hpu, Hcu. }
  assert (records_of "Purchases" ((RECORD "Users" (iso_dict isoformat user) t :: pmsgs ++ ckpt) ++ tr2)
          = map (iso_dict isoformat) purchases ++ records_of "Purchases" tr2) as Ep.
  { cbn [app]. rewrite records_of_cons_other by done.
    by rewrite !records_of_app, Hpp, Hcp, app_nil_r. }
  assert (records_of "Products" ((RECORD "Users" (iso_dict isoformat user) t :: pmsgs ++ ckpt) ++ tr2)
          = []) as Er.
  { cbn [app]. rewrite records_of_cons_other by done.
    by rewrite !records_of_app, Hpr, Hcr, Hproducts. }
  unfold users_loop_post. cbv zeta. rewrite Eu, Ep, Er.
  rewrite length_app, length_map. cbn [length].
  split; [|split; [|split; [|split; [|split; [|split; [|split]]]]]].
  - apply ids_from_cons. split; [unfold iso_dict; by rewrite lookup_fmap, Hid|].
    exact Husers.
  - lia.
  - apply ids_from_app. split; [by apply ids_from_iso|].
    rewrite length_map.
    replace (l_purchases_count l + 1 + Z.of_nat (length purchases))
      with (l_purchases_count l1 + 1) by lia.
    exact Hpurchases.
  - intros Hn. rewrite (Hnone Hn), (Hnone2 Hn). done.
  - done.
  - cbn [app]. rewrite <- app_assoc, cursors_track_users.
    rewrite cursors_track_skip by done.
    apply cursors_track_app. split.
    + destruct (_ =? _); destruct Hckpt as (-> & _); [|done]. cbn.
      by rewrite lookup_insert_eq.
    + rewrite Hcu. cbn. by rewrite Z.add_0_r, <- Htotal.
  - intros Hpage. cbn [app]. rewrite <- app_assoc, paged_users.
    split; [lia|].
    rewrite paged_skip by done. apply paged_app.
    destruct (Z.eqb_spec (l_records_in_page l + 1) records_per_slice) as [Heq|Hne];
      destruct Hckpt as (-> & _ & Hp1); cbn.
    + split; [done|]. rewrite Hp1 in Hpaged. apply Hpaged. lia.
    + split; [done|]. rewrite Hp1 in Hpaged. apply Hpaged. lia.
  - destruct r as [l'|]; [|done]. destruct Hr as (Ht & Hc & Hst & Hpg).
    split; [lia|]. split; [lia|]. split.
    + intros k Hk. rewrite (Hst k Hk).
      destruct (_ =? _); destruct Hckpt as (_ & -> & _); [|done].
      by rewrite lookup_insert_ne.
    + intros Hpage. cbn [app]. rewrite <- app_assoc, page_after_users.
      rewrite page_after_skip, page_after_app by done.
      destruct (Z.eqb_spec (l_records_in_page l + 1) records_per_slice) as [Heq|Hne];
        destruct Hckpt as (-> & _ & Hp1); cbn; rewrite Hp1 in Hpg; apply Hpg; lia.
Qed.

Lemma users_loop_spec n :
  forall i l w tr r w',
    users_loop isoformat products this seed records_per_sync records_per_slice
      purchases_stream stream n i l w = (tr, r, w') ->
    post n i l tr r.
Proof.
  induction n as [|n IH]; intros i l w tr r w' H.
  - apply gret_inv in H as (-> & -> & _). apply users_loop_post_nil.
  - simpl in H.
    apply gbind_inv in H as [(e & H & ->) | (t1 & l1 & w1 & t2 & Hstep & H & ->)].
    + apply users_step_inv in H as [(-> & _) | (user & t & Hid & [(-> & _) | H])].
      * unfold users_loop_post. cbn.
        repeat split; try apply ids_from_nil; try done; try lia.
      * by apply users_loop_post_raise.
      * destruct H as (purchases & pmsgs & _ & _ & _ & H). cbv zeta in H.
        by destruct (_ =? _); destruct H as [_ ?].
    + apply users_step_inv in Hstep
        as [(_ & e & ?) | (user & t & Hid & [(_ & e & ?) | Hstep])]; [done..|].
      destruct Hstep as (purchases & pmsgs & Hmsgs & Hids & Hnone & Hstep).
      cbv zeta in Hstep.
      assert (post n (i + 1) l1 t2 r) as Hrest.
      { destruct (l_records_in_sync l1 =? records_per_sync).
        - apply gret_inv in H as (-> & -> & _). apply users_loop_post_nil.
        - by eapply IH. }
      destruct (l_records_in_page l + 1 =? records_per_slice) eqn:Hslice;
        destruct Hstep as (-> & [= ->]).
      * eapply users_loop_post_step; try done; try reflexivity. by rewrite Hslice.
      * rewrite <- (app_nil_r pmsgs).
        eapply users_loop_post_step; try done; try reflexivity. by rewrite Hslice.
Qed.

Lemma of_result_inv {A} (x : Result A) w r w' :
  of_result x w = (r, w') -> r = x /\ w' = w.
Proof. unfold of_result. by intros [= <- <-]. Qed.

(** The branch of [read] for the stream [Users]. *)
Lemma read_stream_users state purchases_count w tr r w' :
  read_stream isoformat products this count seed records_per_sync records_per_slice
    purchases_stream stream state purchases_count w = (tr, r, w') ->
  match get_stream_cursor state "Users" with
  | Raise e => tr = [] /\ r = Raise e
  | Ok c =>
      let users := records_of "Users" tr in
      let purchases := records_of "Purchases" tr in
      ids_from (c + 1) users /\
      c + Z.of_nat (length users) <= Z.max c count /\
      ids_from (purchases_count + 1) purchases /\
      (purchases_stream = None -> purchases = []) /\
      records_of "Products" tr = [] /\
      cursors_track seed c tr /\
      (0 < records_per_slice -> paged records_per_slice 0 tr) /\
      match r with
      | Ok (state', purchases_count') =>
          purchases_count' = purchases_count + Z.of_nat (length purchases) /\
          state' !! "Users" = Some (CkUsers (Some (c + Z.of_nat (length users))) seed) /\
          state' !! "Purchases"
          = match purchases_stream with
            | Some _ => Some (CkPurchases purchases_count')
            | None => state !! "Purchases"
            end /\
          (forall k, k <> "Users" -> k <> "Purchases" -> state' !! k = state !! k) /\
          page_after 0 tr = 0
      | Raise _ => True
      end
  end.
Proof.
  unfold read_stream. destruct (decide (stream_name stream = "Users")) as [_|?]; [|done].
  rewrite stream_is_users. intros H.
  apply gbind_lift_inv in H as [(e & Hc & -> & ->) | (c & w1 & Hc & H)];
    apply of_result_inv in Hc as [Hc _]; rewrite <- Hc; [done|].
  apply gbind_inv in H as [(e & H & ->) | (t1 & l & w2 & t2 & Hloop & H & ->)].
  - apply users_loop_spec in H
      as (Hu & Hlen & Hp & Hnone & Hpr & Hcur & Hpaged & _).
    cbn in *. repeat split; try done; try lia. intros Hs. apply Hpaged. lia.
  - apply users_loop_spec in Hloop
      as (Hu & Hlen & Hp & Hnone & Hpr & Hcur & Hpaged & Ht & Hpc & Hst & _).
    cbn in Hu, Hlen, Hp, Hnone, Hpr, Hcur, Hpaged, Ht, Hpc, Hst.
    unfold generate_state in H. rewrite stream_is_users in H.
    apply gbind_yield_inv in H as (t3 & H & ->).
    set (state1 := <["Users" := CkUsers (Some (l_total_records l)) seed]> (l_state l)) in *.
    assert (exists finals state',
              t3 = finals /\ r = Ok (state', l_purchases_count l) /\
              records_of "Users" (STATE state1 :: finals) = [] /\
              records_of "Purchases" (STATE state1 :: finals) = [] /\
              records_of "Products" (STATE state1 :: finals) = [] /\
              cursors_track seed (l_total_records l) (STATE state1 :: finals) /\
              (forall page, paged records_per_slice page (STATE state1 :: finals)) /\
              (forall page, page_after page (STATE state1 :: finals) = 0) /\
              state' !! "Users" = Some (CkUsers (Some (l_total_records l)) seed) /\
              state' !! "Purchases"
              = match purchases_stream with
                | Some _ => Some (CkPurchases (l_purchases_count l))
                | None => state !! "Purchases"
                end /\
              (forall k, k <> "Users" -> k <> "Purchases" -> state' !! k = state !! k))
      as (finals & state' & -> & -> & Hfu & Hfp & Hfr & Hfc & Hfpaged & Hfpage & Hsu & Hsp & Hsk).
    { destruct purchases_stream as [ps|] eqn:Hps.
      - rewrite (purchases_stream_name ps eq_refl) in H.
        apply gbind_yield_inv in H as (t4 & H & ->).
        apply gret_inv in H as (-> & -> & _).
        eexists _, _. split; [reflexivity|]. split; [reflexivity|].
        cbn. unfold state1.
        rewrite lookup_insert_eq, lookup_insert_ne, !lookup_insert_eq by done.
        repeat split; try done.
        intros k Hk1 Hk2. rewrite !lookup_insert_ne by done. by apply Hst.
      - apply gret_inv in H as (-> & -> & _).
        eexists _, _. split; [reflexivity|]. split; [reflexivity|].
        cbn. unfold state1. rewrite lookup_insert_eq, lookup_insert_ne by done.
        repeat split; try done.
        + by apply Hst.
        + intros k Hk1 Hk2. rewrite !lookup_insert_ne by done. by apply Hst. }
    cbv zeta. rewrite !records_of_app, Hfu, Hfp, Hfr, Hpr, !app_nil_r.
    repeat split; try done; try lia.
    + apply cursors_track_app. split; [done|]. by rewrite <- Ht.
    + intros Hs. apply paged_app. split; [apply Hpaged; lia | apply Hfpaged].
    + by rewrite Hsu, Ht.
    + by rewrite page_after_app.
Qed.

End UsersLoop.

(** ** The loop over the catalog *)

Section Catalog.

Context (isoformat : datetime -> string) (products : list Dict) (this : ModuleState).
Context (count : Z) (seed : option Z) (records_per_sync records_per_slice : Z).
Context (purchases_stream : option ConfiguredAirbyteStream).
Hypothesis purchases_stream_name :
  forall ps, purchases_stream = Some ps -> stream_name ps = "Purchases".

Abbreviation read_stream' :=
  (read_stream isoformat products this count seed records_per_sync records_per_slice
     purchases_stream).
Abbreviation read_streams' :=
  (read_streams isoformat products this count seed records_per_sync records_per_slice
     purchases_stream).
Abbreviation post := (run_post count purchases_stream records_per_slice).

(** The branch for [Products]. *)
Lemma read_stream_products stream state purchases_count w :
  stream_name stream = "Products" ->
  exists msgs w',
    let state' := <["Products" := CkProducts (Z.of_nat (length products))]> state in
    read_stream' stream state purchases_count w
    = (msgs ++ [STATE state'], Ok (state', purchases_count), w') /\
    Forall2 (record_for isoformat "Products") products msgs.
Proof.
  intros Hname. unfold read_stream. rewrite Hname.
  destruct (decide ("Products" = "Users")) as [?|_]; [done|].
  destruct (decide ("Products" = "Products")) as [_|?]; [|done].
  destruct (emit_products_spec isoformat stream products w) as (msgs & w' & Hemit & Hmsgs).
  rewrite Hname in Hmsgs. exists msgs, w'. split; [|done].
  unfold gbind at 1. unfold generate_products, generate_state.
  rewrite Hemit, Hname. reflexivity.
Qed.

(** The other branches. *)
Lemma read_stream_other stream state purchases_count w :
  stream_name stream <> "Users" -> stream_name stream <> "Products" ->
  read_stream' stream state purchases_count w
  = if decide (stream_name stream = "Purchases")
    then ([], Ok (state, purchases_count), w)
    else ([], Raise (ValueError (stream_name stream)), w).
Proof.
  intros H1 H2. unfold read_stream.
  destruct (decide (stream_name stream = "Users")); [done|].
  destruct (decide (stream_name stream = "Products")); [done|].
  by destruct (decide (stream_name stream = "Purchases")).
Qed.

Lemma products_block msgs :
  Forall2 (record_for isoformat "Products") products msgs ->
  records_of "Users" msgs = [] /\
  records_of "Purchases" msgs = [] /\
  states_of msgs = [].
Proof.
  intros H. rewrite !(records_of_record_for _ _ _ _ _ H).
  rewrite (states_of_record_for _ _ _ _ H).
  repeat split; by destruct (decide _).
Qed.

Lemma run_post_nil state purchases_count : post state purchases_count [] (Ok (state, purchases_count)).
Proof.
  unfold run_post. cbn.
  repeat split; try apply ids_from_nil; try done; try lia.
  intros c ->. do 2 f_equal. lia.
Qed.

Lemma run_post_raise state purchases_count e : post state purchases_count [] (Raise e).
Proof.
  unfold run_post. cbn. repeat split; try apply ids_from_nil; try done; lia.
Qed.

Lemma run_post_stream stream state purchases_count w tr r w' :
  read_stream' stream state purchases_count w = (tr, r, w') ->
  post state purchases_count tr r.
Proof.
  intros H. destruct (decide (stream_name stream = "Users")) as [Hu|Hu].
  - apply read_stream_users in H; [|done..].
    destruct (get_stream_cursor state "Users") as [c|e] eqn:Hc.
    + cbv zeta in H.
      destruct H as (Hids & Hlen & Hp & Hnone & _ & _ & Hpaged & Hr).
      unfold run_post. cbv zeta.
      split; [done|]. split; [done|].
      split; [intros c' Hc'; by assert (c' = c) as -> by congruence|].
      split; [done|].
      destruct r as [[state' pc']|]; [|done].
      destruct Hr as (Hpc & Hsu & Hsp & Hsk & Hpage).
      split; [done|]. split; [|split; [|done]].
      * intros c' Hc'. assert (c' = c) as -> by congruence.
        unfold get_stream_cursor. by rewrite Hsu.
      * unfold checkpointed_purchases_count. rewrite Hsp.
        destruct purchases_stream; [done|]. intros Hck. rewrite Hck.
        rewrite (Hnone eq_refl) in Hpc. cbn in Hpc. f_equal. lia.
    + destruct H as [-> ->]. apply run_post_raise.
  - destruct (decide (stream_name stream = "Products")) as [Hp|Hp].
    + destruct (read_stream_products stream state purchases_count w Hp)
        as (msgs & w1 & Heq & Hmsgs).
      cbv zeta in Heq. rewrite Heq in H. injection H as <- <- <-.
      destruct (products_block msgs Hmsgs) as (Hbu & Hbp & Hbs).
      unfold run_post. cbv zeta. rewrite !records_of_app, Hbu, Hbp. cbn.
      split; [apply ids_from_nil|]. split; [done|].
      split; [intros c _; split; [apply ids_from_nil | lia]|].
      split; [|split; [lia|split; [|split]]].
      * intros _. rewrite <- (app_nil_r (msgs ++ [STATE _])), <- app_assoc.
        by rewrite paged_skip.
      * intros c Hc. unfold get_stream_cursor in *.
        rewrite lookup_insert_ne by done. rewrite Hc. do 2 f_equal. lia.
      * unfold checkpointed_purchases_count. by rewrite lookup_insert_ne by done.
      * rewrite <- (app_nil_r (msgs ++ [STATE _])), <- app_assoc.
        by rewrite page_after_skip.
    + rewrite read_stream_other in H by done.
      destruct (decide (stream_name stream = "Purchases")); injection H as <- <- <-.
      * apply run_post_nil.
      * apply run_post_raise.
Qed.

(** Two stretches in a row. *)
Lemma run_post_app state purchases_count t1 state1 purchases_count1 t2 r :
  post state purchases_count t1 (Ok (state1, purchases_count1)) ->
  post state1 purchases_count1 t2 r ->
  post state purchases_count (t1 ++ t2) r.
Proof.
  intros (Hp1 & Hn1 & Hu1 & Hg1 & -> & Hc1 & Hk1 & Ha1) (Hp2 & Hn2 & Hu2 & Hg2 & Hr).
  unfold run_post. cbv zeta. rewrite !records_of_app, !length_app.
  split; [|split; [|split; [|split]]].
  - apply ids_from_app. split; [done|].
    replace (purchases_count + 1 + Z.of_nat (length (records_of "Purchases" t1)))
      with (purchases_count + Z.of_nat (length (records_of "Purchases" t1)) + 1) by lia.
    done.
  - intros Hn. by rewrite Hn1, Hn2.
  - intros c Hc. destruct (Hu1 c Hc) as [Hids1 Hlen1].
    destruct (Hu2 _ (Hc1 c Hc)) as [Hids2 Hlen2]. split; [|lia].
    apply ids_from_app. split; [done|].
    replace (c + 1 + Z.of_nat (length (records_of "Users" t1)))
      with (c + Z.of_nat (length (records_of "Users" t1)) + 1) by lia.
    done.
  - intros Hs. apply paged_app. split; [by apply Hg1|]. rewrite Ha1. by apply Hg2.
  - destruct r as [[state' pc']|]; [|done].
    destruct Hr as (-> & Hc2 & Hk2 & Ha2). repeat split.
    + lia.
    + intros c Hc. rewrite (Hc2 _ (Hc1 c Hc)). f_equal. lia.
    + intros Hk. by apply Hk2, Hk1.
    + by rewrite page_after_app, Ha1.
Qed.

Lemma read_streams_cons stream streams state purchases_count w tr r w' :
  read_streams' (stream :: streams) state purchases_count w = (tr, r, w') ->
  (exists e, read_stream' stream state purchases_count w = (tr, Raise e, w') /\ r = Raise e) \/
  (exists t1 state1 purchases_count1 w1 t2,
     read_stream' stream state purchases_count w = (t1, Ok (state1, purchases_count1), w1) /\
     read_streams' streams state1 purchases_count1 w1 = (t2, r, w') /\
     tr = t1 ++ t2).
Proof.
  simpl. intros H.
  apply gbind_inv in H as [(e & H & ->) | (t1 & [state1 pc1] & w1 & t2 & H1 & H2 & ->)].
  - left. eauto.
  - right. by exists t1, state1, pc1, w1, t2.
Qed.

Lemma read_streams_spec streams :
  forall state purchases_count w tr r w',
    read_streams' streams state purchases_count w = (tr, r, w') ->
    post state purchases_count tr r.
Proof.
  induction streams as [|stream streams IH]; intros state pc w tr r w' H.
  - apply gret_inv in H as (-> & -> & _). apply run_post_nil.
  - apply read_streams_cons in H
      as [(e & H & ->) | (t1 & state1 & pc1 & w1 & t2 & H1 & H2 & ->)].
    + by eapply run_post_stream.
    + eapply run_post_app; [by eapply run_post_stream | by eapply IH].
Qed.

End Catalog.

(** ** [read] *)

Lemma gen_run_eq {A} (m : Gen A) w t : (m w).1.1 = t -> m w = (t, (m w).1.2, (m w).2).
Proof. intros <-. by destruct (m w) as [[? ?] ?]. Qed.

Lemma gen_run_eq2 {A} (m : Gen A) w t r :
  (m w).1.1 = t -> (m w).1.2 = r -> m w = (t, r, (m w).2).
Proof. intros <- <-. by destruct (m w) as [[? ?] ?]. Qed.

Lemma purchases_stream_found catalog ps :
  last (filter (fun s => stream_name s = "Purchases") catalog) = Some ps ->
  stream_name ps = "Purchases".
Proof.
  intros H. apply last_Some_elem_of in H. by apply list_elem_of_filter in H as [H _].
Qed.

Lemma purchases_stream_enabled catalog :
  bool_decide (is_Some (last (filter (fun s => stream_name s = "Purchases") catalog)))
  = existsb (is_stream "Purchases") catalog.
Proof.
  induction catalog as [|s catalog IH]; [done|].
  cbn [existsb]. rewrite <- IH. unfold is_stream at 1.
  destruct (decide (stream_name s = "Purchases")) as [Hs|Hs].
  - rewrite filter_cons_True, (bool_decide_eq_true_2 _ Hs) by done. cbn [orb].
    apply bool_decide_eq_true_2, last_is_Some. done.
  - rewrite filter_cons_False, (bool_decide_eq_false_2 _ Hs) by done. done.
Qed.

(** The three ways [read] can go. *)
Lemma read_inv isoformat products this config catalog state w tr r w' :
  read isoformat products this config catalog state w = (tr, r, w') ->
  match checkpointed_purchases_count state with
  | Raise e => tr = [] /\ r = Raise e /\ w' = w
  | Ok purchases_count =>
      if existsb (is_stream "Purchases") catalog && negb (existsb (is_stream "Users") catalog)
      then tr = [] /\ w' = w /\
           r = Raise (ValueError "Purchases stream cannot be enabled without Users stream")
      else
        exists r0,
          read_streams isoformat products this (default 0 (config !! "count"))
            (config !! "seed") (default 500 (config !! "records_per_sync"))
            (default 100 (config !! "records_per_slice"))
            (last (filter (fun s => stream_name s = "Purchases") catalog))
            catalog state purchases_count w = (tr, r0, w') /\
          r = match r0 with
              | Ok (state', _) => Ok state'
              | Raise e => Raise e
              end
  end.
Proof.
  unfold read. cbv zeta. intros H.
  apply gbind_lift_inv in H as [(e & Hc & -> & ->) | (pc & w1 & Hc & H)];
    apply of_result_inv in Hc as [Hc ->]; rewrite <- Hc; [done|].
  rewrite purchases_stream_enabled in H.
  destruct (existsb (is_stream "Purchases") catalog && negb (existsb (is_stream "Users") catalog)).
  - unfold graise in H. by injection H as <- <- <-.
  - apply gbind_inv in H as [(e & H & ->) | (t1 & [state' pc'] & w2 & t2 & H1 & H2 & ->)].
    + by exists (Raise e).
    + apply gret_inv in H2 as (-> & -> & ->). rewrite app_nil_r.
      by exists (Ok (state', pc')).
Qed.

(** C1: resumed with a state whose [Users] checkpoint holds the cursor [c]
    (0 when there is none), [read] emits as its [i]-th user record
    (counting from 0) the user of generation index [c + i], whose [id] is
    [c + i + 1], and that index stays below [count]: no index below [c] is
    generated again. *)
Theorem users_resume_from_cursor isoformat products this config catalog state c w tr r w' :
  get_stream_cursor state "Users" = Ok c ->
  read isoformat products this config catalog state w = (tr, r, w') ->
  forall (i : nat) user,
    records_of "Users" tr !! i = Some user ->
    user !! "id" = Some (VInt (c + Z.of_nat i + 1)) /\
    c <= c + Z.of_nat i < default 0 (config !! "count").
Proof.
  intros Hc H i user Hi. apply read_inv in H.
  destruct (checkpointed_purchases_count state) as [pc|e];
    [|destruct H as (-> & _); by destruct i].
  destruct (_ && _); [destruct H as (-> & _); by destruct i|].
  destruct H as (r0 & H & _).
  apply read_streams_spec in H as (_ & _ & Hu & _);
    [|apply purchases_stream_found].
  destruct (Hu c Hc) as [Hids Hlen]. split.
  - rewrite (Hids i user Hi). do 2 f_equal. lia.
  - apply lookup_lt_Some in Hi. lia.
Qed.

Lemma users_resume_from_cursor_witness :
  exists user,
    records_of "Users" resumed_trace !! 1%nat = Some user /\
    user !! "id" = Some (VInt (3 + Z.of_nat 1 + 1)) /\
    3 <= 3 + Z.of_nat 1 < default 0 (sample_config !! "count").
Proof.
  assert (resumed_run = (resumed_trace, resumed_run.1.2, resumed_run.2)) as Hrun.
  { apply (gen_run_eq (read _ _ _ _ _ _)). vm_compute. reflexivity. }
  eexists. split; [vm_compute; reflexivity|].
  apply (users_resume_from_cursor sample_isoformat sample_products sample_module
           sample_config [users_stream; purchases_stream_] resumed_state 3 sample_world
           resumed_trace resumed_run.1.2 resumed_run.2 eq_refl Hrun).
  vm_compute. reflexivity.
Defined.

(** C2: the [id]s of the purchase records of one run are
    [purchases_count + 1], [purchases_count + 2], ... without a gap, where
    [purchases_count] is what the prior state's [Purchases] checkpoint holds
    (0 when there is none); a run that returns leaves in the state the
    number its last [id] reached, so the records of a run resumed from that
    state continue the sequence. *)
Theorem purchase_ids_continue isoformat products this config catalog state
    purchases_count w tr r w' :
  checkpointed_purchases_count state = Ok purchases_count ->
  read isoformat products this config catalog state w = (tr, r, w') ->
  ids_from (purchases_count + 1) (records_of "Purchases" tr) /\
  forall state',
    r = Ok state' ->
    checkpointed_purchases_count state'
    = Ok (purchases_count + Z.of_nat (length (records_of "Purchases" tr))) /\
    forall config2 catalog2 w2 tr2 r2 w2',
      read isoformat products this config2 catalog2 state' w2 = (tr2, r2, w2') ->
      ids_from (purchases_count + 1)
        (records_of "Purchases" tr ++ records_of "Purchases" tr2).
Proof.
  intros Hpc H. apply read_inv in H. rewrite Hpc in H.
  destruct (_ && _).
  { destruct H as (-> & _ & ->). split; [apply ids_from_nil | done]. }
  destruct H as (r0 & H & ->).
  apply read_streams_spec in H as (Hids & _ & _ & _ & Hr);
    [|apply purchases_stream_found].
  split; [exact Hids|]. intros state' Hstate'.
  destruct r0 as [[state1 pc1]|]; [|done]. injection Hstate' as ->.
  destruct Hr as (-> & _ & Hck & _). specialize (Hck Hpc).
  split; [exact Hck|]. intros config2 catalog2 w2 tr2 r2 w2' H2.
  apply ids_from_app. split; [exact Hids|].
  apply read_inv in H2. rewrite Hck in H2.
  destruct (_ && _); [destruct H2 as (-> & _); apply ids_from_nil|].
  destruct H2 as (r0 & H2 & _).
  apply read_streams_spec in H2 as (Hids2 & _); [|apply purchases_stream_found].
  replace (purchases_count + 1 + Z.of_nat (length (records_of "Purchases" tr)))
    with (purchases_count + Z.of_nat (length (records_of "Purchases" tr)) + 1) by lia.
  exact Hids2.
Qed.

Lemma purchase_ids_continue_witness :
  ids_from (7 + 1) (records_of "Purchases" resumed_trace) /\
  length (records_of "Purchases" resumed_trace) = 2%nat.
Proof.
  assert (resumed_run = (resumed_trace, resumed_run.1.2, resumed_run.2)) as Hrun.
  { apply (gen_run_eq (read _ _ _ _ _ _)). vm_compute. reflexivity. }
  split; [|vm_compute; reflexivity].
  exact (proj1 (purchase_ids_continue sample_isoformat sample_products sample_module
                  sample_config [users_stream; purchases_stream_] resumed_state 7
                  sample_world resumed_trace resumed_run.1.2 resumed_run.2 eq_refl Hrun)).
Defined.

(** C3: when the catalog enables [Purchases] and not [Users], [read]
    raises before it has yielded anything; what it raises is the
    [ValueError] of the configuration check, provided the lookup of the
    prior [purchases_count], which comes first, went through. *)
Theorem purchases_require_users isoformat products this config catalog state w :
  existsb (is_stream "Purchases") catalog = true ->
  existsb (is_stream "Users") catalog = false ->
  exists e,
    read isoformat products this config catalog state w = ([], Raise e, w) /\
    (forall purchases_count,
       checkpointed_purchases_count state = Ok purchases_count ->
       e = ValueError "Purchases stream cannot be enabled without Users stream").
Proof.
  intros Hp Hu.
  destruct (read isoformat products this config catalog state w) as [[tr r] w'] eqn:H.
  apply read_inv in H. rewrite Hp, Hu in H. cbn in H.
  destruct (checkpointed_purchases_count state) as [pc|e].
  - destruct H as (-> & -> & ->). eexists. split; [reflexivity | done].
  - destruct H as (-> & -> & ->). exists e. split; [reflexivity | done].
Qed.

Lemma purchases_require_users_witness :
  exists e,
    read sample_isoformat sample_products sample_module sample_config
      [purchases_stream_; products_stream] resumed_state sample_world
    = ([], Raise e, sample_world) /\
    (forall purchases_count,
       checkpointed_purchases_count resumed_state = Ok purchases_count ->
       e = ValueError "Purchases stream cannot be enabled without Users stream").
Proof.
  apply (purchases_require_users sample_isoformat sample_products sample_module
           sample_config [purchases_stream_; products_stream] resumed_state sample_world);
    reflexivity.
Defined.

(** ** The order of the streams *)

Lemma records_of_lookup s tr (i : nat) d t :
  tr !! i = Some (RECORD s d t) -> records_of s tr <> [].
Proof.
  revert i. induction tr as [|m tr IH]; intros [|i]; try done.
  - intros [= ->]. by rewrite records_of_cons_same.
  - intros H. apply IH in H. destruct m as [s' d' t'|st]; [|done].
    destruct (decide (s' = s)) as [->|Hs].
    + by rewrite records_of_cons_same.
    + by rewrite records_of_cons_other.
Qed.

Section Order.

Context (isoformat : datetime -> string) (products : list Dict) (this : ModuleState).
Context (count : Z) (seed : option Z) (records_per_sync records_per_slice : Z).
Context (purchases_stream : option ConfiguredAirbyteStream).
Hypothesis purchases_stream_name :
  forall ps, purchases_stream = Some ps -> stream_name ps = "Purchases".

Abbreviation read_streams' :=
  (read_streams isoformat products this count seed records_per_sync records_per_slice
     purchases_stream).

Lemma read_streams_app l1 l2 :
  forall state purchases_count w tr r w',
    read_streams' (l1 ++ l2) state purchases_count w = (tr, r, w') ->
    exists t1 r1 w1,
      read_streams' l1 state purchases_count w = (t1, r1, w1) /\
      match r1 with
      | Raise e => tr = t1 /\ r = Raise e
      | Ok (state1, purchases_count1) =>
          exists t2, read_streams' l2 state1 purchases_count1 w1 = (t2, r, w') /\
                     tr = t1 ++ t2
      end.
Proof.
  induction l1 as [|s l1 IH]; intros state pc w tr r w' H.
  - exists [], (Ok (state, pc)), w. split; [done|]. by exists tr.
  - cbn [app] in H. apply read_streams_cons in H
      as [(e & H & ->) | (t1 & state1 & pc1 & w1 & t2 & H1 & H2 & ->)].
    + exists tr, (Raise e), w'. split; [|done].
      simpl. unfold gbind. by rewrite H.
    + apply IH in H2 as (t3 & r1 & w2 & H2 & Hr1).
      exists (t1 ++ t3), r1, w2. split.
      * simpl. unfold gbind. by rewrite H1, H2.
      * destruct r1 as [[state2 pc2]|e].
        -- destruct Hr1 as (t4 & H4 & ->). exists t4. by rewrite app_assoc.
        -- by destruct Hr1 as [-> ->].
Qed.

Lemma read_streams_without_products streams :
  Forall (fun s => stream_name s <> "Products") streams ->
  forall state purchases_count w tr r w',
    read_streams' streams state purchases_count w = (tr, r, w') ->
    records_of "Products" tr = [].
Proof.
  induction 1 as [|s streams Hs _ IH]; intros state pc w tr r w' H.
  - by apply gret_inv in H as (-> & _).
  - assert (forall t1 r1 w1, read_stream isoformat products this count seed records_per_sync
              records_per_slice purchases_stream s state pc w = (t1, r1, w1) ->
            records_of "Products" t1 = []) as Hone.
    { intros t1 r1 w1 H1. destruct (decide (stream_name s = "Users")) as [Hu|Hu].
      - apply read_stream_users in H1; [|done..].
        destruct (get_stream_cursor state "Users"); [|by destruct H1 as [-> _]].
        by destruct H1 as (_ & _ & _ & _ & ? & _).
      - rewrite read_stream_other in H1 by done.
        by destruct (decide _); injection H1 as <- _ _. }
    apply read_streams_cons in H
      as [(e & H & ->) | (t1 & state1 & pc1 & w1 & t2 & H1 & H2 & ->)].
    + by eapply Hone.
    + rewrite records_of_app, (Hone _ _ _ H1). by eapply IH.
Qed.

Lemma read_streams_without_users streams :
  Forall (fun s => stream_name s <> "Users") streams ->
  forall state purchases_count w tr r w',
    read_streams' streams state purchases_count w = (tr, r, w') ->
    records_of "Users" tr = [] /\ records_of "Purchases" tr = [].
Proof.
  induction 1 as [|s streams Hs _ IH]; intros state pc w tr r w' H.
  - by apply gret_inv in H as (-> & _).
  - assert (forall t1 r1 w1, read_stream isoformat products this count seed records_per_sync
              records_per_slice purchases_stream s state pc w = (t1, r1, w1) ->
            records_of "Users" t1 = [] /\ records_of "Purchases" t1 = []) as Hone.
    { intros t1 r1 w1 H1. destruct (decide (stream_name s = "Products")) as [Hp|Hp].
      - destruct (read_stream_products isoformat products this count seed records_per_sync
                    records_per_slice purchases_stream s state pc w Hp)
          as (msgs & w2 & Heq & Hmsgs).
        cbv zeta in Heq. rewrite Heq in H1. injection H1 as <- _ _.
        destruct (products_block isoformat products msgs Hmsgs) as (Hu & Hpu & _).
        by rewrite !records_of_app, Hu, Hpu.
      - rewrite read_stream_other in H1 by done.
        by destruct (decide _); injection H1 as <- _ _. }
    apply read_streams_cons in H
      as [(e & H & ->) | (t1 & state1 & pc1 & w1 & t2 & H1 & H2 & ->)].
    + by eapply Hone.
    + destruct (Hone _ _ _ H1) as [Hu Hp]. rewrite !records_of_app, Hu, Hp.
      by eapply IH.
Qed.

End Order.

Lemma users_listed_first_split catalog :
  users_listed_first catalog ->
  exists l1 l2,
    catalog = l1 ++ l2 /\
    Forall (fun s => stream_name s <> "Products") l1 /\
    Forall (fun s => stream_name s <> "Users") l2.
Proof.
  induction catalog as [|s catalog IH]; intros H.
  - by exists [], [].
  - destruct (decide (stream_name s = "Products")) as [Hs|Hs].
    + exists [], (s :: catalog). split; [done|]. split; [constructor|].
      apply Forall_lookup. intros j s' Hj Hname.
      specialize (H 0%nat j s s' eq_refl Hj Hs Hname). lia.
    + destruct IH as (l1 & l2 & -> & H1 & H2).
      { intros i j s1 s2 Hi Hj Hn1 Hn2.
        specialize (H (S i) (S j) s1 s2 Hi Hj Hn1 Hn2). lia. }
      exists (s :: l1), l2. split; [done|]. split; [by constructor | done].
Qed.

Lemma users_before_products_app t1 t2 :
  records_of "Products" t1 = [] ->
  records_of "Users" t2 = [] -> records_of "Purchases" t2 = [] ->
  users_before_products (t1 ++ t2).
Proof.
  intros H1 Hu Hp i j d t s d' t' Hi Hj Hs.
  apply lookup_app_Some in Hi as [Hi | [Hlen Hi]];
    [by apply records_of_lookup in Hi|].
  apply lookup_app_Some in Hj as [Hj | [_ Hj]].
  - apply lookup_lt_Some in Hj. lia.
  - apply records_of_lookup in Hj. by destruct Hs as [-> | ->].
Qed.

(** ** Checkpoints *)

Section Checkpoints.

Context (isoformat : datetime -> string) (products : list Dict) (this : ModuleState).
Context (count : Z) (seed : option Z) (records_per_sync records_per_slice : Z).
Context (purchases_stream : option ConfiguredAirbyteStream).
Hypothesis purchases_stream_name :
  forall ps, purchases_stream = Some ps -> stream_name ps = "Purchases".

(** Without a [Products] stream every state message is written by the
    [Users] branch, and shows the number of users emitted so far. *)
Lemma read_streams_cursors streams :
  Forall (fun s => stream_name s <> "Products") streams ->
  forall state purchases_count c w tr r w',
    get_stream_cursor state "Users" = Ok c ->
    read_streams isoformat products this count seed records_per_sync records_per_slice
      purchases_stream streams state purchases_count w = (tr, r, w') ->
    cursors_track seed c tr.
Proof.
  induction 1 as [|s streams Hs _ IH]; intros state pc c w tr r w' Hc H.
  - by apply gret_inv in H as (-> & _).
  - assert (forall t1 r1 w1,
              read_stream isoformat products this count seed records_per_sync
                records_per_slice purchases_stream s state pc w = (t1, r1, w1) ->
              cursors_track seed c t1) as Hone.
    { intros t1 r1 w1 H1. destruct (decide (stream_name s = "Users")) as [Hu|Hu].
      - apply read_stream_users in H1; [|done..]. rewrite Hc in H1.
        by destruct H1 as (_ & _ & _ & _ & _ & ? & _).
      - rewrite read_stream_other in H1 by done.
        by destruct (decide _); injection H1 as <- _ _. }
    apply read_streams_cons in H
      as [(e & H & ->) | (t1 & state1 & pc1 & w1 & t2 & H1 & H2 & ->)].
    + by eapply Hone.
    + apply cursors_track_app. split; [by eapply Hone|].
      eapply IH; [|exact H2].
      apply run_post_stream in H1 as (_ & _ & _ & _ & _ & Hc1 & _); [|done].
      by apply Hc1.
Qed.

End Checkpoints.



(** ** The run of five users in slices of two *)




Local Arguments users_loop : simpl never.



(** * Further properties *)

(** ** [random_date_in_range] *)

(** X1: the date [random_date_in_range] returns lies in [start, end), a
    whole number of days after [start] (the time of day of [start] is
    kept), and one number has been drawn from [random]; it raises, the
    [ValueError] of [random.randrange], exactly when [end] is less than one
    day after [start], which includes every [end] before [start]. *)
Theorem random_date_in_range_bounds this start_date end_date w :
  let end_ := default (end_date_default this) end_date in
  (forall d w',
     random_date_in_range this start_date end_date w = (Ok d, w') ->
     start_date <= d < end_ /\
     (d - start_date) `mod` microseconds_per_day = 0 /\
     w' = tick_random w) /\
  (end_ - start_date < microseconds_per_day <->
   random_date_in_range this start_date end_date w
   = (Raise (ValueError "empty range for randrange()"), w)).
Proof.
  intros end_. rewrite random_date_in_range_eq. cbv zeta. fold end_.
  unfold timedelta_days, add_days, microseconds_per_day.
  set (x := random_bits w (random_calls w)).
  destruct (Z.ltb_spec 0 ((end_ - start_date) / 86400000000)) as [Hd|Hd].
  - split.
    + intros d w' [= <- <-].
      pose proof (Z.mod_pos_bound x ((end_ - start_date) / 86400000000) Hd) as Hk.
      pose proof (Z.mul_div_le (end_ - start_date) 86400000000 ltac:(lia)).
      split; [nia|]. split; [|done].
      replace (start_date + _ * 86400000000 - start_date)
        with (x `mod` ((end_ - start_date) / 86400000000) * 86400000000) by lia.
      apply Z.mod_mul. lia.
    + split; [|done]. intros Hlt.
      assert ((end_ - start_date) / 86400000000 < 1); [|lia].
      apply Z.div_lt_upper_bound; lia.
  - split; [done|]. split; [done|]. intros _.
    destruct (Z_lt_le_dec (end_ - start_date) 86400000000) as [|Hge]; [done|].
    assert (1 <= (end_ - start_date) / 86400000000); [|lia].
    apply Z.div_le_lower_bound; lia.
Qed.

Lemma random_date_in_range_bounds_witness :
  1000 <= add_days 1000 0 < 259200001000 /\
  (add_days 1000 0 - 1000) `mod` microseconds_per_day = 0 /\
  tick_random sample_world = tick_random sample_world.
Proof.
  apply (proj1 (random_date_in_range_bounds sample_module 1000 (Some 259200001000)
                  sample_world) (add_days 1000 0) (tick_random sample_world)).
  reflexivity.
Defined.

(** ** [generate_user] *)

(** X2: [generate_user] needs a profile with a [birthdate]: without one it
    raises [KeyError] before any timestamp is drawn.  The user it returns
    has no [birthdate], carries [id], [created_at] and [updated_at] of its
    own making, whatever the profile held under these names, and every
    other field of the profile unchanged; three answers of Faker have been
    used. *)
Theorem generate_user_profile user_id w :
  let profile := faker_profile w (faker_calls w) in
  (profile !! "birthdate" = None ->
   generate_user user_id w = (Raise (KeyError "birthdate"), tick_faker w)) /\
  (forall user w',
     generate_user user_id w = (Ok user, w') ->
     is_Some (profile !! "birthdate") /\
     user !! "birthdate" = None /\
     (forall k, k <> "id" -> k <> "created_at" -> k <> "updated_at" -> k <> "birthdate" ->
                user !! k = profile !! k) /\
     w' = tick_faker (tick_faker (tick_faker w))).
Proof.
  intros profile. rewrite generate_user_eq. fold profile.
  destruct (profile !! "birthdate") as [b|] eqn:Hb.
  - split; [done|]. cbv zeta. intros user w' [= <- <-].
    split; [done|]. split; [|split; [|done]].
    + apply lookup_union_None. split.
      * by rewrite !lookup_insert_ne, lookup_empty.
      * apply lookup_delete_eq.
    + intros k H1 H2 H3 H4. rewrite lookup_union_r.
      * by rewrite lookup_delete_ne.
      * by rewrite !lookup_insert_ne, lookup_empty.
  - split; [done|]. by intros user w'.
Qed.

Lemma generate_user_profile_witness :
  sample_generated_user !! "birthdate" = None /\
  sample_generated_user !! "name" = Some (VStr "Ada") /\
  (generate_user 4 sample_world).2 = tick_faker (tick_faker (tick_faker sample_world)).
Proof.
  destruct (proj2 (generate_user_profile 4 sample_world) sample_generated_user
              (generate_user 4 sample_world).2) as (_ & Hb & Hk & Hw).
  { apply run_eq. vm_compute. reflexivity. }
  split; [exact Hb|]. split; [|exact Hw].
  rewrite Hk by done. reflexivity.
Defined.

(** ** [generate_purchases] *)

Lemma random_date_in_range_between this start_date w d w' :
  random_date_in_range this start_date None w = (Ok d, w') ->
  start_date <= d < end_date_default this.
Proof.
  rewrite random_date_in_range_eq. cbn [default]. cbv zeta.
  unfold timedelta_days, add_days, microseconds_per_day.
  set (x := random_bits w (random_calls w)).
  destruct (Z.ltb_spec 0 ((end_date_default this - start_date) / 86400000000))
    as [Hd|Hd]; [|done].
  intros [= <- <-].
  pose proof (Z.mod_pos_bound x _ Hd) as Hk.
  pose proof (Z.mul_div_le (end_date_default this - start_date) 86400000000 ltac:(lia)).
  nia.
Qed.

Lemma random_date_in_range_too_close this start_date w :
  end_date_default this - start_date < microseconds_per_day ->
  random_date_in_range this start_date None w
  = (Raise (ValueError "empty range for randrange()"), w).
Proof.
  intros Hlt. rewrite random_date_in_range_eq. cbn [default]. cbv zeta.
  unfold timedelta_days, microseconds_per_day in *.
  destruct (Z.ltb_spec 0 ((end_date_default this - start_date) / 86400000000))
    as [Hd|Hd]; [|done].
  assert ((end_date_default this - start_date) / 86400000000 < 1); [|lia].
  apply Z.div_lt_upper_bound; lia.
Qed.

Ltac lookup_inserted :=
  repeat (rewrite lookup_insert_ne by done); rewrite ?lookup_insert_eq.

(** Everything an iteration that completes has put into the purchase. *)
Lemma next_purchase_fields this user purchases_count total_products i w purchase w' :
  next_purchase this user purchases_count total_products i w = (Ok purchase, w') ->
  exists product_id created_at user_id,
    user !! "created_at" = Some (VDateTime created_at) /\
    user !! "id" = Some user_id /\
    purchase !! "product_id" = Some (VInt product_id) /\
    1 <= product_id < total_products /\
    purchase !! "user_id" = Some user_id /\
    timestamps_ordered created_at (end_date_default this) purchase.
Proof.
  unfold next_purchase. intros H.
  apply bind_ok in H as (product_id & w1 & Hpid & H).
  apply randrange_ok in Hpid as [Hpid _].
  apply bind_ok in H as (created & w2 & Hcreated & H).
  apply bind_ok in H as (start_date & w3 & Hstart & H).
  apply bind_ok in H as (added & w4 & Hadded & H).
  apply bind_ok in H as (purchased_at & w5 & Hpurchased & H).
  apply bind_ok in H as (returned_at & w6 & Hreturned & H).
  apply bind_ok in H as (user_id & w7 & Huid & H).
  injection H as <- <-.
  unfold getitem in Hcreated, Huid.
  destruct (user !! "created_at") as [v|] eqn:Hc; [|done]. injection Hcreated as -> ->.
  destruct (user !! "id") as [v|] eqn:Hi; [|done]. injection Huid as -> ->.
  destruct created as [| | |c]; try done. injection Hstart as -> ->.
  apply random_date_in_range_between in Hadded.
  exists product_id, start_date, user_id.
  split; [done|]. split; [done|].
  split; [by lookup_inserted|].
  split; [lia|].
  split; [by lookup_inserted|].
  exists added.
  split; [by lookup_inserted|].
  split; [done|].
  assert (forall v1 v2,
            (<["id":=VInt (purchases_count + i + 1)]>
               (<["product_id":=VInt product_id]>
                  (<["user_id":=user_id]>
                     (<["added_to_cart_at":=VDateTime added]>
                        (<["purchased_at":=v1]> (<["returned_at":=v2]> ∅))))) : Dict)
            !! "purchased_at" = Some v1 /\
            (<["id":=VInt (purchases_count + i + 1)]>
               (<["product_id":=VInt product_id]>
                  (<["user_id":=user_id]>
                     (<["added_to_cart_at":=VDateTime added]>
                        (<["purchased_at":=v1]> (<["returned_at":=v2]> ∅))))) : Dict)
            !! "returned_at" = Some v2) as Hlook.
  { intros v1 v2. split; by lookup_inserted. }
  apply bind_ok in Hpurchased as (r1 & w8 & _ & Hpurchased).
  destruct (r1 <=? 70).
  - apply bind_ok in Hpurchased as (b & w9 & Hb & Hpurchased).
    injection Hpurchased as <- <-. apply random_date_in_range_between in Hb.
    right. exists b. split; [exact (proj1 (Hlook _ _))|]. split; [lia|].
    apply bind_ok in Hreturned as (r2 & w10 & _ & Hreturned).
    destruct (r2 <=? 15).
    + apply bind_ok in Hreturned as (c' & w11 & Hc' & Hreturned).
      injection Hreturned as <- <-. apply random_date_in_range_between in Hc'.
      right. exists c'. split; [exact (proj2 (Hlook _ _)) | lia].
    + injection Hreturned as <- <-. left. exact (proj2 (Hlook _ _)).
  - injection Hpurchased as <- <-. injection Hreturned as <- <-.
    left. split; [exact (proj1 (Hlook _ _)) | exact (proj2 (Hlook _ _))].
Qed.

(** X3: every purchase [generate_purchases] returns refers to the user it
    was generated for and to a product number between 1 and the number of
    products minus one: the last product of [products.json] is never
    bought. *)
Theorem generate_purchases_references products this user purchases_count w ps w' :
  generate_purchases products this user purchases_count w = (Ok ps, w') ->
  Forall (fun purchase =>
            purchase !! "user_id" = user !! "id" /\
            exists product_id,
              purchase !! "product_id" = Some (VInt product_id) /\
              1 <= product_id <= Z.of_nat (length products) - 1) ps.
Proof.
  rewrite generate_purchases_eq. cbv zeta. intros H.
  eapply (purchases_loop_invariant _ _ _ _ (fun _ acc => Forall _ acc))
    in H as [_ H]; [exact H | | constructor].
  intros i acc p w0 w1 Hacc Hp. apply Forall_app. split; [done|].
  constructor; [|constructor].
  apply next_purchase_fields in Hp as (k & c & uid & _ & Hid & Hk & Hrange & Huid & _).
  split; [by rewrite Huid, Hid|]. exists k. split; [done | lia].
Qed.

Lemma generate_purchases_references_witness :
  Forall (fun purchase =>
            purchase !! "user_id" = sample_user !! "id" /\
            exists product_id,
              purchase !! "product_id" = Some (VInt product_id) /\
              1 <= product_id <= Z.of_nat (length sample_products) - 1) sample_purchases.
Proof.
  apply (generate_purchases_references sample_products sample_module sample_user 10
           sample_world sample_purchases
           (generate_purchases sample_products sample_module sample_user 10 sample_world).2).
  apply run_eq. vm_compute. reflexivity.
Defined.

(** X4: in every purchase [generate_purchases] returns for a user created
    at [created_at], [added_to_cart_at] is a date, never [None], not before
    [created_at]; [purchased_at], when set, is not before
    [added_to_cart_at], and [returned_at], when set, not before
    [purchased_at]; all of them lie before the time the module was
    imported. *)
Theorem generate_purchases_timestamps products this user created_at purchases_count
    w ps w' :
  user !! "created_at" = Some (VDateTime created_at) ->
  generate_purchases products this user purchases_count w = (Ok ps, w') ->
  Forall (timestamps_ordered created_at (end_date_default this)) ps.
Proof.
  intros Hc. rewrite generate_purchases_eq. cbv zeta. intros H.
  eapply (purchases_loop_invariant _ _ _ _ (fun _ acc => Forall _ acc))
    in H as [_ H]; [exact H | | constructor].
  intros i acc p w0 w1 Hacc Hp. apply Forall_app. split; [done|].
  constructor; [|constructor].
  apply next_purchase_fields in Hp as (k & c & uid & Hc' & _ & _ & _ & _ & Hts).
  by assert (c = created_at) as <- by congruence.
Qed.

Lemma generate_purchases_timestamps_witness :
  Forall (timestamps_ordered 999827200000000 1700000000000000) sample_purchases.
Proof.
  apply (generate_purchases_timestamps sample_products sample_module sample_user
           999827200000000 10 sample_world sample_purchases
           (generate_purchases sample_products sample_module sample_user 10 sample_world).2).
  - reflexivity.
  - apply run_eq. vm_compute. reflexivity.
Defined.

Lemma budget_run_length budget draws :
  budget_run budget draws -> Z.of_nat (length draws) <= Z.max 0 budget.
Proof.
  revert budget. induction draws as [|r draws IH]; intros budget; simpl.
  - lia.
  - intros (Hb & Hr & H). apply IH in H. lia.
Qed.

(** X5: [generate_purchases] never returns more than 79 purchases. *)
Theorem generate_purchases_at_most_79 products this user purchases_count w ps w' :
  generate_purchases products this user purchases_count w = (Ok ps, w') ->
  (length ps <= 79)%nat.
Proof.
  rewrite generate_purchases_eq. cbv zeta. intros H.
  apply purchases_loop_budget_run in H as (draws & Hrun & Hlen).
  apply budget_run_length in Hrun.
  pose proof (Z.mod_pos_bound (random_bits w (random_calls w)) 99).
  simpl in Hlen. lia.
Qed.

Lemma generate_purchases_at_most_79_witness : (length sample_purchases <= 79)%nat.
Proof.
  apply (generate_purchases_at_most_79 sample_products sample_module sample_user 10
           sample_world sample_purchases
           (generate_purchases sample_products sample_module sample_user 10 sample_world).2).
  apply run_eq. vm_compute. reflexivity.
Defined.

(** X6: when the first draw leaves a positive budget, so that a purchase
    has to be generated, [generate_purchases] raises a [ValueError] of
    [random.randrange].  With fewer than two products it is the one of
    [randrange(1, total_products)], whose text holds the numbers, raised
    after the one draw for the budget; with two products or more and a user
    created less than one day before the module was imported (or after
    that), it is the one of [randrange(days)], raised after a second draw,
    the one for the product. *)
Theorem generate_purchases_empty_range products this user purchases_count w :
  random_bits w (random_calls w) `mod` 99 < 79 ->
  ((length products <= 1)%nat ->
   generate_purchases products this user purchases_count w
   = (Raise (ValueError (empty_range 1 (Z.of_nat (length products)))), tick_random w)) /\
  ((1 < length products)%nat ->
   forall created_at,
     user !! "created_at" = Some (VDateTime created_at) ->
     end_date_default this - created_at < microseconds_per_day ->
     generate_purchases products this user purchases_count w
     = (Raise (ValueError "empty range for randrange()"), tick_random (tick_random w))).
Proof.
  intros Hdraw. rewrite generate_purchases_eq. cbv zeta.
  pose proof (Z.mod_pos_bound (random_bits w (random_calls w)) 99 ltac:(lia)) as Hmod.
  destruct (Z.to_nat (80 - (1 + random_bits w (random_calls w) `mod` 99)))
    as [|fuel] eqn:Hfuel; [lia|].
  rewrite purchases_loop_step by lia. split.
  - intros Hp. apply bind_raise. unfold next_purchase.
    apply bind_raise. apply randrange_empty. lia.
  - intros Hp c Hc Hclose. apply bind_raise. unfold next_purchase.
    rewrite (bind_step _ _ _ _ _ (randrange_eq 1 (Z.of_nat (length products)) _ ltac:(lia))).
    unfold bind at 1, getitem. rewrite Hc. unfold ret at 1.
    unfold bind at 1, as_datetime, ret at 1.
    apply bind_raise. by apply random_date_in_range_too_close.
Qed.

Lemma generate_purchases_empty_range_witness :
  generate_purchases one_product sample_module sample_user 0 sample_world
  = (Raise (ValueError "empty range for randrange() (1, 1, 0)"), tick_random sample_world) /\
  generate_purchases sample_products sample_module young_user 0 sample_world
  = (Raise (ValueError "empty range for randrange()"), tick_random (tick_random sample_world)).
Proof.
  split.
  - apply (proj1 (generate_purchases_empty_range one_product sample_module sample_user 0
                    sample_world ltac:(reflexivity))).
    cbn. lia.
  - apply (proj2 (generate_purchases_empty_range sample_products sample_module young_user 0
                    sample_world ltac:(reflexivity)) ltac:(cbn; lia) 1699956800000000);
      reflexivity.
Defined.

(** ** The runs of [read] *)

Section RunsOfRead.

Context (isoformat : datetime -> string) (products : list Dict) (this : ModuleState).
Context (count : Z) (seed : option Z) (records_per_sync records_per_slice : Z).
Context (purchases_stream : option ConfiguredAirbyteStream).
Hypothesis purchases_stream_name :
  forall ps, purchases_stream = Some ps -> stream_name ps = "Purchases".

(** The ways an iteration of the loop over the users can go. *)
Lemma users_step_cases stream i l w tr r w' :
  stream_name stream = "Users" ->
  users_step isoformat products this seed records_per_slice purchases_stream stream i l w
  = (tr, r, w') ->
  (exists e w1, generate_user i w = (Raise e, w1) /\ tr = [] /\ r = Raise e) \/
  exists user w1 t,
    generate_user i w = (Ok user, w1) /\
    ((exists w2 e w3,
        is_Some purchases_stream /\
        generate_purchases products this user (l_purchases_count l) w2 = (Raise e, w3) /\
        tr = [RECORD "Users" (iso_dict isoformat user) t] /\ r = Raise e) \/
     exists purchases pmsgs,
       purchases_of products this purchases_stream user l purchases /\
       Forall2 (record_for isoformat "Purchases") purchases pmsgs /\
       tr = RECORD "Users" (iso_dict isoformat user) t
            :: pmsgs ++ slice_checkpoint seed records_per_slice l /\
       r = Ok (locals_after seed records_per_slice l (length purchases))).
Proof.
  intros Hstream. unfold users_step. intros H.
  apply gbind_lift_inv in H as [(e & Huser & -> & ->) | (user & w1 & Huser & H)];
    [left; eauto|].
  right.
  apply gbind_lift_inv in H as [(e & H & _) | (record & w2 & Hrecord & H)];
    [by rewrite generate_record_eq in H|].
  rewrite generate_record_eq, Hstream in Hrecord. injection Hrecord as <- <-.
  apply gbind_yield_inv in H as (tr' & H & ->).
  eexists user, w1, _. split; [exact Huser|].
  apply gbind_inv in H as [(e & H & ->) | (t1 & pc & w3 & t2 & Hp & H & ->)].
  - left. destruct purchases_stream as [ps|] eqn:Hps;
      [|by apply gret_inv in H as (_ & ? & _)].
    apply gbind_lift_inv in H as [(e' & Hgen & [= ->] & ->) | (purchases & w3 & _ & H)].
    + eexists _, _, _. by repeat split.
    + destruct (emit_purchases_spec isoformat ps purchases (l_purchases_count l) w3)
        as (msgs & w4 & Hemit & _). congruence.
  - right.
    assert (exists purchases,
              purchases_of products this purchases_stream user l purchases /\
              Forall2 (record_for isoformat "Purchases") purchases t1 /\
              pc = l_purchases_count l + Z.of_nat (length purchases))
      as (purchases & Hof & Hmsgs & ->).
    { unfold purchases_of. destruct purchases_stream as [ps|] eqn:Hps.
      - apply gbind_lift_inv in Hp as [(e' & _ & ? & _) | (purchases & w4 & Hgen & Hp)];
          [done|].
        destruct (emit_purchases_spec isoformat ps purchases (l_purchases_count l) w4)
          as (msgs & w5 & Hemit & Hmsgs).
        rewrite Hemit in Hp. injection Hp as <- <- <-.
        rewrite (purchases_stream_name ps eq_refl) in Hmsgs.
        exists purchases. split; [eauto|]. by split.
      - apply gret_inv in Hp as (-> & [= <-] & _). exists [].
        split; [done|]. split; [constructor | simpl; lia]. }
    exists purchases, t1. split; [done|]. split; [done|].
    unfold slice_checkpoint, locals_after, checkpointed. cbv zeta.
    destruct (l_records_in_page l + 1 =? records_per_slice).
    + unfold generate_state in H. rewrite Hstream in H.
      apply gbind_yield_inv in H as (t3 & H & ->).
      by apply gret_inv in H as (-> & -> & _).
    + apply gret_inv in H as (-> & -> & _). by rewrite app_nil_r.
Qed.

Abbreviation users_run' :=
  (users_run isoformat products this seed records_per_sync records_per_slice
     purchases_stream).

Lemma users_loop_run stream n :
  stream_name stream = "Users" ->
  forall i l w tr r w',
    users_loop isoformat products this seed records_per_sync records_per_slice
      purchases_stream stream n i l w = (tr, r, w') ->
    users_run' n i l tr r.
Proof.
  intros Hstream. induction n as [|n IH]; intros i l w tr r w' H.
  - apply gret_inv in H as (-> & -> & _). constructor.
  - cbn [users_loop] in H.
    apply gbind_inv in H as [(e & H & ->) | (t1 & l1 & w1 & t2 & Hstep & H & ->)].
    + apply (users_step_cases _ _ _ _ _ _ _ Hstream) in H
        as [(e' & w1 & Huser & -> & [= <-])
           | (user & w1 & t & Huser & [(w2 & e' & w3 & Hps & Hgen & -> & [= <-])
                                      | (purchases & pmsgs & _ & _ & _ & ?)])];
        [by econstructor | by econstructor | done].
    + apply (users_step_cases _ _ _ _ _ _ _ Hstream) in Hstep
        as [(e' & w2 & _ & _ & ?)
           | (user & w2 & t & Huser & [(w3 & e' & w4 & _ & _ & _ & ?)
                                      | (purchases & pmsgs & Hof & Hmsgs & -> & [= ->])])];
        [done..|].
      cbn [locals_after l_records_in_sync] in H.
      destruct (Z.eqb_spec (l_records_in_sync l + 1) records_per_sync) as [Heq|Hne].
      * apply gret_inv in H as (-> & -> & _). rewrite app_nil_r. by econstructor.
      * apply IH in H. cbn [app]. rewrite <- app_assoc. by econstructor.
Qed.

Abbreviation stream_run' :=
  (stream_run isoformat products this count seed records_per_sync records_per_slice
     purchases_stream).
Abbreviation catalog_run' :=
  (catalog_run isoformat products this count seed records_per_sync records_per_slice
     purchases_stream).

Lemma read_stream_run stream state purchases_count w tr r w' :
  read_stream isoformat products this count seed records_per_sync records_per_slice
    purchases_stream stream state purchases_count w = (tr, r, w') ->
  stream_run' (stream_name stream) state purchases_count tr r.
Proof.
  intros H. destruct (decide (stream_name stream = "Users")) as [Hu|Hu].
  - unfold read_stream in H.
    destruct (decide (stream_name stream = "Users")) as [_|?]; [|done].
    rewrite Hu in H.
    apply gbind_lift_inv in H as [(e & Hc & -> & ->) | (c & w1 & Hc & H)];
      apply of_result_inv in Hc as [Hc _]; [by econstructor|].
    apply gbind_inv in H as [(e & H & ->) | (t1 & l & w2 & t2 & Hloop & H & ->)].
    + apply users_loop_run in H; [|done]. by econstructor.
    + apply users_loop_run in Hloop; [|done].
      unfold generate_state in H. rewrite Hu in H.
      apply gbind_yield_inv in H as (t3 & H & ->).
      assert (t3 = match purchases_stream with
                   | Some _ => [STATE (final_state seed purchases_stream l)]
                   | None => []
                   end /\
              r = Ok (final_state seed purchases_stream l, l_purchases_count l))
        as [-> ->].
      { unfold final_state, final_users_state.
        destruct purchases_stream as [ps|] eqn:Hps.
        - rewrite (purchases_stream_name ps eq_refl) in H.
          apply gbind_yield_inv in H as (t4 & H & ->).
          by apply gret_inv in H as (-> & -> & _).
        - by apply gret_inv in H as (-> & -> & _). }
      by eapply (stream_run_users _ _ _ _ _ _ _ _ _ _ _ c).
  - destruct (decide (stream_name stream = "Products")) as [Hp|Hp].
    + destruct (read_stream_products isoformat products this count seed records_per_sync
                  records_per_slice purchases_stream stream state purchases_count w Hp)
        as (msgs & w1 & Heq & Hmsgs).
      cbv zeta in Heq. rewrite Heq in H. injection H as <- <- <-.
      by constructor.
    + rewrite read_stream_other in H by done.
      destruct (decide (stream_name stream = "Purchases")); injection H as <- <- <-.
      * by constructor.
      * by constructor.
Qed.

Lemma read_streams_run streams :
  forall state purchases_count w tr r w',
    read_streams isoformat products this count seed records_per_sync records_per_slice
      purchases_stream streams state purchases_count w = (tr, r, w') ->
    catalog_run' streams state purchases_count tr r.
Proof.
  induction streams as [|s streams IH]; intros state pc w tr r w' H.
  - apply gret_inv in H as (-> & -> & _). constructor.
  - apply read_streams_cons in H
      as [(e & H & ->) | (t1 & state1 & pc1 & w1 & t2 & H1 & H2 & ->)].
    + apply read_stream_run in H. by constructor.
    + apply read_stream_run in H1. apply IH in H2. by econstructor.
Qed.

End RunsOfRead.

(** ** The exceptions of [read] *)

Lemma generate_user_raises user_id w e w' :
  generate_user user_id w = (Raise e, w') -> e = KeyError "birthdate".
Proof.
  rewrite generate_user_eq.
  destruct (faker_profile w (faker_calls w) !! "birthdate"); [done|]. by intros [= <- _].
Qed.

Lemma generate_user_fields user_id w user w' :
  generate_user user_id w = (Ok user, w') ->
  user !! "id" = Some (VInt (user_id + 1)) /\
  exists created_at, user !! "created_at" = Some (VDateTime created_at).
Proof.
  intros H. split; [by eapply generate_user_id|]. revert H.
  rewrite generate_user_eq.
  destruct (faker_profile w (faker_calls w) !! "birthdate"); [|done].
  cbv zeta. intros [= <- _]. eexists. apply lookup_union_Some_l.
  rewrite lookup_insert_ne by done. apply lookup_insert_eq.
Qed.

Lemma randrange_raises start stop w e w' :
  randrange start stop w = (Raise e, w') ->
  stop <= start /\ e = ValueError (empty_range start stop).
Proof.
  destruct (Z_lt_le_dec start stop).
  - by rewrite randrange_eq.
  - rewrite randrange_empty by done. by intros [= <- _].
Qed.

Lemma random_date_in_range_raises this start_date end_date w e w' :
  random_date_in_range this start_date end_date w = (Raise e, w') ->
  e = ValueError "empty range for randrange()".
Proof.
  rewrite random_date_in_range_eq. cbv zeta. destruct (0 <? _); [done|].
  by intros [= <- _].
Qed.

Lemma next_purchase_raises this user created_at purchases_count total_products i w e w' :
  user !! "created_at" = Some (VDateTime created_at) ->
  is_Some (user !! "id") ->
  next_purchase this user purchases_count total_products i w = (Raise e, w') ->
  e = ValueError "empty range for randrange()" \/
  total_products <= 1 /\ e = ValueError (empty_range 1 total_products).
Proof.
  intros Hc [uid Hid]. unfold next_purchase, getitem. rewrite Hc, Hid. intros H.
  apply bind_inv in H as [(e' & H & [= ->]) | (product_id & w1 & _ & H)];
    [right; by eapply randrange_raises|].
  left.
  rewrite (bind_step _ _ w1 (VDateTime created_at) w1 eq_refl) in H.
  rewrite (bind_step _ _ w1 created_at w1 eq_refl) in H.
  apply bind_inv in H as [(e' & H & [= ->]) | (added & w2 & _ & H)];
    [by eapply random_date_in_range_raises|].
  apply bind_inv in H as [(e' & H & [= ->]) | (purchased_at & w3 & _ & H)].
  { apply bind_inv in H as [(e'' & H & [= ->]) | (r1 & w4 & _ & H)];
      [apply randrange_raises in H; lia|].
    destruct (r1 <=? 70); [|done].
    apply bind_inv in H as [(e'' & H & [= ->]) | (? & ? & _ & ?)]; [|done].
    by eapply random_date_in_range_raises. }
  apply bind_inv in H as [(e' & H & [= ->]) | (returned_at & w4 & _ & H)].
  { destruct purchased_at as [p|]; [|done].
    apply bind_inv in H as [(e'' & H & [= ->]) | (r1 & w5 & _ & H)];
      [apply randrange_raises in H; lia|].
    destruct (r1 <=? 15); [|done].
    apply bind_inv in H as [(e'' & H & [= ->]) | (? & ? & _ & ?)]; [|done].
    by eapply random_date_in_range_raises. }
  by rewrite (bind_step _ _ w4 uid w4 eq_refl) in H.
Qed.

Lemma purchases_loop_raises this user created_at purchases_count total_products fuel :
  user !! "created_at" = Some (VDateTime created_at) ->
  is_Some (user !! "id") ->
  forall budget i acc w e w',
    (Z.to_nat budget <= fuel)%nat ->
    purchases_loop this fuel user purchases_count total_products budget i acc w
    = (Raise e, w') ->
    e = ValueError "empty range for randrange()" \/
    total_products <= 1 /\ e = ValueError (empty_range 1 total_products).
Proof.
  intros Hc Hid. induction fuel as [|fuel IH]; intros budget i acc w e w' Hfuel H.
  - by rewrite purchases_loop_stop in H by lia.
  - destruct (Z_le_gt_dec budget 0) as [Hb|Hb];
      [by rewrite purchases_loop_stop in H by lia|].
    rewrite purchases_loop_step in H by lia.
    apply bind_inv in H as [(e' & H & [= ->]) | (p & w1 & _ & H)];
      [by eapply next_purchase_raises|].
    apply bind_inv in H as [(e' & H & [= ->]) | (r & w2 & Hr & H)];
      [apply randrange_raises in H; lia|].
    apply randrange_ok in Hr as [Hr _]. eapply IH; [|exact H]. lia.
Qed.

Lemma generate_purchases_raises products this user created_at purchases_count w e w' :
  user !! "created_at" = Some (VDateTime created_at) ->
  is_Some (user !! "id") ->
  generate_purchases products this user purchases_count w = (Raise e, w') ->
  e = ValueError "empty range for randrange()" \/
  (length products <= 1)%nat /\
  e = ValueError (empty_range 1 (Z.of_nat (length products))).
Proof.
  intros Hc Hid. rewrite generate_purchases_eq. cbv zeta. intros H.
  destruct (purchases_loop_raises this user created_at purchases_count
              (Z.of_nat (length products)) _ Hc Hid _ _ _ _ _ _ (Nat.le_refl _) H)
    as [He | [Hp He]].
  - by left.
  - right. split; [lia | done].
Qed.

Lemma users_run_raises isoformat products this seed records_per_sync records_per_slice
    purchases_stream n i l tr e :
  users_run isoformat products this seed records_per_sync records_per_slice
    purchases_stream n i l tr (Raise e) ->
  e = KeyError "birthdate" \/ e = ValueError "empty range for randrange()" \/
  (length products <= 1)%nat /\
  e = ValueError (empty_range 1 (Z.of_nat (length products))).
Proof.
  remember (Raise e) as r eqn:Hr. induction 1 as
    [ | n i l w e' w' Huser | n i l w user w1 t w2 e' w3 Huser _ Hgen | |
      n i l w user w1 t purchases pmsgs trace r Huser _ _ _ _ IH ].
  - done.
  - injection Hr as ->. left. by eapply generate_user_raises.
  - injection Hr as ->. right.
    apply generate_user_fields in Huser as [Hid [c Hc]].
    by eapply generate_purchases_raises.
  - done.
  - by apply IH.
Qed.

Lemma catalog_run_raises isoformat products this count seed records_per_sync
    records_per_slice purchases_stream streams state purchases_count tr e :
  catalog_run isoformat products this count seed records_per_sync records_per_slice
    purchases_stream streams state purchases_count tr (Raise e) ->
  read_exception products streams e.
Proof.
  remember (Raise e) as r eqn:Hr.
  induction 1 as [ | s streams state pc trace e' Hs
                   | s streams state pc t1 state1 pc1 t2 r Hs _ IH ].
  - done.
  - injection Hr as ->. unfold read_exception.
    inversion Hs as [e1 Hn Hc | c tr1 e1 Hn Hc Hrun | | | | Hu Hp Hq]; subst.
    + unfold get_stream_cursor in Hc.
      destruct (state !! "Users") as [[]|]; try done; injection Hc as <-; tauto.
    + apply users_run_raises in Hrun. tauto.
    + do 6 right. exists s. split; [apply list_elem_of_here | done].
  - destruct (IH Hr) as [?|[?|[?|[?|[?|[?|(s' & Hin & ?)]]]]]]; unfold read_exception;
      try tauto.
    do 6 right. exists s'. split; [by apply list_elem_of_further | done].
Qed.

(** The ways [read] can go, with its loops seen as relations. *)
Lemma read_run isoformat products this config catalog state w tr r w' :
  read isoformat products this config catalog state w = (tr, r, w') ->
  (tr = [] /\ r = Raise (KeyError "purchases_count")) \/
  (tr = [] /\
   r = Raise (ValueError "Purchases stream cannot be enabled without Users stream")) \/
  exists purchases_count r0,
    checkpointed_purchases_count state = Ok purchases_count /\
    catalog_run isoformat products this (default 0 (config !! "count"))
      (config !! "seed") (default 500 (config !! "records_per_sync"))
      (default 100 (config !! "records_per_slice"))
      (last (filter (fun s => stream_name s = "Purchases") catalog))
      catalog state purchases_count tr r0 /\
    r = match r0 with
        | Ok (state', _) => Ok state'
        | Raise e => Raise e
        end.
Proof.
  intros H. apply read_inv in H.
  destruct (checkpointed_purchases_count state) as [pc|e] eqn:Hpc.
  - destruct (_ && _); [destruct H as (-> & _ & ->); tauto|].
    destruct H as (r0 & H & ->). do 2 right. exists pc, r0.
    split; [done|]. split; [|done].
    eapply read_streams_run; [apply purchases_stream_found | exact H].
  - destruct H as (-> & -> & _). left. split; [done|].
    unfold checkpointed_purchases_count in Hpc.
    destruct (state !! "Purchases") as [[]|]; try done; by injection Hpc as <-.
Qed.

(** X7: whatever [read] raises is one of: the [KeyError] of a prior state
    whose [Purchases] or [Users] checkpoint lacks its field, the
    [ValueError] for [Purchases] without [Users], the [ValueError] that
    names a stream of the catalog [read] does not know, the [KeyError] of
    a profile without [birthdate], the [ValueError] of
    [random.randrange(days)] on an empty range, or, with fewer than two
    products, the one of [random.randrange(1, total_products)].  The
    dictionaries it builds never lack a key it reads, and the loop of
    [generate_purchases] always ends. *)
Theorem read_raises isoformat products this config catalog state w tr e w' :
  read isoformat products this config catalog state w = (tr, Raise e, w') ->
  read_exception products catalog e.
Proof.
  intros H. apply read_run in H as [[_ [= ->]] | [[_ [= ->]] | (pc & r0 & _ & H & Hr)]].
  - unfold read_exception. tauto.
  - unfold read_exception. tauto.
  - destruct r0 as [[state' pc']|e']; [done|]. injection Hr as ->.
    by eapply catalog_run_raises.
Qed.

Lemma read_raises_witness :
  read_exception one_product [users_stream; purchases_stream_]
    (ValueError "empty range for randrange() (1, 1, 0)").
Proof.
  apply (read_raises sample_isoformat one_product sample_module sample_config
           [users_stream; purchases_stream_] ∅ sample_world one_product_run.1.1 _
           one_product_run.2).
  apply (gen_run_eq2 (read _ _ _ _ _ _)); [reflexivity | vm_compute; reflexivity].
Defined.

(** ** Streams [read] does not know *)

(** The loop over the catalog stops at a stream it does not know, unless
    it has stopped before. *)
Lemma read_streams_until_unknown isoformat products this count seed records_per_sync
    records_per_slice purchases_stream before s after :
  unknown_stream s ->
  forall state purchases_count w tr r w',
    read_streams isoformat products this count seed records_per_sync records_per_slice
      purchases_stream (before ++ s :: after) state purchases_count w = (tr, r, w') ->
    exists r1,
      read_streams isoformat products this count seed records_per_sync records_per_slice
        purchases_stream before state purchases_count w = (tr, r1, w') /\
      r = Raise match r1 with
                | Ok _ => ValueError (stream_name s)
                | Raise e => e
                end.
Proof.
  intros (Hu & Hp & Hq).
  induction before as [|b before IH]; intros state pc w tr r w' H; cbn [app] in H.
  - apply read_streams_cons in H
      as [(e & H & ->) | (t1 & state1 & pc1 & w1 & t2 & H1 & _)];
      [rewrite read_stream_other in H by done | rewrite read_stream_other in H1 by done].
    + destruct (decide (stream_name s = "Purchases")); [done|].
      injection H as <- <- <-. by exists (Ok (state, pc)).
    + by destruct (decide (stream_name s = "Purchases")).
  - apply read_streams_cons in H
      as [(e & H & ->) | (t1 & state1 & pc1 & w1 & t2 & H1 & H2 & ->)].
    + exists (Raise e). split; [|done]. simpl. unfold gbind. by rewrite H.
    + apply IH in H2 as (r1 & H2 & ->). exists r1. split; [|done].
      simpl. unfold gbind. by rewrite H1, H2.
Qed.

(** X8: on a catalog with a stream whose name is not [Users], [Products]
    or [Purchases], [read] never returns.  It ends with an exception;
    unless that is one of the two raised before the loop over the catalog,
    what it has emitted, and the world it leaves, are those of the loop
    over the streams listed before the unknown one, and the exception is
    the one that loop ended with or, when that loop completes, the
    [ValueError] that names the unknown stream. *)
Theorem read_unknown_stream isoformat products this config before s after state w tr r w' :
  unknown_stream s ->
  read isoformat products this config (before ++ s :: after) state w = (tr, r, w') ->
  (exists e, r = Raise e) /\
  ((tr = [] /\ w' = w /\
    (r = Raise (KeyError "purchases_count") \/
     r = Raise (ValueError "Purchases stream cannot be enabled without Users stream"))) \/
   exists purchases_count r1,
     checkpointed_purchases_count state = Ok purchases_count /\
     read_streams isoformat products this (default 0 (config !! "count"))
       (config !! "seed") (default 500 (config !! "records_per_sync"))
       (default 100 (config !! "records_per_slice"))
       (last (filter (fun s => stream_name s = "Purchases") (before ++ s :: after)))
       before state purchases_count w = (tr, r1, w') /\
     r = Raise match r1 with
               | Ok _ => ValueError (stream_name s)
               | Raise e => e
               end).
Proof.
  intros Hs H. apply read_inv in H.
  destruct (checkpointed_purchases_count state) as [pc|e] eqn:Hpc.
  - destruct (_ && _).
    + destruct H as (-> & -> & ->). split; [by eexists|]. left. tauto.
    + destruct H as (r0 & H & ->).
      apply read_streams_until_unknown in H as (r1 & H & ->); [|done].
      split; [by eexists|]. right. by exists pc, r1.
  - destruct H as (-> & -> & ->). split; [by eexists|]. left.
    unfold checkpointed_purchases_count in Hpc.
    destruct (state !! "Purchases") as [[]|]; try done; injection Hpc as <-; tauto.
Qed.

Lemma read_unknown_stream_witness :
  (exists e, orders_run.1.2 = Raise e) /\
  ((orders_run.1.1 = [] /\ orders_run.2 = sample_world /\
    (orders_run.1.2 = Raise (KeyError "purchases_count") \/
     orders_run.1.2
     = Raise (ValueError "Purchases stream cannot be enabled without Users stream"))) \/
   exists purchases_count r1,
     checkpointed_purchases_count resumed_state = Ok purchases_count /\
     read_streams sample_isoformat sample_products sample_module
       (default 0 (sample_config !! "count")) (sample_config !! "seed")
       (default 500 (sample_config !! "records_per_sync"))
       (default 100 (sample_config !! "records_per_slice"))
       (last (filter (fun s => stream_name s = "Purchases")
                ([users_stream] ++ orders_stream :: [])))
       [users_stream] resumed_state purchases_count sample_world
     = (orders_run.1.1, r1, orders_run.2) /\
     orders_run.1.2 = Raise match r1 with
                            | Ok _ => ValueError (stream_name orders_stream)
                            | Raise e => e
                            end).
Proof.
  apply (read_unknown_stream sample_isoformat sample_products sample_module sample_config
           [users_stream] orders_stream [] resumed_state sample_world
           orders_run.1.1 orders_run.1.2 orders_run.2).
  - repeat split; discriminate.
  - unfold orders_run. by destruct (read _ _ _ _ _ _ _) as [[? ?] ?].
Defined.

(** ** How many users a run emits *)

Lemma slice_checkpoint_records seed records_per_slice l s :
  records_of s (slice_checkpoint seed records_per_slice l) = [].
Proof. unfold slice_checkpoint. by destruct (_ =? _). Qed.

Lemma final_checkpoints_records seed purchases_stream l s :
  records_of s (final_checkpoints seed purchases_stream l) = [].
Proof. unfold final_checkpoints. by destruct purchases_stream. Qed.

(** The user records of an iteration followed by [rest]. *)
Lemma users_block_users isoformat seed records_per_slice l user t purchases pmsgs rest :
  Forall2 (record_for isoformat "Purchases") purchases pmsgs ->
  records_of "Users"
    (RECORD "Users" (iso_dict isoformat user) t
     :: pmsgs ++ slice_checkpoint seed records_per_slice l ++ rest)
  = iso_dict isoformat user :: records_of "Users" rest.
Proof.
  intros Hmsgs. rewrite records_of_cons_same, !records_of_app.
  rewrite (records_of_record_for _ _ _ _ _ Hmsgs), slice_checkpoint_records.
  by destruct (decide _).
Qed.

Lemma users_run_count isoformat products this seed records_per_sync records_per_slice
    purchases_stream n i l tr l' :
  users_run isoformat products this seed records_per_sync records_per_slice
    purchases_stream n i l tr (Ok l') ->
  Z.of_nat (length (records_of "Users" tr))
  = if decide (l_records_in_sync l < records_per_sync
               <= l_records_in_sync l + Z.of_nat n)
    then records_per_sync - l_records_in_sync l else Z.of_nat n.
Proof.
  remember (Ok l') as r eqn:Hr. induction 1 as
    [ i l | | | n i l w user w1 t purchases pmsgs Huser Hof Hmsgs Hsync
      | n i l w user w1 t purchases pmsgs trace r Huser Hof Hmsgs Hsync Hrun IH ].
  - change (records_of "Users" []) with (@nil Dict). cbn [length].
    destruct (decide _); lia.
  - done.
  - done.
  - rewrite <- (app_nil_r (slice_checkpoint _ _ _)).
    rewrite (users_block_users _ _ _ _ _ _ _ _ _ Hmsgs).
    change (records_of "Users" []) with (@nil Dict). cbn [length].
    destruct (decide _); lia.
  - rewrite (users_block_users _ _ _ _ _ _ _ _ _ Hmsgs). cbn [length].
    rewrite Nat2Z.inj_succ, (IH Hr). cbn [locals_after l_records_in_sync].
    clear IH Hrun. repeat case_decide; lia.
Qed.

Lemma catalog_run_count isoformat products this count seed records_per_sync
    records_per_slice purchases_stream streams state purchases_count tr r :
  catalog_run isoformat products this count seed records_per_sync records_per_slice
    purchases_stream streams state purchases_count tr r ->
  forall c state' purchases_count',
    r = Ok (state', purchases_count') ->
    get_stream_cursor state "Users" = Ok c ->
    (length (filter (fun s => stream_name s = "Users") streams) <= 1)%nat ->
    Z.of_nat (length (records_of "Users" tr))
    = if decide (filter (fun s => stream_name s = "Users") streams = [])
      then 0 else users_per_pass records_per_sync (Z.max 0 (count - c)).
Proof.
  induction 1 as [ | s streams state pc trace e' Hs
                   | s streams state pc t1 state1 pc1 t2 r Hs Hrun IH ];
    intros c state' pc' Hr Hc Hlen.
  - done.
  - done.
  - rewrite records_of_app, length_app, Nat2Z.inj_add.
    inversion Hs as [ | | c' tr1 l Hn Hc' Hloop | msgs Hn Hmsgs | Hn | ]; subst.
    + rewrite filter_cons_True in Hlen |- * by done.
      assert (c' = c) as -> by congruence. cbn [length] in Hlen.
      assert (filter (fun s => stream_name s = "Users") streams = []) as Hnil
        by (apply length_zero_iff_nil; lia).
      assert (get_stream_cursor (final_state seed purchases_stream l) "Users"
              = Ok (l_total_records l)) as Hc1.
      { unfold get_stream_cursor, final_state, final_users_state.
        destruct purchases_stream; by lookup_inserted. }
      rewrite (IH _ _ _ eq_refl Hc1) by (rewrite Hnil; simpl; lia).
      rewrite Hnil.
      destruct (decide (@nil ConfiguredAirbyteStream = [])) as [_|?]; [|done].
      destruct (decide (s :: @nil ConfiguredAirbyteStream = [])) as [?|_]; [done|].
      rewrite records_of_app, final_checkpoints_records, app_nil_r.
      apply users_run_count in Hloop. rewrite Hloop. cbn [l_records_in_sync].
      unfold users_per_pass. clear IH Hrun Hs. repeat case_decide; lia.
    + rewrite filter_cons_False in Hlen |- * by (rewrite Hn; done).
      rewrite records_of_app. rewrite (records_of_record_for _ _ _ _ _ Hmsgs).
      destruct (decide (stream_name s = "Products")) as [_|?]; [|done]. cbn [length].
      apply (IH _ _ _ eq_refl); [|done].
      unfold get_stream_cursor in *. by rewrite lookup_insert_ne.
    + rewrite filter_cons_False in Hlen |- * by (rewrite Hn; done).
      cbn. by apply (IH _ _ _ eq_refl).
Qed.

(** X9: a run of [read] that returns, on a catalog that lists [Users] once
    and resumed at cursor [c], has emitted [records_per_sync] users if
    that many were left to generate and [records_per_sync] is positive, and
    all the [count - c] remaining users otherwise: a cap of zero or less
    is no cap. *)
Theorem read_users_count isoformat products this config catalog state c w tr state' w' :
  length (filter (fun s => stream_name s = "Users") catalog) = 1%nat ->
  get_stream_cursor state "Users" = Ok c ->
  read isoformat products this config catalog state w = (tr, Ok state', w') ->
  Z.of_nat (length (records_of "Users" tr))
  = users_per_pass (default 500 (config !! "records_per_sync"))
      (Z.max 0 (default 0 (config !! "count") - c)).
Proof.
  intros Hone Hc H. apply read_run in H as [[_ ?] | [[_ ?] | (pc & r0 & _ & H & Hr)]];
    [done..|].
  destruct r0 as [[state1 pc1]|]; [|done].
  eapply catalog_run_count in H; [|done|exact Hc|lia].
  rewrite H. destruct (decide _) as [Hnil|]; [|done]. by rewrite Hnil in Hone.
Qed.

Lemma read_users_count_witness :
  Z.of_nat (length (records_of "Users" resumed_trace))
  = users_per_pass (default 500 (sample_config !! "records_per_sync"))
      (Z.max 0 (default 0 (sample_config !! "count") - 3)).
Proof.
  apply (read_users_count sample_isoformat sample_products sample_module sample_config
           [users_stream; purchases_stream_] resumed_state 3 sample_world resumed_trace
           resumed_state_after resumed_run.2).
  - reflexivity.
  - reflexivity.
  - apply (gen_run_eq2 (read _ _ _ _ _ _)); vm_compute; reflexivity.
Defined.

(** X10: a run resumed from the state that a run which returned has left
    continues the user [id]s where that run stopped, without a gap and
    without a repetition: the [Users] cursor that is checkpointed is the
    cursor the next run resumes from. *)
Theorem users_continue_across_runs isoformat products this config catalog state c w tr
    state' w' config2 catalog2 w2 tr2 r2 w2' :
  get_stream_cursor state "Users" = Ok c ->
  read isoformat products this config catalog state w = (tr, Ok state', w') ->
  read isoformat products this config2 catalog2 state' w2 = (tr2, r2, w2') ->
  get_stream_cursor state' "Users" = Ok (c + Z.of_nat (length (records_of "Users" tr))) /\
  ids_from (c + 1) (records_of "Users" tr ++ records_of "Users" tr2).
Proof.
  intros Hc H H2. apply read_inv in H.
  destruct (checkpointed_purchases_count state) as [pc|e]; [|by destruct H as (_ & ? & _)].
  destruct (_ && _); [by destruct H as (_ & _ & ?)|].
  destruct H as (r0 & H & Hr0).
  apply read_streams_spec in H as (_ & _ & Hu & _ & Hr); [|apply purchases_stream_found].
  destruct r0 as [[state1 pc1]|]; [|done]. injection Hr0 as ->.
  destruct Hr as (_ & Hc1 & _). specialize (Hc1 c Hc). destruct (Hu c Hc) as [Hids _].
  split; [exact Hc1|]. apply ids_from_app. split; [exact Hids|].
  apply read_inv in H2.
  destruct (checkpointed_purchases_count state1) as [pc2|e];
    [|destruct H2 as (-> & _); apply ids_from_nil].
  destruct (_ && _); [destruct H2 as (-> & _); apply ids_from_nil|].
  destruct H2 as (r3 & H2 & _).
  apply read_streams_spec in H2 as (_ & _ & Hu2 & _); [|apply purchases_stream_found].
  destruct (Hu2 _ Hc1) as [Hids2 _].
  replace (c + 1 + Z.of_nat (length (records_of "Users" tr)))
    with (c + Z.of_nat (length (records_of "Users" tr)) + 1) by lia.
  exact Hids2.
Qed.

Lemma users_continue_across_runs_witness :
  get_stream_cursor example_state "Users"
  = Ok (0 + Z.of_nat (length (records_of "Users" example_trace))) /\
  ids_from (0 + 1) (records_of "Users" example_trace ++ records_of "Users" second_run.1.1).
Proof.
  apply (users_continue_across_runs sample_isoformat sample_products sample_module
           sample_config [users_stream; purchases_stream_] ∅ 0 sample_world example_trace
           example_state example_run.2
           more_users_config [users_stream] sample_world
           second_run.1.1 second_run.1.2 second_run.2).
  - reflexivity.
  - apply (gen_run_eq2 (read _ _ _ _ _ _)); vm_compute; reflexivity.
  - unfold second_run. by destruct (read _ _ _ _ _ _ _) as [[? ?] ?].
Defined.

(** ** Whose purchases *)

Lemma owned_app owner t1 t2 :
  owned owner (t1 ++ t2) <-> owned owner t1 /\ owned (owner_after owner t1) t2.
Proof.
  revert owner. induction t1 as [|[s d t|st] t1 IH]; intros owner; cbn.
  - tauto.
  - destruct (decide (s = "Users")); rewrite IH; tauto.
  - apply IH.
Qed.

Lemma owner_after_app owner t1 t2 :
  owner_after owner (t1 ++ t2) = owner_after (owner_after owner t1) t2.
Proof.
  revert owner. induction t1 as [|[s d t|st] t1 IH]; intros owner; cbn; [done | apply IH..].
Qed.

Lemma owner_after_last owner tr :
  owner_after owner tr
  = match last (records_of "Users" tr) with
    | Some user => Some user
    | None => owner
    end.
Proof.
  revert owner. induction tr as [|[s d t|st] tr IH]; intros owner; cbn [owner_after];
    [done | | apply IH].
  rewrite IH. destruct (decide (s = "Users")) as [->|Hs].
  - rewrite records_of_cons_same.
    destruct (records_of "Users" tr) as [|u us]; [done|].
    rewrite last_cons_cons.
    by destruct (last_is_Some (u :: us)) as [_ [? ->]].
  - by rewrite records_of_cons_other.
Qed.

(** Records of other streams and state messages have no owner to answer
    to. *)
Lemma owned_others owner msgs :
  records_of "Users" msgs = [] -> records_of "Purchases" msgs = [] ->
  owned owner msgs /\ owner_after owner msgs = owner.
Proof.
  induction msgs as [|[s d t|st] msgs IH]; intros Hu Hp; cbn [owned owner_after];
    [done | | by apply IH].
  destruct (decide (s = "Users")) as [->|Hs]; [by rewrite records_of_cons_same in Hu|].
  destruct (decide (s = "Purchases")) as [->|Hs']; [by rewrite records_of_cons_same in Hp|].
  rewrite records_of_cons_other in Hu, Hp by done.
  destruct (IH Hu Hp) as [? ?]. by repeat split.
Qed.

(** The purchases that follow a user record are that user's. *)
Lemma owned_purchases isoformat user purchases pmsgs rest :
  is_Some (user !! "id") ->
  Forall (fun p : Dict => p !! "user_id" = user !! "id") purchases ->
  Forall2 (record_for isoformat "Purchases") purchases pmsgs ->
  owned (Some (iso_dict isoformat user)) rest ->
  owned (Some (iso_dict isoformat user)) (pmsgs ++ rest).
Proof.
  intros [v Hv] Hall Hmsgs Hrest. revert Hall.
  induction Hmsgs as [|p m purchases pmsgs [t ->] _ IH]; intros Hall; [done|].
  apply Forall_cons in Hall as [Hp Hall]. cbn.
  destruct (decide ("Purchases" = "Users")) as [?|_]; [done|]. split; [|by apply IH].
  intros _. exists (iso_dict isoformat user). split; [done|].
  unfold iso_dict. rewrite !lookup_fmap, Hp, Hv. split; [by eexists | done].
Qed.

Lemma generate_purchases_user_id products this user purchases_count w ps w' :
  generate_purchases products this user purchases_count w = (Ok ps, w') ->
  Forall (fun p : Dict => p !! "user_id" = user !! "id") ps.
Proof.
  rewrite generate_purchases_eq. cbv zeta. intros H.
  eapply (purchases_loop_invariant _ _ _ _ (fun _ acc => Forall _ acc))
    in H as [_ H]; [exact H | | constructor].
  intros i acc p w0 w1 Hacc Hp. apply Forall_app. split; [done|].
  constructor; [|constructor].
  apply next_purchase_fields in Hp as (k & c & uid & _ & Hid & _ & _ & Huid & _).
  by rewrite Huid, Hid.
Qed.

Lemma owned_slice_checkpoint owner seed records_per_slice l rest :
  owned owner (slice_checkpoint seed records_per_slice l ++ rest) <-> owned owner rest.
Proof. unfold slice_checkpoint. by destruct (_ =? _). Qed.

Lemma users_run_owned isoformat products this seed records_per_sync records_per_slice
    purchases_stream n i l tr r :
  users_run isoformat products this seed records_per_sync records_per_slice
    purchases_stream n i l tr r ->
  forall owner, owned owner tr.
Proof.
  assert (forall user (l : Locals) purchases,
            purchases_of products this purchases_stream user l purchases ->
            Forall (fun p : Dict => p !! "user_id" = user !! "id") purchases) as Hof'.
  { intros user l0 purchases Hof. unfold purchases_of in Hof.
    destruct purchases_stream; [|by subst].
    destruct Hof as (w & w' & Hgen). by eapply generate_purchases_user_id. }
  induction 1 as
    [ | | | n i l w user w1 t purchases pmsgs Huser Hof Hmsgs Hsync
      | n i l w user w1 t purchases pmsgs trace r Huser Hof Hmsgs Hsync Hrun IH ];
    intros owner; try done.
  - cbn. destruct (decide ("Users" = "Users")) as [_|?]; [|done].
    apply generate_user_fields in Huser as [Hid _].
    eapply owned_purchases; [by eexists | by eapply Hof' | done |].
    rewrite <- (app_nil_r (slice_checkpoint _ _ _)). by apply owned_slice_checkpoint.
  - cbn. destruct (decide ("Users" = "Users")) as [_|?]; [|done].
    apply generate_user_fields in Huser as [Hid _].
    eapply owned_purchases; [by eexists | by eapply Hof' | done |].
    apply owned_slice_checkpoint, IH.
Qed.

Lemma stream_run_owned isoformat products this count seed records_per_sync
    records_per_slice purchases_stream s state purchases_count tr r :
  stream_run isoformat products this count seed records_per_sync records_per_slice
    purchases_stream s state purchases_count tr r ->
  forall owner, owned owner tr.
Proof.
  intros H owner.
  inversion H as [ | c tr1 e Hn Hc Hrun | c tr1 l Hn Hc Hrun | msgs Hn Hmsgs | | ];
    subst; try done.
  - by eapply users_run_owned.
  - apply owned_app. split; [by eapply users_run_owned|].
    unfold final_checkpoints. by destruct purchases_stream.
  - apply owned_app. split; [|done].
    apply owned_others; rewrite (records_of_record_for _ _ _ _ _ Hmsgs);
      by destruct (decide _).
Qed.

Lemma catalog_run_owned isoformat products this count seed records_per_sync
    records_per_slice purchases_stream streams state purchases_count tr r :
  catalog_run isoformat products this count seed records_per_sync records_per_slice
    purchases_stream streams state purchases_count tr r ->
  forall owner, owned owner tr.
Proof.
  induction 1 as [ | s streams state pc trace e' Hs
                   | s streams state pc t1 state1 pc1 t2 r Hs _ IH ]; intros owner.
  - done.
  - by eapply stream_run_owned.
  - apply owned_app. split; [by eapply stream_run_owned | apply IH].
Qed.

Lemma read_owned isoformat products this config catalog state w tr r w' :
  read isoformat products this config catalog state w = (tr, r, w') ->
  owned None tr.
Proof.
  intros H. apply read_run in H as [[-> _] | [[-> _] | (pc & r0 & _ & H & _)]]; [done..|].
  by eapply catalog_run_owned.
Qed.

(** X11: every purchase record [read] emits comes after a user record,
    and its [user_id] is the [id] of the last user record emitted before
    it. *)
Theorem purchases_follow_their_user isoformat products this config catalog state w tr r w' :
  read isoformat products this config catalog state w = (tr, r, w') ->
  forall pre data t post,
    tr = pre ++ RECORD "Purchases" data t :: post ->
    exists user,
      last (records_of "Users" pre) = Some user /\
      is_Some (user !! "id") /\
      data !! "user_id" = user !! "id".
Proof.
  intros H pre data t post ->. apply read_owned in H.
  apply owned_app in H as [_ H]. cbn in H.
  destruct (decide ("Purchases" = "Users")) as [?|_]; [done|].
  destruct H as [H _]. destruct (H eq_refl) as (user & Howner & Hid & Huid).
  exists user. split; [|done].
  rewrite owner_after_last in Howner. by destruct (last _).
Qed.

Lemma purchases_follow_their_user_witness :
  exists user,
    last (records_of "Users" (take 6 example_trace)) = Some user /\
    is_Some (user !! "id") /\
    example_purchase !! "user_id" = user !! "id".
Proof.
  apply (purchases_follow_their_user sample_isoformat sample_products sample_module
           sample_config [users_stream; purchases_stream_] ∅ sample_world example_trace
           (Ok example_state) example_run.2)
    with (t := 1700000005000) (post := drop 7 example_trace).
  - apply (gen_run_eq2 (read _ _ _ _ _ _)); vm_compute; reflexivity.
  - vm_compute. reflexivity.
Defined.

Lemma owned_no_users tr :
  owned None tr -> records_of "Users" tr = [] -> records_of "Purchases" tr = [].
Proof.
  induction tr as [|[s d t|st] tr IH]; cbn [owned]; [done | | exact IH].
  destruct (decide (s = "Users")) as [->|Hs];
    [by rewrite records_of_cons_same|].
  rewrite records_of_cons_other by done. intros [Hp Hrest] Hu.
  destruct (decide (s = "Purchases")) as [->|Hs'].
  - by destruct (Hp eq_refl) as (? & ? & _).
  - rewrite records_of_cons_other by done. by apply IH.
Qed.

(** X12: resumed at a cursor that has reached [count], [read] emits no
    user record and no purchase record. *)
Theorem read_nothing_left isoformat products this config catalog state c w tr r w' :
  get_stream_cursor state "Users" = Ok c ->
  default 0 (config !! "count") <= c ->
  read isoformat products this config catalog state w = (tr, r, w') ->
  records_of "Users" tr = [] /\ records_of "Purchases" tr = [].
Proof.
  intros Hc Hcount H.
  assert (records_of "Users" tr = []) as Hu.
  { pose proof H as H'. apply read_inv in H'.
    destruct (checkpointed_purchases_count state) as [pc|e];
      [|by destruct H' as (-> & _)].
    destruct (_ && _); [by destruct H' as (-> & _)|].
    destruct H' as (r0 & H' & _).
    apply read_streams_spec in H' as (_ & _ & Hu & _); [|apply purchases_stream_found].
    destruct (Hu c Hc) as [_ Hlen]. apply length_zero_iff_nil. lia. }
  split; [exact Hu|]. apply read_owned in H. by apply owned_no_users.
Qed.

Lemma read_nothing_left_witness :
  records_of "Users" finished_run.1.1 = [] /\ records_of "Purchases" finished_run.1.1 = [].
Proof.
  apply (read_nothing_left sample_isoformat sample_products sample_module sample_config
           [users_stream; purchases_stream_] example_state 5 sample_world
           finished_run.1.1 finished_run.1.2 finished_run.2).
  - reflexivity.
  - reflexivity.
  - unfold finished_run. by destruct (read _ _ _ _ _ _ _) as [[? ?] ?].
Defined.

(** ** The combined state *)

Lemma keeps_refl a : keeps a a.
Proof. by intros k. Qed.

Lemma keeps_trans a b c : keeps a b -> keeps b c -> keeps a c.
Proof.
  intros Hab Hbc k. destruct (Hab k) as [H1 H2], (Hbc k) as [H3 H4]. split.
  - auto.
  - intros. rewrite H4, H2; done.
Qed.

Lemma keeps_insert a k v :
  k = "Users" \/ k = "Purchases" \/ k = "Products" -> keeps a (<[k := v]> a).
Proof.
  intros Hk k'. split.
  - intros H. destruct (decide (k = k')) as [->|Hne].
    + rewrite lookup_insert_eq. by eexists.
    + by rewrite lookup_insert_ne.
  - intros. rewrite lookup_insert_ne; [done|]. intros <-. tauto.
Qed.

Lemma stores_keeps seed products a b : stores seed products a b -> keeps a b.
Proof.
  intros [[n ->] | [[n ->] | ->]]; apply keeps_insert; tauto.
Qed.

Lemma storing_growing seed products prev states :
  storing seed products prev states -> growing prev states.
Proof.
  revert prev. induction states as [|st states IH]; intros prev; [done|].
  intros [H1 H2]. split; [by eapply stores_keeps | by apply IH].
Qed.

Lemma storing_app seed products a s1 s2 :
  storing seed products a (s1 ++ s2)
  <-> storing seed products a s1 /\ storing seed products (default a (last s1)) s2.
Proof.
  revert a. induction s1 as [|st s1 IH]; intros a; cbn [app storing].
  - cbn. tauto.
  - rewrite IH. destruct s1 as [|st' s1]; [cbn; tauto|].
    rewrite last_cons_cons.
    destruct (last_is_Some (st' :: s1)) as [_ [x Hx]]; [done|]. rewrite Hx. cbn. tauto.
Qed.

(** Every state of such a list is the one before it with a checkpoint
    stored. *)
Lemma storing_lookup seed products prev states pre st post :
  storing seed products prev states -> states = pre ++ st :: post ->
  stores seed products (default prev (last pre)) st.
Proof.
  intros H ->. apply storing_app in H as [_ H]. by destruct H as [H _].
Qed.

(** Every state of a growing list keeps [prev] and the states before
    it. *)
Lemma growing_keeps prev states pre st post :
  growing prev states -> states = pre ++ st :: post ->
  Forall (fun st0 => keeps st0 st) (prev :: pre).
Proof.
  intros H ->. revert prev H. induction pre as [|p pre IH]; intros prev H.
  - destruct H as [H _]. constructor; [done | constructor].
  - destruct H as [Hp H]. apply IH in H. constructor; [|done].
    apply Forall_cons in H as [H _]. by eapply keeps_trans.
Qed.

Lemma states_of_cons_record s d t tr : states_of (RECORD s d t :: tr) = states_of tr.
Proof. reflexivity. Qed.

Lemma states_of_cons_state st tr : states_of (STATE st :: tr) = st :: states_of tr.
Proof. reflexivity. Qed.

Lemma slice_checkpoint_storing seed products records_per_slice l k :
  let states := states_of (slice_checkpoint seed records_per_slice l) in
  storing seed products (l_state l) states /\
  l_state (locals_after seed records_per_slice l k) = default (l_state l) (last states).
Proof.
  unfold slice_checkpoint, locals_after. cbn [l_state].
  destruct (_ =? _); cbn; [|done].
  split; [|done]. split; [|done]. left. by eexists.
Qed.

Lemma default_last_app {A} (a : A) l1 l2 :
  default a (last (l1 ++ l2)) = default (default a (last l1)) (last l2).
Proof. rewrite last_app. by destruct (last l2). Qed.

Lemma users_run_storing isoformat products this seed records_per_sync records_per_slice
    purchases_stream n i l tr r :
  users_run isoformat products this seed records_per_sync records_per_slice
    purchases_stream n i l tr r ->
  storing seed products (l_state l) (states_of tr) /\
  (forall l', r = Ok l' -> l_state l' = default (l_state l) (last (states_of tr))).
Proof.
  induction 1 as
    [ | | | n i l w user w1 t purchases pmsgs Huser Hof Hmsgs Hsync
      | n i l w user w1 t purchases pmsgs trace r Huser Hof Hmsgs Hsync Hrun IH ].
  - split; [done|]. by intros l' [= <-].
  - done.
  - done.
  - rewrite states_of_cons_record, states_of_app, (states_of_record_for _ _ _ _ Hmsgs).
    cbn [app].
    destruct (slice_checkpoint_storing seed products records_per_slice l (length purchases))
      as [Hg Hl].
    split; [done|]. by intros l' [= <-].
  - rewrite states_of_cons_record, !states_of_app, (states_of_record_for _ _ _ _ Hmsgs).
    cbn [app].
    destruct (slice_checkpoint_storing seed products records_per_slice l (length purchases))
      as [Hg Hl].
    destruct IH as [IHg IHl]. rewrite Hl in IHg. split.
    + apply storing_app. by split.
    + intros l' Hr. rewrite (IHl l' Hr), Hl. by rewrite default_last_app.
Qed.

Lemma stream_run_storing isoformat products this count seed records_per_sync
    records_per_slice purchases_stream s state purchases_count tr r :
  stream_run isoformat products this count seed records_per_sync records_per_slice
    purchases_stream s state purchases_count tr r ->
  storing seed products state (states_of tr) /\
  (forall state' purchases_count',
     r = Ok (state', purchases_count') -> state' = default state (last (states_of tr))).
Proof.
  intros H.
  inversion H as [ | c tr1 e Hn Hc Hrun | c tr1 l Hn Hc Hrun | msgs Hn Hmsgs | | ];
    subst; try done.
  - apply (users_run_storing _ products) in Hrun as [Hg _]. by split.
  - apply (users_run_storing _ products) in Hrun as [Hg Hl]. cbn [l_state] in Hg, Hl.
    specialize (Hl l eq_refl). rewrite states_of_app, default_last_app, <- Hl.
    assert (stores seed products (l_state l) (final_users_state seed l)) as Hu
      by (left; by eexists).
    split.
    + apply storing_app. split; [done|]. rewrite <- Hl.
      unfold final_checkpoints, final_state. destruct purchases_stream; cbn.
      * split; [done|]. split; [|done]. right. left. by eexists.
      * by split.
    + intros state' pc' [= <- <-].
      unfold final_checkpoints, final_state. by destruct purchases_stream.
  - rewrite states_of_app, (states_of_record_for _ _ _ _ Hmsgs). cbn. split.
    + split; [|done]. by do 2 right.
    + by intros state' pc' [= <- <-].
  - split; [done|]. by intros state' pc' [= <- <-].
Qed.

Lemma catalog_run_storing isoformat products this count seed records_per_sync
    records_per_slice purchases_stream streams state purchases_count tr r :
  catalog_run isoformat products this count seed records_per_sync records_per_slice
    purchases_stream streams state purchases_count tr r ->
  storing seed products state (states_of tr) /\
  (forall state' purchases_count',
     r = Ok (state', purchases_count') -> state' = default state (last (states_of tr))).
Proof.
  induction 1 as [ | s streams state pc trace e' Hs
                   | s streams state pc t1 state1 pc1 t2 r Hs _ IH ].
  - split; [done|]. by intros state' pc' [= <- <-].
  - apply stream_run_storing in Hs as [Hg _]. by split.
  - apply stream_run_storing in Hs as [Hg Hl]. specialize (Hl _ _ eq_refl).
    destruct IH as [IHg IHl]. rewrite states_of_app, default_last_app, <- Hl. split.
    + apply storing_app. split; [done|]. by rewrite <- Hl.
    + exact IHl.
Qed.

(** X13: [generate_state] stores every checkpoint in the one dictionary
    that [read] was given.  Each state message is the state message before
    it (the state given to [read], for the first one) with one checkpoint
    stored: a cursor with the seed under [Users], a counter under
    [Purchases], or the number of products under [Products].  So it holds
    an entry for every key that the state given to [read] and the state
    messages before it hold one for, and leaves the entries of other keys
    as they were.  The state a run that returns leaves behind is the one of
    its last state message (the state given to it when it emitted none). *)
Theorem read_state_accumulates isoformat products this config catalog state w tr r w' :
  read isoformat products this config catalog state w = (tr, r, w') ->
  (forall pre st post,
     states_of tr = pre ++ st :: post ->
     stores (config !! "seed") products (default state (last pre)) st) /\
  (forall pre st post,
     states_of tr = pre ++ st :: post ->
     Forall (fun st0 => keeps st0 st) (state :: pre)) /\
  (forall state', r = Ok state' -> state' = default state (last (states_of tr))).
Proof.
  intros H.
  apply read_run in H as [[-> ->] | [[-> ->] | (pc & r0 & _ & H & ->)]].
  - split; [|split; [|done]]; intros pre st post Hs; by destruct pre.
  - split; [|split; [|done]]; intros pre st post Hs; by destruct pre.
  - apply catalog_run_storing in H as [Hg Hl]. split; [|split].
    + intros pre st post Hs. by eapply storing_lookup.
    + intros pre st post Hs. apply storing_growing in Hg. by eapply growing_keeps.
    + intros state' Hr. destruct r0 as [[st pc']|e]; [|done].
      injection Hr as <-. by eapply Hl.
Qed.

Lemma read_state_accumulates_witness :
  stores (sample_config !! "seed") sample_products resumed_state products_state /\
  Forall (fun st0 => keeps st0 products_state) [resumed_state] /\
  products_state = default resumed_state (last (states_of products_trace)).
Proof.
  assert (products_run = (products_trace, Ok products_state, products_run.2)) as Hrun.
  { apply (gen_run_eq2 (read _ _ _ _ _ _)); vm_compute; reflexivity. }
  destruct (read_state_accumulates sample_isoformat sample_products sample_module
              sample_config [products_stream] resumed_state sample_world
              products_trace (Ok products_state) products_run.2 Hrun)
    as (Hstores & Hkeeps & Hlast).
  assert (states_of products_trace = [] ++ products_state :: []) as Hstates
    by (vm_compute; reflexivity).
  split; [exact (Hstores [] products_state [] Hstates)|].
  split; [exact (Hkeeps [] products_state [] Hstates)|].
  exact (Hlast products_state eq_refl).
Defined.

(** ** Timestamps in records *)








(** ** [Products] alone *)

Lemma emit_products_world isoformat stream products :
  forall w msgs r w',
    emit_products isoformat stream products w = (msgs, r, w') ->
    faker_calls w' = faker_calls w /\ random_calls w' = random_calls w.
Proof.
  induction products as [|p products IH]; intros w msgs r w' H.
  - by apply gret_inv in H as (_ & _ & ->).
  - simpl in H. unfold gbind at 1, lift in H. rewrite generate_record_eq in H.
    unfold gbind at 1, yield in H.
    destruct (emit_products isoformat stream products (tick_clock w)) as [[m r0] w0] eqn:E.
    apply IH in E. cbn in H, E. by injection H as _ _ <-.
Qed.

Lemma read_stream_products_world isoformat products this count seed records_per_sync
    records_per_slice purchases_stream stream state purchases_count w tr r w' :
  stream_name stream = "Products" ->
  read_stream isoformat products this count seed records_per_sync records_per_slice
    purchases_stream stream state purchases_count w = (tr, r, w') ->
  faker_calls w' = faker_calls w /\ random_calls w' = random_calls w.
Proof.
  intros Hname. unfold read_stream. rewrite Hname.
  destruct (decide ("Products" = "Users")) as [?|_]; [done|].
  destruct (decide ("Products" = "Products")) as [_|?]; [|done].
  unfold gbind at 1. unfold generate_products, generate_state.
  destruct (emit_products isoformat stream products w) as [[m r0] w0] eqn:E.
  apply emit_products_world in E. destruct r0; by intros [= _ _ <-].
Qed.

(** X15: with [Products] as the only stream of the catalog, [read] emits
    the products of [products.json] in their order, then one state
    message with their number as [product_count], and returns; it calls
    neither Faker nor [random].  It still reads the purchases counter of
    the state it is given. *)
Theorem read_products_only isoformat products this config s state purchases_count w tr r w' :
  stream_name s = "Products" ->
  checkpointed_purchases_count state = Ok purchases_count ->
  read isoformat products this config [s] state w = (tr, r, w') ->
  let state' := <["Products" := CkProducts (Z.of_nat (length products))]> state in
  r = Ok state' /\
  (exists msgs, tr = msgs ++ [STATE state'] /\
                Forall2 (record_for isoformat "Products") products msgs) /\
  faker_calls w' = faker_calls w /\ random_calls w' = random_calls w.
Proof.
  intros Hs Hpc H state'. apply read_inv in H. rewrite Hpc in H.
  assert (existsb (is_stream "Purchases") [s] = false) as Hnone.
  { cbn [existsb]. unfold is_stream. rewrite Hs. reflexivity. }
  rewrite Hnone in H. cbn [andb] in H. destruct H as (r0 & H & ->).
  destruct (read_stream_products isoformat products this (default 0 (config !! "count"))
              (config !! "seed") (default 500 (config !! "records_per_sync"))
              (default 100 (config !! "records_per_slice"))
              (last (filter (fun s => stream_name s = "Purchases") [s]))
              s state purchases_count w Hs) as (msgs & w2 & Heq & Hmsgs).
  cbv zeta in Heq.
  apply read_streams_cons in H
    as [(e & H & ->) | (t1 & state1 & pc1 & w1 & t2 & H1 & H2 & ->)].
  - by rewrite Heq in H.
  - apply gret_inv in H2 as (-> & -> & ->). rewrite app_nil_r.
    pose proof (read_stream_products_world _ _ _ _ _ _ _ _ _ _ _ _ _ _ _ Hs H1) as Hw.
    rewrite Heq in H1. injection H1 as <- <- _ _.
    split; [done|]. split; [by exists msgs | done].
Qed.

Lemma read_products_only_witness :
  let state' := <["Products" := CkProducts (Z.of_nat (length sample_products))]> resumed_state in
  products_run.1.2 = Ok state' /\
  (exists msgs, products_run.1.1 = msgs ++ [STATE state'] /\
                Forall2 (record_for sample_isoformat "Products") sample_products msgs) /\
  faker_calls products_run.2 = faker_calls sample_world /\
  random_calls products_run.2 = random_calls sample_world.
Proof.
  apply (read_products_only sample_isoformat sample_products sample_module sample_config
           products_stream resumed_state 7 sample_world
           products_run.1.1 products_run.1.2 products_run.2).
  - reflexivity.
  - reflexivity.
  - unfold products_run. by destruct (read _ _ _ _ _ _ _) as [[? ?] ?].
Defined.

(** * Checkpoints and order, for every catalog *)

(** ** The [Users] cursor in the state messages *)




Section CheckpointsOfRead.

Context (isoformat : datetime -> string) (products : list Dict) (this : ModuleState).
Context (count : Z) (seed : option Z) (records_per_sync records_per_slice : Z).
Context (purchases_stream : option ConfiguredAirbyteStream).
Hypothesis purchases_stream_name :
  forall ps, purchases_stream = Some ps -> stream_name ps = "Purchases".

Abbreviation read_stream' :=
  (read_stream isoformat products this count seed records_per_sync records_per_slice
     purchases_stream).
Abbreviation read_streams' :=
  (read_streams isoformat products this count seed records_per_sync records_per_slice
     purchases_stream).
Abbreviation products_checkpoint :=
  (<["Products" := CkProducts (Z.of_nat (length products))]>).





End CheckpointsOfRead.



(** ** The order of the streams *)

Section OrderOfRead.

Context (isoformat : datetime -> string) (products : list Dict) (this : ModuleState).
Context (count : Z) (seed : option Z) (records_per_sync records_per_slice : Z).
Context (purchases_stream : option ConfiguredAirbyteStream).
Hypothesis purchases_stream_name :
  forall ps, purchases_stream = Some ps -> stream_name ps = "Purchases".

Abbreviation read_stream' :=
  (read_stream isoformat products this count seed records_per_sync records_per_slice
     purchases_stream).
Abbreviation read_streams' :=
  (read_streams isoformat products this count seed records_per_sync records_per_slice
     purchases_stream).

Lemma read_stream_served s state purchases_count w t1 r1 w1 :
  read_stream' s state purchases_count w = (t1, r1, w1) ->
  served isoformat products s t1.
Proof.
  intros H1. unfold served. destruct (decide (stream_name s = "Users")) as [Hu|Hu].
  - apply read_stream_users in H1; [|done..].
    destruct (get_stream_cursor state "Users"); [|by destruct H1 as [-> _]].
    by destruct H1 as (_ & _ & _ & _ & ? & _).
  - destruct (decide (stream_name s = "Products")) as [Hp|Hp].
    + destruct (read_stream_products isoformat products this count seed records_per_sync
                  records_per_slice purchases_stream s state purchases_count w Hp)
        as (msgs & w2 & Heq & Hmsgs).
      cbv zeta in Heq. rewrite Heq in H1. injection H1 as <- _ _. eauto.
    + rewrite read_stream_other in H1 by done.
      by destruct (decide _); injection H1 as <- _ _.
Qed.

(** The trace of the loop over the catalog, cut at the streams. *)
Lemma read_streams_segments streams :
  forall state purchases_count w tr r w',
    read_streams' streams state purchases_count w = (tr, r, w') ->
    exists segments,
      tr = concat segments /\
      Forall2 (served isoformat products) (take (length segments) streams) segments /\
      (forall x, r = Ok x -> length segments = length streams).
Proof.
  induction streams as [|s streams IH]; intros state pc w tr r w' H.
  - apply gret_inv in H as (-> & _). exists []. by repeat split.
  - apply read_streams_cons in H
      as [(e & H & ->) | (t1 & state1 & pc1 & w1 & t2 & H1 & H2 & ->)].
    + exists [tr]. cbn. rewrite app_nil_r, take_0. split; [done|]. split; [|done].
      constructor; [by eapply read_stream_served | constructor].
    + apply IH in H2 as (segments & -> & Hall & Hlen). exists (t1 :: segments).
      split; [done|]. split.
      * cbn. constructor; [by eapply read_stream_served | done].
      * intros x Hx. cbn. f_equal. by eapply Hlen.
Qed.

(** Without a [Users] stream, every state message is the state at the
    start with the [Products] checkpoint. *)
Lemma read_streams_products_phase streams :
  Forall (fun s => stream_name s <> "Users") streams ->
  forall state purchases_count w tr r w',
    read_streams' streams state purchases_count w = (tr, r, w') ->
    Forall (fun st => st = <["Products" := CkProducts (Z.of_nat (length products))]> state)
      (states_of tr).
Proof.
  induction 1 as [|s streams Hs _ IH]; intros state pc w tr r w' H.
  - apply gret_inv in H as (-> & _). constructor.
  - destruct (decide (stream_name s = "Products")) as [Hp|Hp].
    + destruct (read_stream_products isoformat products this count seed records_per_sync
                  records_per_slice purchases_stream s state pc w Hp)
        as (msgs & w2 & Heq & Hmsgs).
      cbv zeta in Heq.
      apply read_streams_cons in H
        as [(e & H & ->) | (t1 & state1 & pc1 & w1 & t2 & H1 & H2 & ->)];
        [by rewrite Heq in H|].
      rewrite Heq in H1. injection H1 as <- <- <- <-.
      rewrite !states_of_app, (states_of_record_for _ _ _ _ Hmsgs). cbn [app].
      change (states_of [STATE ?st]) with [st]. cbn [app].
      constructor; [done|]. apply IH in H2. by rewrite insert_insert_eq in H2.
    + apply read_streams_cons in H
        as [(e & H & ->) | (t1 & state1 & pc1 & w1 & t2 & H1 & H2 & ->)].
      * rewrite read_stream_other in H by done.
        destruct (decide _); injection H as <- _ _; constructor.
      * rewrite read_stream_other in H1 by done.
        destruct (decide _); [|done]. injection H1 as <- <- <- <-. by eapply IH.
Qed.

End OrderOfRead.

(** C9, as the code has it: the streams are served in the order of the
    catalog: the trace is, entry by entry, what serving each entry emits,
    up to the entry at which the run ends.  When the catalog lists every
    [Users] entry before every [Products] entry, every user and purchase
    record is emitted before any product record, and so is every [Users]
    and [Purchases] checkpoint: the run splits into a stretch without
    product records and a stretch in which only [Products] checkpoints are
    written. *)
Theorem users_then_products isoformat products this config catalog state w tr r w' :
  read isoformat products this config catalog state w = (tr, r, w') ->
  (exists segments,
     tr = concat segments /\
     Forall2 (served isoformat products) (take (length segments) catalog) segments /\
     (forall state', r = Ok state' -> length segments = length catalog)) /\
  (users_listed_first catalog ->
   users_before_products tr /\
   exists t1 t2,
     tr = t1 ++ t2 /\
     records_of "Products" t1 = [] /\
     products_phase products (default state (last (states_of t1))) t2).
Proof.
  intros H. apply read_inv in H.
  assert (users_before_products []) as Hnil by (intros [|i] ? ? ? ? ? ?; done).
  assert (users_before_products [] /\
          exists t1 t2,
            [] = t1 ++ t2 /\
            records_of "Products" t1 = [] /\
            products_phase products (default state (last (states_of t1))) t2) as Hempty.
  { split; [done|]. exists [], []. repeat split; try done; constructor. }
  destruct (checkpointed_purchases_count state) as [pc|e].
  2:{ destruct H as (-> & -> & _). split; [|done].
      exists []. rewrite take_0. by repeat split. }
  destruct (_ && _).
  { destruct H as (-> & _ & ->). split; [|done].
    exists []. rewrite take_0. by repeat split. }
  destruct H as (r0 & H & ->). split.
  - eapply read_streams_segments in H as (segments & -> & Hall & Hlen);
      [|apply purchases_stream_found].
    exists segments. split; [done|]. split; [done|].
    intros state' Hr. destruct r0 as [x|]; [by eapply Hlen | done].
  - intros Hcat.
    destruct (users_listed_first_split catalog Hcat) as (l1 & l2 & Hsplit & Hl1 & Hl2).
    rewrite Hsplit in H at 2.
    apply read_streams_app in H as (t1 & r1 & w1 & H1 & Hr1).
    assert (records_of "Products" t1 = []) as Hno.
    { eapply read_streams_without_products;
        [apply purchases_stream_found | exact Hl1 | exact H1]. }
    destruct r1 as [[state1 pc1]|e].
    + destruct Hr1 as (t2 & H2 & ->).
      pose proof (read_streams_without_users _ _ _ _ _ _ _ _ _ Hl2 _ _ _ _ _ _ H2)
        as [Hu Hp].
      split; [by apply users_before_products_app|].
      exists t1, t2. split; [done|]. split; [done|]. split; [done|]. split; [done|].
      apply read_streams_run in H1; [|apply purchases_stream_found].
      apply (catalog_run_storing _ products) in H1 as [_ Hstate].
      rewrite <- (Hstate state1 pc1 eq_refl).
      by eapply read_streams_products_phase.
    + destruct Hr1 as [-> _]. rewrite <- (app_nil_r t1).
      split; [by apply users_before_products_app|].
      exists t1, []. repeat split; try done; constructor.
Qed.

Lemma users_then_products_witness :
  (exists segments,
     discovered_trace = concat segments /\
     Forall2 (served sample_isoformat sample_products)
       (take (length segments) [users_stream; products_stream; purchases_stream_])
       segments /\
     (forall state', Ok discovered_state = Ok state' -> length segments = 3%nat)) /\
  users_before_products discovered_trace /\
  exists t1 t2,
    discovered_trace = t1 ++ t2 /\
    records_of "Products" t1 = [] /\
    products_phase sample_products (default ∅ (last (states_of t1))) t2.
Proof.
  assert (users_listed_first [users_stream; products_stream; purchases_stream_])
    as Hlisted.
  { intros [|[|[|i]]] j s s' Hi Hj Hs Hs'; simpl in Hi; try done;
      injection Hi as <-; try discriminate.
    destruct j as [|[|[|j]]]; simpl in Hj; try done; injection Hj as <-;
      try discriminate. lia. }
  assert (discovered_run = (discovered_trace, Ok discovered_state, discovered_run.2))
    as Hrun.
  { apply (gen_run_eq2 (read _ _ _ _ _ _)); vm_compute; reflexivity. }
  destruct (users_then_products sample_isoformat sample_products sample_module
              sample_config [users_stream; products_stream; purchases_stream_] ∅
              sample_world discovered_trace (Ok discovered_state) discovered_run.2 Hrun)
    as [Hsegments Horder].
  split; [exact Hsegments | exact (Horder Hlisted)].
Defined.

(** C9 as stated fails: with [Products] listed before [Users] the first
    message is a product record and the user records come after it. *)
Lemma products_listed_first_emitted_first :
  products_first_run = (products_first_trace, products_first_run.1.2, products_first_run.2) /\
  ~ users_before_products products_first_trace.
Proof.
  split.
  - apply (gen_run_eq (read _ _ _ _ _ _)). vm_compute. reflexivity.
  - intros H.
    destruct (products_first_trace !! 0%nat) as [[s0 d0 t0|]|] eqn:H0; try done.
    destruct (products_first_trace !! 4%nat) as [[s4 d4 t4|]|] eqn:H4; try done.
    assert (s0 = "Products") as -> by (vm_compute in H0; congruence).
    assert (s4 = "Users") as -> by (vm_compute in H4; congruence).
    specialize (H 0%nat 4%nat d0 t0 "Users" d4 t4 H0 H4 (or_introl eq_refl)). lia.
Qed.
